(** * vaxdata: VAX F_floating / G_floating <-> IEEE S_floating / T_floating

    A shallow embedding of the Go package [vaxdata] (conversions.go,
    vaxtofloat32.go, vaxtofloat64.go and the encoders VaxFFloatfromFloat32 and
    VaxGFloatfromFloat64), with the properties of its conversion routines.

    Conventions of the embedding:
    - a [uint32] / [uint64] is a [Z] in the range of its width; every Go
      operator that can leave the range is followed by its wrap-around;
    - an [int32] is a [Z] in [-2^31, 2^31);
    - a [float32] / [float64] is the record of its IEEE-754 bit pattern:
      [math.Float32frombits] and [math.Float32bits] are bit casts, so they are
      the constructor and the projection of that record;
    - a Go [error] is [option string]: [None] is [nil], [Some msg] is
      [errors.New(msg)];
    - a [[]byte] is a [list byte]; slicing or indexing out of range panics;
    - a function that may panic or loop returns a [result]. *)

From Stdlib Require Import ZArith Lia List String Bool.
From Stdlib.Strings Require Import Byte.
Import ListNotations.
Local Open Scope Z_scope.

(** ** Outcomes of a Go call *)

Inductive result (A : Type) : Type :=
| Returns (a : A)
| Panics
| Diverges.
Arguments Returns {A} a.
Arguments Panics {A}.
Arguments Diverges {A}.

Definition bind {A B : Type} (r : result A) (k : A -> result B) : result B :=
  match r with
  | Returns a => k a
  | Panics => Panics
  | Diverges => Diverges
  end.

Notation "x <- r ;; k" := (bind r (fun x => k))
  (at level 61, r at next level, right associativity).

Definition error : Type := option string.

(** ** Machine integers *)

Definition is_uint32 (z : Z) : Prop := 0 <= z < 2 ^ 32.
Definition is_uint64 (z : Z) : Prop := 0 <= z < 2 ^ 64.

(** Conversions [uint32(x)], [uint64(x)], [int32(x)] of an integer value. *)
Definition to_uint32 (z : Z) : Z := z mod 2 ^ 32.
Definition to_uint64 (z : Z) : Z := z mod 2 ^ 64.
Definition to_int32 (z : Z) : Z := (z + 2 ^ 31) mod 2 ^ 32 - 2 ^ 31.

(** Go's [x << n] and [^x] on a [uint32]; [x >> n] is [Z.shiftr]. *)
Definition shl32 (x n : Z) : Z := to_uint32 (Z.shiftl x n).
Definition not32 (x : Z) : Z := Z.lxor x 4294967295.

(** ** Floating-point values as bit patterns *)

Record float32 : Type := Float32frombits { Float32bits : Z }.
Record float64 : Type := Float64frombits { Float64bits : Z }.

(** ** conversions.go *)

Definition VaxFFloat : Type := Z.
Definition VaxGFloat : Type := Z.

Definition SignBit : Z := 0x80000000.

Definition VaxFExponentMask : Z := 0x7F800000.
Definition VaxFExponentSize : Z := 8.
Definition VaxFExponentBias : Z := Z.shiftl 1 (VaxFExponentSize - 1).
Definition VaxFMantissaMask : Z := 0x007FFFFF.
Definition VaxFMantissaSize : Z := 23.
Definition VaxFHiddenBit : Z := Z.shiftl 1 VaxFMantissaSize.

Definition VaxGExponentMask : Z := 0x7FF00000.
Definition VaxGExponentSize : Z := 11.
Definition VaxGExponentBias : Z := Z.shiftl 1 (VaxGExponentSize - 1).
Definition VaxGMantissaMask : Z := 0x000FFFFF.
Definition VaxGMantissaSize : Z := 20.
Definition VaxGHiddenBit : Z := Z.shiftl 1 VaxGMantissaSize.

Definition IeeeSExponentMask : Z := 0x7F800000.
Definition IeeeSExponentSize : Z := 8.
Definition IeeeSExponentBias : Z := Z.shiftl 1 (IeeeSExponentSize - 1) - 1.
Definition IeeeSMantissaMask : Z := 0x007FFFFF.
Definition IeeeSMantissaSize : Z := 23.
Definition IeeeSHiddenBit : Z := Z.shiftl 1 IeeeSMantissaSize.

Definition IeeeTExponentMask : Z := 0x7FF00000.
Definition IeeeTExponentSize : Z := 11.
Definition IeeeTExponentBias : Z := Z.shiftl 1 (IeeeTExponentSize - 1) - 1.
Definition IeeeTMantissaMask : Z := 0x000FFFFF.
Definition IeeeTMantissaSize : Z := 20.
Definition IeeeTHiddenBit : Z := Z.shiftl 1 IeeeTMantissaSize.

Definition byte_val (b : byte) : Z := Z.of_N (Byte.to_N b).

(** [b[lo:hi]] on a slice whose capacity is its length. *)
Definition slice (b : list byte) (lo hi : nat) : result (list byte) :=
  if (Nat.leb lo hi && Nat.leb hi (List.length b))%bool
  then Returns (firstn (hi - lo) (skipn lo b))
  else Panics.

(** [binary.BigEndian.Uint16(b)]: [uint16(b[1]) | uint16(b[0])<<8], after the
    bounds check on [b[1]]. *)
Definition BigEndian_Uint16 (b : list byte) : result Z :=
  match b with
  | b0 :: b1 :: _ => Returns (Z.lor (byte_val b1) (Z.shiftl (byte_val b0) 8))
  | _ => Panics
  end.

(** uint32FromVaxbits reads a 32-bit VAX doubleword. *)
Definition uint32FromVaxbits (b : list byte) : result Z :=
  lo <- slice b 0 2 ;;
  w0 <- BigEndian_Uint16 lo ;;
  hi <- slice b 2 4 ;;
  w1 <- BigEndian_Uint16 hi ;;
  Returns (Z.lor (to_uint32 w0) (shl32 (to_uint32 w1) 16)).

(** uint32FromVax swaps the 16-bit words in a 32-bit doubleword. *)
Definition uint32FromVax (v : Z) : Z :=
  Z.lor (to_uint32 (Z.shiftr v 16)) (shl32 (to_uint32 (Z.land v 0x0FFFF)) 16).

Notation "' p <- r ;; k" := (bind r (fun p => k))
  (at level 61, p pattern, r at next level, right associativity).

(** [byte(x)]: the low eight bits. *)
Definition to_byte (z : Z) : byte :=
  match Byte.of_N (Z.to_N (z mod 256)) with
  | Some b => b
  | None => x00
  end.

(** [binary.BigEndian.PutUint32] and [PutUint64] into a fresh buffer. *)
Definition BigEndian_PutUint32 (v : Z) : list byte :=
  [to_byte (Z.shiftr v 24); to_byte (Z.shiftr v 16); to_byte (Z.shiftr v 8);
   to_byte v].

Definition BigEndian_PutUint64 (v : Z) : list byte :=
  [to_byte (Z.shiftr v 56); to_byte (Z.shiftr v 48); to_byte (Z.shiftr v 40);
   to_byte (Z.shiftr v 32); to_byte (Z.shiftr v 24); to_byte (Z.shiftr v 16);
   to_byte (Z.shiftr v 8); to_byte v].

(** ** vaxtofloat32.go *)

(** Float32fromVaxFFloat returns the float32 representation of a VAX F_Float. *)
Definition Float32fromVaxFFloat (buf : list byte) : result (float32 * error) :=
  let MantissaMask := VaxFMantissaMask in
  let MantissaSize := VaxFMantissaSize in
  let HiddenBit := VaxFHiddenBit in
  let ExponentAdjustment := to_int32 (1 + VaxFExponentBias - IeeeSExponentBias) in
  let InPlaceExponentAdjustment :=
    to_uint32 (Z.shiftl ExponentAdjustment IeeeSMantissaSize) in
  vaxpart1 <- uint32FromVaxbits buf ;;
  let e := to_int32 (Z.land vaxpart1 VaxFExponentMask) in
  if e =? 0 then
    if Z.land vaxpart1 SignBit =? SignBit then
      Returns (Float32frombits 0,
               Some "F_Float to S_Float: VAX reserved operand fault"%string)
    else
      Returns (Float32frombits 0, None)
  else
    let e := Z.shiftr e MantissaSize in
    let e := to_int32 (e - ExponentAdjustment) in
    if 0 <? e then
      Returns (Float32frombits (to_uint32 (vaxpart1 - InPlaceExponentAdjustment)),
               None)
    else
      Returns (Float32frombits
                 (Z.lor (Z.land vaxpart1 SignBit)
                    (Z.shiftr (Z.lor HiddenBit (Z.land vaxpart1 MantissaMask))
                       (to_uint32 (to_int32 (1 - e))))),
               None).

(** ** vaxtofloat64.go *)

(** Float64fromVaxGFloat returns the float64 representation of a VAX G_Float. *)
Definition Float64fromVaxGFloat (buf : list byte) : result (float64 * error) :=
  let MantissaMask := VaxGMantissaMask in
  let MantissaSize := VaxGMantissaSize in
  let HiddenBit := VaxGHiddenBit in
  let ExponentAdjustment := to_int32 (1 + VaxGExponentBias - IeeeTExponentBias) in
  let InPlaceExponentAdjustment :=
    to_uint32 (Z.shiftl ExponentAdjustment IeeeTMantissaSize) in
  lo <- slice buf 0 4 ;;
  vaxpart2 <- uint32FromVaxbits lo ;;
  hi <- slice buf 4 8 ;;
  vaxpart1 <- uint32FromVaxbits hi ;;
  let e := to_int32 (Z.land vaxpart1 VaxGExponentMask) in
  let '(ieeepart1, ieeepart2, err) :=
    if e =? 0 then
      let err :=
        if Z.land vaxpart1 SignBit =? SignBit
        then Some "G_Float to T_Float: VAX reserved operand fault"%string
        else None in
      (0, 0, err)
    else
      let e := Z.shiftr e MantissaSize in
      let e := to_int32 (e - ExponentAdjustment) in
      if 0 <? e then
        (to_uint32 (vaxpart1 - InPlaceExponentAdjustment), vaxpart2, None)
      else
        let vaxpart1 :=
          Z.lor (Z.land vaxpart1 (Z.lor SignBit MantissaMask)) HiddenBit in
        let ieeepart1 :=
          Z.lor (Z.land vaxpart1 SignBit)
            (Z.shiftr (Z.land vaxpart1 (Z.lor HiddenBit MantissaMask))
               (to_uint32 (to_int32 (1 - e)))) in
        let ieeepart2 :=
          Z.lor (shl32 vaxpart1 (to_uint32 (to_int32 (31 + e))))
            (Z.shiftr vaxpart2 (to_uint32 (to_int32 (1 - e)))) in
        (ieeepart1, ieeepart2, None) in
  let result :=
    Z.lor (to_uint64 (Z.shiftl (to_uint64 ieeepart1) 32)) (to_uint64 ieeepart2) in
  Returns (Float64frombits result, err).

(** ** The encoders *)

(** The renormalisation loop of VaxFFloatfromFloat32:
    [for (m & HiddenBit) == 0 { m <<= 1; e -= 1 }].  After 32 left shifts a
    uint32 is zero for good, so 33 tests decide whether the loop ends. *)
Fixpoint VaxFFloat_normalize (fuel : nat) (m e : Z) : result (Z * Z) :=
  match fuel with
  | O => Diverges
  | S fuel' =>
      if Z.land m VaxFHiddenBit =? 0
      then VaxFFloat_normalize fuel' (shl32 m 1) (to_uint32 (e - 1))
      else Returns (m, e)
  end.

(** VaxFFloatfromFloat32 returns the VAX F_Float representation of a float32. *)
Definition VaxFFloatfromFloat32 (f : float32) : result (VaxFFloat * error) :=
  let MantissaMask := VaxFMantissaMask in
  let MantissaSize := VaxFMantissaSize in
  let HiddenBit := VaxFHiddenBit in
  let ExponentAdjustment := to_uint32 (1 + VaxFExponentBias - IeeeSExponentBias) in
  let ieeepart1 := Float32bits f in
  ' (result, err) <-
    (if Z.land ieeepart1 (not32 SignBit) =? 0 then
       Returns (0, None)
     else
       let e := Z.land ieeepart1 IeeeSExponentMask in
       if e =? IeeeSExponentMask then
         Returns (Z.lor (Z.land ieeepart1 SignBit) VaxFExponentMask,
                  Some "no VAX equivalent for IEEE +-Infinity and +-NaN"%string)
       else
         let e := Z.shiftr e MantissaSize in
         let m := Z.land ieeepart1 MantissaMask in
         ' (m, e) <-
           (if e =? 0 then
              ' (m, e) <- VaxFFloat_normalize 33 (shl32 m 1) e ;;
              Returns (Z.land m MantissaMask, e)
            else Returns (m, e)) ;;
         let e := to_uint32 (e + ExponentAdjustment) in
         if e <=? 0 then
           Returns (0, None)
         else if 2 * VaxFExponentBias - 1 <? e then
           Returns (Z.lor (Z.land ieeepart1 SignBit) (not32 SignBit),
                    Some "IEEE S_Float too large for VAX F_Float"%string)
         else
           Returns (Z.lor (Z.lor (Z.land ieeepart1 SignBit) (shl32 e MantissaSize)) m,
                    None)) ;;
  Returns (uint32FromVax result, err).

(** The renormalisation loop of VaxGFloatfromFloat64, on the two words of the
    mantissa.  After 64 shifts both words are zero for good. *)
Fixpoint VaxGFloat_normalize (fuel : nat) (m vaxpart2 e : Z) : result (Z * Z * Z) :=
  match fuel with
  | O => Diverges
  | S fuel' =>
      if Z.land m VaxGHiddenBit =? 0
      then VaxGFloat_normalize fuel'
             (Z.lor (shl32 m 1) (Z.shiftr vaxpart2 31))
             (shl32 vaxpart2 1)
             (to_uint32 (e - 1))
      else Returns (m, vaxpart2, e)
  end.

(** VaxGFloatfromFloat64 returns the VAX G_Float representation of a float64. *)
Definition VaxGFloatfromFloat64 (f : float64) : result (VaxGFloat * error) :=
  let MantissaMask := VaxGMantissaMask in
  let MantissaSize := VaxGMantissaSize in
  let HiddenBit := VaxGHiddenBit in
  let ExponentAdjustment := to_uint32 (1 + VaxGExponentBias - IeeeTExponentBias) in
  let in_ := Float64bits f in
  let ieeepart1 := to_uint32 (Z.shiftr in_ 32) in
  let vaxpart2 := to_uint32 (Z.land in_ 0x0FFFFFFFF) in
  ' (vaxpart1, vaxpart2, err) <-
    (if Z.lor (Z.land ieeepart1 (not32 SignBit)) vaxpart2 =? 0 then
       Returns (0, vaxpart2, None)
     else
       let e := Z.land ieeepart1 IeeeTExponentMask in
       if e =? IeeeTExponentMask then
         Returns (Z.lor (Z.land ieeepart1 SignBit) VaxGExponentMask, 0,
                  Some "no VAX equivalent for IEEE +-Infinity and +-NaN"%string)
       else
         let e := Z.shiftr e MantissaSize in
         let m := Z.land ieeepart1 MantissaMask in
         ' (m, vaxpart2, e) <-
           (if e =? 0 then
              let m := Z.lor (shl32 m 1) (Z.shiftr vaxpart2 31) in
              let vaxpart2 := shl32 vaxpart2 1 in
              ' (m, vaxpart2, e) <- VaxGFloat_normalize 65 m vaxpart2 e ;;
              Returns (Z.land m MantissaMask, vaxpart2, e)
            else Returns (m, vaxpart2, e)) ;;
         let e := to_uint32 (e + ExponentAdjustment) in
         if e <=? 0 then
           Returns (0, 0, None)
         else if 2 * VaxGExponentBias - 1 <? e then
           Returns (Z.lor (Z.land ieeepart1 SignBit) (not32 SignBit), 0xFFFFFFFF,
                    Some "IEEE T_Float too large for VAX G_Float"%string)
         else
           Returns (Z.lor (Z.lor (Z.land ieeepart1 SignBit) (shl32 e MantissaSize)) m,
                    vaxpart2, None)) ;;
  let result :=
    Z.lor (to_uint64 (Z.shiftl (to_uint64 (uint32FromVax vaxpart2)) 32))
      (to_uint64 (uint32FromVax vaxpart1)) in
  Returns (result, err).

(** ** The readers and the writers

    [io.Reader], [io.Writer], [io.ReadFull] and [binary.Write] belong to the
    Go standard library.  The readers and writers of this package are embedded
    over an arbitrary reader state [R] and writer state [W], with the library
    calls as parameters:
    - [ReadFull r n] stands for [io.ReadFull(r, buf)] with [len(buf) = n]; it
      gives the new state of the reader, the bytes it stored at the front of
      [buf], and the error;
    - [Write w p] stands for [w.Write(p)]; it gives the new state of the
      writer and the error. *)

(** The contents of [dst] after [copy(dst, src)]. *)
Definition copy_into (dst src : list byte) : list byte :=
  firstn (List.length dst) (src ++ skipn (List.length src) dst).

Section Readers.
Variable R : Type.
Variable ReadFull : R -> nat -> R * list byte * error.

(** VaxFFloatReader reads float32 values from F_Float's in the underlying
    io.Reader. *)
Record VaxFFloatReader : Type := mkVaxFFloatReader
  { VaxFFloatReader_r : R; VaxFFloatReader_buf : list byte }.

Definition NewVaxFFloatReader (r : R) : VaxFFloatReader :=
  {| VaxFFloatReader_r := r; VaxFFloatReader_buf := repeat x00 4 |}.

(** Read takes a F_Float from the underlying io.Reader and returns a float32. *)
Definition VaxFFloatReader_Read (vaxin : VaxFFloatReader)
  : result (VaxFFloatReader * (float32 * error)) :=
  let '(r, data, err) :=
    ReadFull (VaxFFloatReader_r vaxin) (List.length (VaxFFloatReader_buf vaxin)) in
  let vaxin :=
    {| VaxFFloatReader_r := r;
       VaxFFloatReader_buf := copy_into (VaxFFloatReader_buf vaxin) data |} in
  match err with
  | Some e => Returns (vaxin, (Float32frombits 0, Some e))
  | None =>
      x <- Float32fromVaxFFloat (VaxFFloatReader_buf vaxin) ;;
      Returns (vaxin, x)
  end.

(** VaxGFloatReader reads float64 values from G_Float's in the underlying
    io.Reader. *)
Record VaxGFloatReader : Type := mkVaxGFloatReader
  { VaxGFloatReader_r : R; VaxGFloatReader_buf : list byte }.

Definition NewVaxGFloatReader (r : R) : VaxGFloatReader :=
  {| VaxGFloatReader_r := r; VaxGFloatReader_buf := repeat x00 8 |}.

(** Read takes a G_Float from the underlying io.Reader and returns a float64. *)
Definition VaxGFloatReader_Read (vaxin : VaxGFloatReader)
  : result (VaxGFloatReader * (float64 * error)) :=
  let '(r, data, err) :=
    ReadFull (VaxGFloatReader_r vaxin) (List.length (VaxGFloatReader_buf vaxin)) in
  let vaxin :=
    {| VaxGFloatReader_r := r;
       VaxGFloatReader_buf := copy_into (VaxGFloatReader_buf vaxin) data |} in
  match err with
  | Some e => Returns (vaxin, (Float64frombits 0, Some e))
  | None =>
      x <- Float64fromVaxGFloat (VaxGFloatReader_buf vaxin) ;;
      Returns (vaxin, x)
  end.
End Readers.

Arguments VaxFFloatReader_r {R} _.
Arguments VaxFFloatReader_buf {R} _.
Arguments NewVaxFFloatReader {R} r.
Arguments VaxFFloatReader_Read {R} ReadFull vaxin.
Arguments VaxGFloatReader_r {R} _.
Arguments VaxGFloatReader_buf {R} _.
Arguments NewVaxGFloatReader {R} r.
Arguments VaxGFloatReader_Read {R} ReadFull vaxin.

Section Writers.
Variable W : Type.
Variable Write : W -> list byte -> W * error.

(** [binary.Write(w, binary.BigEndian, data)] for a [uint32] and for a
    [uint64]: the value is laid out big-endian in a fresh buffer, which is
    passed to [w.Write] once; the error of that call is returned. *)
Definition binary_Write_uint32 (w : W) (data : Z) : W * error :=
  Write w (BigEndian_PutUint32 data).

Definition binary_Write_uint64 (w : W) (data : Z) : W * error :=
  Write w (BigEndian_PutUint64 data).

(** WriteFFloat takes a float32 and writes an F_Float to the io.Writer. *)
Definition WriteFFloat (w : W) (f : float32) : result (W * error) :=
  ' (v, err) <- VaxFFloatfromFloat32 f ;;
  match err with
  | Some e => Returns (w, Some e)
  | None => Returns (binary_Write_uint32 w v)
  end.

(** WriteGFloat takes a float64 and writes an G_Float to the io.Writer. *)
Definition WriteGFloat (w : W) (f : float64) : result (W * error) :=
  ' (v, err) <- VaxGFloatfromFloat64 f ;;
  match err with
  | Some e => Returns (w, Some e)
  | None => Returns (binary_Write_uint64 w v)
  end.
End Writers.

Arguments WriteFFloat {W} Write w f.
Arguments WriteGFloat {W} Write w f.

(** ** bytes.Buffer

    The reader and writer of the package's tests, from the documentation of
    the Go standard library.  A [bytes.Buffer] is the sequence of its unread
    bytes.  [Write] appends and never fails.  [io.ReadFull] on it takes [n]
    bytes from the front; with fewer than [n] bytes left it takes them all and
    fails, with [io.EOF] when there was none and [io.ErrUnexpectedEOF]
    otherwise. *)

Definition bytes_Buffer : Type := list byte.

Definition io_EOF : string := "EOF".
Definition io_ErrUnexpectedEOF : string := "unexpected EOF".

Definition bytes_Buffer_Write (b : bytes_Buffer) (p : list byte)
  : bytes_Buffer * error :=
  (b ++ p, None).

Definition bytes_Buffer_ReadFull (b : bytes_Buffer) (n : nat)
  : bytes_Buffer * list byte * error :=
  if Nat.leb n (List.length b) then (skipn n b, firstn n b, None)
  else match b with
       | [] => ([], [], Some io_EOF)
       | _ :: _ => ([], b, Some io_ErrUnexpectedEOF)
       end.

(** * Vocabulary of the properties *)

(** ** Fields of a 32-bit and of a 64-bit pattern

    Both the unpacked legacy word and the IEEE pattern have the sign in the
    top bit, then the exponent field, then the mantissa field. *)

Definition sign32 (w : Z) : Z := Z.shiftr w 31.
Definition exponent32 (w : Z) : Z := Z.land (Z.shiftr w 23) 0xFF.
Definition mantissa32 (w : Z) : Z := Z.land w 0x7FFFFF.

Definition sign64 (w : Z) : Z := Z.shiftr w 63.
Definition exponent64 (w : Z) : Z := Z.land (Z.shiftr w 52) 0x7FF.
Definition mantissa64 (w : Z) : Z := Z.land w 0xFFFFFFFFFFFFF.

(** The unpacked legacy double: [vaxpart1] holds sign, exponent and the high
    20 mantissa bits, [vaxpart2] the low 32 mantissa bits. *)
Definition unpacked64 (vaxpart1 vaxpart2 : Z) : Z := vaxpart1 * 2 ^ 32 + vaxpart2.

(** The unpacked legacy double of an 8-byte buffer: the first four bytes hold
    the low-order word, the last four the high-order word. *)
Definition unpackG (buf : list byte) : result Z :=
  lo <- slice buf 0 4 ;;
  vaxpart2 <- uint32FromVaxbits lo ;;
  hi <- slice buf 4 8 ;;
  vaxpart1 <- uint32FromVaxbits hi ;;
  Returns (unpacked64 vaxpart1 vaxpart2).

(** The 64-bit value the encoder returns for the two unpacked words: each word
    is swapped, and the low-order word goes to the top half. *)
Definition packG (vaxpart1 vaxpart2 : Z) : Z :=
  Z.lor (to_uint64 (Z.shiftl (to_uint64 (uint32FromVax vaxpart2)) 32))
    (to_uint64 (uint32FromVax vaxpart1)).

(** The amount [1 + legacyBias - ieeeBias] by which the exponent fields of the
    two formats differ. *)
Definition VaxF_exponent_adjustment : Z := 1 + VaxFExponentBias - IeeeSExponentBias.
Definition VaxG_exponent_adjustment : Z := 1 + VaxGExponentBias - IeeeTExponentBias.

(** ** The exponent a value would get in the legacy format

    The biased exponent of an IEEE value written in normalized form with an
    unbounded exponent range: the exponent field itself for a normal number,
    and, for a subnormal with mantissa field [m], the field of the top bit of
    [m] counted down from the hidden-bit position.  The legacy exponent adds
    [1 + legacyBias - ieeeBias]. *)

Definition normalized_exponent32 (w : Z) : Z :=
  if exponent32 w =? 0 then Z.log2 (mantissa32 w) - 22 else exponent32 w.

Definition legacy_exponent32 (w : Z) : Z :=
  normalized_exponent32 w + (1 + VaxFExponentBias - IeeeSExponentBias).

Definition normalized_exponent64 (w : Z) : Z :=
  if exponent64 w =? 0 then Z.log2 (mantissa64 w) - 51 else exponent64 w.

Definition legacy_exponent64 (w : Z) : Z :=
  normalized_exponent64 w + (1 + VaxGExponentBias - IeeeTExponentBias).

(** Magnitudes as integers: the absolute value times 2^151 (single width) or
    2^1076 (double width).  A legacy value with exponent field [e >= 1] is
    [2^(e - bias) * 0.1m]; an IEEE value is [2^(e - bias) * 1.m] when normal
    and [2^(1 - bias) * 0.m] when subnormal. *)

Definition VaxF_scaled_magnitude (p : Z) : Z :=
  (2 ^ 23 + mantissa32 p) * 2 ^ (exponent32 p - 1).

Definition ieee32_scaled_magnitude (w : Z) : Z :=
  if exponent32 w =? 0 then mantissa32 w * 2 ^ 2
  else (2 ^ 23 + mantissa32 w) * 2 ^ (exponent32 w + 1).

Definition VaxG_scaled_magnitude (p : Z) : Z :=
  (2 ^ 52 + mantissa64 p) * 2 ^ (exponent64 p - 1).

Definition ieee64_scaled_magnitude (w : Z) : Z :=
  if exponent64 w =? 0 then mantissa64 w * 2 ^ 2
  else (2 ^ 52 + mantissa64 w) * 2 ^ (exponent64 w + 1).

(** A finite IEEE value lies in the legacy normalized range when its magnitude
    is between those of the smallest legacy pattern (exponent field 1,
    mantissa field 0) and of the largest one (all-ones exponent and mantissa
    fields). *)
Definition in_VaxF_normalized_range (w : Z) : Prop :=
  exponent32 w <> 0xFF /\
  VaxF_scaled_magnitude 0x00800000 <= ieee32_scaled_magnitude w
  <= VaxF_scaled_magnitude 0x7FFFFFFF.

Definition in_VaxG_normalized_range (w : Z) : Prop :=
  exponent64 w <> 0x7FF /\
  VaxG_scaled_magnitude 0x0010000000000000 <= ieee64_scaled_magnitude w
  <= VaxG_scaled_magnitude 0x7FFFFFFFFFFFFFFF.

(** The float32 nearest to the positive decimal [num / den], for a positive
    normal pattern [w] with exponent field at most 150 and a non-zero mantissa
    field: the decimal lies strictly within half a unit in the last place of
    the value of [w], which is [(2^23 + m) * 2^(e - 150)]. *)
Definition float32_nearest_to (num den w : Z) : Prop :=
  let e := exponent32 w in
  let M := 2 ^ 23 + mantissa32 w in
  sign32 w = 0 /\ 0 < e <= 150 /\ 0 < mantissa32 w /\ 0 < den /\
  (2 * M - 1) * den < num * 2 ^ (151 - e) < (2 * M + 1) * den.

(** Calling [Read] [n] times in a row, with what each call returned. *)
Fixpoint read_times {S A : Type} (Read : S -> result (S * A)) (n : nat) (s : S)
  : result (S * list A) :=
  match n with
  | O => Returns (s, [])
  | Datatypes.S n' =>
      ' (s, x) <- Read s ;;
      ' (s, xs) <- read_times Read n' s ;;
      Returns (s, x :: xs)
  end.

(** Writing the values of a list in order, up to the first error. *)
Fixpoint write_each {W A : Type} (WriteOne : W -> A -> result (W * error))
  (w : W) (xs : list A) : result (W * error) :=
  match xs with
  | [] => Returns (w, None)
  | x :: xs' =>
      ' (w, err) <- WriteOne w x ;;
      match err with
      | Some e => Returns (w, Some e)
      | None => write_each WriteOne w xs'
      end
  end.

(** The error a reader ends with when [tail], too short for a unit, is all
    that is left of the stream. *)
Definition end_of_stream (tail : list byte) : string :=
  match tail with
  | [] => io_EOF
  | _ :: _ => io_ErrUnexpectedEOF
  end.

(** * Properties *)

(** ** Bit operations as arithmetic

    Masks are runs of ones, possibly shifted; a mask therefore selects a
    quotient modulo a power of two, and the union of two fields that do not
    overlap is their sum. *)

Lemma land_ones_mod (a n : Z) : 0 <= n -> Z.land a (Z.ones n) = a mod 2 ^ n.
Proof. intros Hn. apply Z.land_ones; assumption. Qed.

Lemma land_field (a k n : Z) :
  0 <= k -> 0 <= n ->
  Z.land a (Z.shiftl (Z.ones k) n) = (a / 2 ^ n) mod 2 ^ k * 2 ^ n.
Proof.
  intros Hk Hn.
  rewrite <- Z.land_ones, <- Z.shiftr_div_pow2, <- Z.shiftl_mul_pow2 by assumption.
  apply Z.bits_inj'; intros i Hi.
  rewrite Z.land_spec.
  destruct (Z.lt_ge_cases i n) as [Hlt | Hge].
  - rewrite !Z.shiftl_spec_low by assumption.
    apply andb_false_r.
  - rewrite !Z.shiftl_spec by assumption.
    rewrite Z.land_spec, Z.shiftr_spec by lia.
    replace (i - n + n) with i by lia. reflexivity.
Qed.

Lemma lor_add (n a b : Z) :
  0 <= n -> a mod 2 ^ n = 0 -> 0 <= b < 2 ^ n -> Z.lor a b = a + b.
Proof.
  intros Hn Ha Hb.
  assert (Hdisj : Z.land a b = 0).
  { apply Z.bits_inj'; intros i Hi.
    rewrite Z.land_spec, Z.bits_0.
    destruct (Z.lt_ge_cases i n) as [Hlt | Hge].
    - rewrite <- (Z.mod_pow2_bits_low a n i) by lia.
      rewrite Ha, Z.bits_0. reflexivity.
    - rewrite <- (Z.mod_small b (2 ^ n)) by lia.
      rewrite Z.mod_pow2_bits_high by lia.
      apply andb_false_r. }
  rewrite <- Z.lxor_lor by assumption.
  symmetry. apply Z.add_nocarry_lxor. assumption.
Qed.

Lemma lor_add_comm (n a b : Z) :
  0 <= n -> 0 <= a < 2 ^ n -> b mod 2 ^ n = 0 -> Z.lor a b = a + b.
Proof.
  intros Hn Ha Hb. rewrite Z.lor_comm, Z.add_comm. apply (lor_add n); assumption.
Qed.

(** The masks of conversions.go, as fields. *)

Lemma land_SignBit (a : Z) : Z.land a SignBit = (a / 2 ^ 31) mod 2 * 2 ^ 31.
Proof. apply (land_field a 1 31); lia. Qed.

Lemma land_not_SignBit (a : Z) : Z.land a (not32 SignBit) = a mod 2 ^ 31.
Proof. apply (land_ones_mod a 31); lia. Qed.

Lemma land_FExponentMask (a : Z) :
  Z.land a VaxFExponentMask = (a / 2 ^ 23) mod 2 ^ 8 * 2 ^ 23.
Proof. apply (land_field a 8 23); lia. Qed.

Lemma land_FMantissaMask (a : Z) : Z.land a VaxFMantissaMask = a mod 2 ^ 23.
Proof. apply (land_ones_mod a 23); lia. Qed.

Lemma land_FHiddenBit (a : Z) :
  Z.land a VaxFHiddenBit = (a / 2 ^ 23) mod 2 * 2 ^ 23.
Proof. apply (land_field a 1 23); lia. Qed.

Lemma land_GExponentMask (a : Z) :
  Z.land a VaxGExponentMask = (a / 2 ^ 20) mod 2 ^ 11 * 2 ^ 20.
Proof. apply (land_field a 11 20); lia. Qed.

Lemma land_GMantissaMask (a : Z) : Z.land a VaxGMantissaMask = a mod 2 ^ 20.
Proof. apply (land_ones_mod a 20); lia. Qed.

Lemma land_GHiddenBit (a : Z) :
  Z.land a VaxGHiddenBit = (a / 2 ^ 20) mod 2 * 2 ^ 20.
Proof. apply (land_field a 1 20); lia. Qed.

Lemma land_low16 (a : Z) : Z.land a 0x0FFFF = a mod 2 ^ 16.
Proof. apply (land_ones_mod a 16); lia. Qed.

Lemma land_low32 (a : Z) : Z.land a 0x0FFFFFFFF = a mod 2 ^ 32.
Proof. apply (land_ones_mod a 32); lia. Qed.

(** Turn the powers of two of a goal into numerals and decide it. *)
Ltac pow2_numerals :=
  change (2 ^ 64) with 18446744073709551616 in *;
  change (2 ^ 63) with 9223372036854775808 in *;
  change (2 ^ 53) with 9007199254740992 in *;
  change (2 ^ 52) with 4503599627370496 in *;
  change (2 ^ 32) with 4294967296 in *;
  change (2 ^ 31) with 2147483648 in *;
  change (2 ^ 24) with 16777216 in *;
  change (2 ^ 23) with 8388608 in *;
  change (2 ^ 21) with 2097152 in *;
  change (2 ^ 20) with 1048576 in *;
  change (2 ^ 16) with 65536 in *;
  change (2 ^ 11) with 2048 in *;
  change (2 ^ 8) with 256 in *;
  change (2 ^ 3) with 8 in *;
  change (2 ^ 2) with 4 in *;
  change (2 ^ 1) with 2 in *.

Ltac arith := pow2_numerals; Z.to_euclidean_division_equations; lia.

(** ** The word swap *)

Lemma uint32FromVax_arith (v : Z) :
  is_uint32 v -> uint32FromVax v = v mod 2 ^ 16 * 2 ^ 16 + v / 2 ^ 16.
Proof.
  unfold is_uint32, uint32FromVax, shl32, to_uint32. intros Hv.
  rewrite land_low16, Z.shiftr_div_pow2, Z.shiftl_mul_pow2 by lia.
  rewrite (lor_add_comm 16) by arith.
  arith.
Qed.

Lemma uint32FromVax_range (v : Z) : is_uint32 v -> is_uint32 (uint32FromVax v).
Proof.
  intros Hv. rewrite uint32FromVax_arith by assumption.
  unfold is_uint32 in *. arith.
Qed.

Lemma uint32FromVax_involutive (v : Z) :
  is_uint32 v -> uint32FromVax (uint32FromVax v) = v.
Proof.
  intros Hv. pose proof (uint32FromVax_range v Hv) as Hr.
  rewrite (uint32FromVax_arith (uint32FromVax v)) by assumption.
  rewrite uint32FromVax_arith by assumption.
  unfold is_uint32 in *. arith.
Qed.

(** C9: uint32FromVax is total on 32-bit values, exchanges the two 16-bit
    halves (the high half of the result is the low half of the argument and
    the low half of the result is its high half), and is an involution. *)
Theorem uint32FromVax_swaps_halves (v : Z) :
  is_uint32 v ->
  is_uint32 (uint32FromVax v) /\
  Z.shiftr (uint32FromVax v) 16 = Z.land v 0xFFFF /\
  Z.land (uint32FromVax v) 0xFFFF = Z.shiftr v 16 /\
  uint32FromVax (uint32FromVax v) = v.
Proof.
  intros Hv. split; [apply uint32FromVax_range; assumption|].
  split; [|split; [|apply uint32FromVax_involutive; assumption]].
  - rewrite uint32FromVax_arith by assumption.
    rewrite (land_low16 v), Z.shiftr_div_pow2 by lia.
    unfold is_uint32 in Hv. arith.
  - rewrite uint32FromVax_arith by assumption.
    rewrite (land_low16 _), Z.shiftr_div_pow2 by lia.
    unfold is_uint32 in Hv. arith.
Qed.

Lemma uint32FromVax_swaps_halves_witness :
  is_uint32 0x12345678 /\ uint32FromVax 0x12345678 = 0x56781234 /\
  uint32FromVax (uint32FromVax 0x12345678) = 0x12345678.
Proof.
  assert (H : is_uint32 0x12345678) by (unfold is_uint32; lia).
  split; [exact H|].
  split; [reflexivity|].
  exact (proj2 (proj2 (proj2 (uint32FromVax_swaps_halves 0x12345678 H)))).
Defined.

(** ** Bytes and unpacking *)

Lemma byte_val_range (b : byte) : 0 <= byte_val b < 256.
Proof.
  unfold byte_val. pose proof (Byte.to_N_bounded b). lia.
Qed.

Lemma byte_val_to_byte (z : Z) : byte_val (to_byte z) = z mod 256.
Proof.
  unfold byte_val, to_byte.
  assert (Hr : 0 <= z mod 256 < 256) by (apply Z.mod_pos_bound; lia).
  destruct (Byte.of_N (Z.to_N (z mod 256))) as [b|] eqn:Hb.
  - apply Byte.to_of_N in Hb. rewrite Hb. lia.
  - apply Byte.of_N_None_iff in Hb. lia.
Qed.

Lemma uint32FromVaxbits_bytes (b0 b1 b2 b3 : byte) :
  uint32FromVaxbits [b0; b1; b2; b3] =
  Returns (byte_val b1 + byte_val b0 * 2 ^ 8
           + (byte_val b3 + byte_val b2 * 2 ^ 8) * 2 ^ 16).
Proof.
  unfold uint32FromVaxbits, shl32, to_uint32. cbn [slice bind BigEndian_Uint16
    Nat.leb andb List.length firstn skipn Nat.sub].
  pose proof (byte_val_range b0). pose proof (byte_val_range b1).
  pose proof (byte_val_range b2). pose proof (byte_val_range b3).
  rewrite !Z.shiftl_mul_pow2 by lia.
  rewrite (lor_add_comm 8 (byte_val b1)) by arith.
  rewrite (lor_add_comm 8 (byte_val b3)) by arith.
  rewrite (lor_add_comm 16) by arith.
  f_equal. arith.
Qed.

Lemma uint32FromVaxbits_total (b0 b1 b2 b3 : byte) :
  exists v, uint32FromVaxbits [b0; b1; b2; b3] = Returns v /\ is_uint32 v.
Proof.
  eexists. split; [apply uint32FromVaxbits_bytes|].
  pose proof (byte_val_range b0). pose proof (byte_val_range b1).
  pose proof (byte_val_range b2). pose proof (byte_val_range b3).
  unfold is_uint32. arith.
Qed.

(** Writing a swapped word big-endian and unpacking it gives the word back:
    the byte form the encoders produce is the one the decoders read. *)
Lemma uint32FromVaxbits_PutUint32 (r : Z) :
  is_uint32 r ->
  uint32FromVaxbits (BigEndian_PutUint32 (uint32FromVax r)) = Returns r.
Proof.
  intros Hr. unfold BigEndian_PutUint32.
  rewrite uint32FromVaxbits_bytes, !byte_val_to_byte.
  rewrite uint32FromVax_arith by assumption.
  rewrite !Z.shiftr_div_pow2 by lia.
  f_equal. unfold is_uint32 in Hr.
  change (2 ^ 24) with 16777216. change (2 ^ 8) with 256.
  change (2 ^ 16) with 65536.
  Z.to_euclidean_division_equations; lia.
Qed.

(** ** Fields as quotients and remainders *)

Lemma sign32_arith (w : Z) : sign32 w = w / 2 ^ 31.
Proof. unfold sign32. apply Z.shiftr_div_pow2. lia. Qed.

Lemma exponent32_arith (w : Z) : exponent32 w = (w / 2 ^ 23) mod 2 ^ 8.
Proof.
  unfold exponent32. rewrite Z.shiftr_div_pow2 by lia.
  apply (land_ones_mod _ 8). lia.
Qed.

Lemma mantissa32_arith (w : Z) : mantissa32 w = w mod 2 ^ 23.
Proof. apply (land_ones_mod w 23). lia. Qed.

Lemma sign64_arith (w : Z) : sign64 w = w / 2 ^ 63.
Proof. unfold sign64. apply Z.shiftr_div_pow2. lia. Qed.

Lemma exponent64_arith (w : Z) : exponent64 w = (w / 2 ^ 52) mod 2 ^ 11.
Proof.
  unfold exponent64. rewrite Z.shiftr_div_pow2 by lia.
  apply (land_ones_mod _ 11). lia.
Qed.

Lemma mantissa64_arith (w : Z) : mantissa64 w = w mod 2 ^ 52.
Proof. apply (land_ones_mod w 52). lia. Qed.

Lemma to_int32_small (z : Z) : - 2 ^ 31 <= z < 2 ^ 31 -> to_int32 z = z.
Proof. unfold to_int32. intros H. arith. Qed.

Lemma to_uint32_small (z : Z) : 0 <= z < 2 ^ 32 -> to_uint32 z = z.
Proof. unfold to_uint32. intros H. apply Z.mod_small. assumption. Qed.

Lemma to_uint64_small (z : Z) : 0 <= z < 2 ^ 64 -> to_uint64 z = z.
Proof. unfold to_uint64. intros H. apply Z.mod_small. assumption. Qed.

(** ** The single-width decoder, branch by branch *)

Section DecodeSingle.
Variable buf : list byte.
Variable v : Z.
Hypothesis Hunpack : uint32FromVaxbits buf = Returns v.
Hypothesis Hv : is_uint32 v.

Lemma Float32fromVaxFFloat_reserved :
  exponent32 v = 0 -> sign32 v = 1 ->
  Float32fromVaxFFloat buf =
  Returns (Float32frombits 0,
           Some "F_Float to S_Float: VAX reserved operand fault"%string).
Proof.
  rewrite exponent32_arith, sign32_arith. intros He Hs.
  unfold Float32fromVaxFFloat. rewrite Hunpack. cbn [bind].
  rewrite land_FExponentMask, land_SignBit, He.
  change (to_int32 (0 * 2 ^ 23) =? 0) with true. cbv iota.
  unfold is_uint32 in Hv.
  replace ((v / 2 ^ 31) mod 2 * 2 ^ 31 =? SignBit) with true; [reflexivity|].
  symmetry. apply Z.eqb_eq. unfold SignBit. arith.
Qed.

Lemma Float32fromVaxFFloat_zero :
  exponent32 v = 0 -> sign32 v = 0 ->
  Float32fromVaxFFloat buf = Returns (Float32frombits 0, None).
Proof.
  rewrite exponent32_arith, sign32_arith. intros He Hs.
  unfold Float32fromVaxFFloat. rewrite Hunpack. cbn [bind].
  rewrite land_FExponentMask, land_SignBit, He.
  change (to_int32 (0 * 2 ^ 23) =? 0) with true. cbv iota.
  unfold is_uint32 in Hv.
  replace ((v / 2 ^ 31) mod 2 * 2 ^ 31 =? SignBit) with false; [reflexivity|].
  symmetry. apply Z.eqb_neq. unfold SignBit. arith.
Qed.

(** With a non-zero exponent field the code works on
    [e = exponent32 v - 2]. *)
Lemma Float32fromVaxFFloat_nonzero :
  exponent32 v <> 0 ->
  Float32fromVaxFFloat buf =
  if 0 <? exponent32 v - 2
  then Returns (Float32frombits (v - 2 ^ 24), None)
  else Returns (Float32frombits
                  (sign32 v * 2 ^ 31
                   + (2 ^ 23 + mantissa32 v) / 2 ^ (1 - (exponent32 v - 2))),
                None).
Proof.
  rewrite exponent32_arith, sign32_arith, mantissa32_arith. intros He.
  unfold Float32fromVaxFFloat. rewrite Hunpack. cbn [bind].
  rewrite land_FExponentMask, land_SignBit, land_FMantissaMask.
  change (to_int32 (1 + VaxFExponentBias - IeeeSExponentBias)) with 2.
  change (to_uint32 (Z.shiftl 2 IeeeSMantissaSize)) with (2 ^ 24).
  change VaxFMantissaSize with 23. change VaxFHiddenBit with (2 ^ 23).
  unfold is_uint32 in Hv.
  set (E := (v / 2 ^ 23) mod 2 ^ 8) in *.
  assert (HE : 0 < E < 2 ^ 8).
  { pose proof (Z.mod_pos_bound (v / 2 ^ 23) (2 ^ 8)). lia. }
  rewrite (to_int32_small (E * 2 ^ 23)) by arith.
  replace (E * 2 ^ 23 =? 0) with false by (symmetry; apply Z.eqb_neq; arith).
  rewrite Z.shiftr_div_pow2, Z.div_mul by lia.
  rewrite (to_int32_small (E - 2)) by arith.
  destruct (Z.ltb_spec 0 (E - 2)) as [Hpos | Hnp].
  - rewrite to_uint32_small; [reflexivity|].
    subst E. arith.
  - rewrite (to_int32_small (1 - (E - 2))) by arith.
    rewrite (to_uint32_small (1 - (E - 2))) by arith.
    rewrite (lor_add 23 (2 ^ 23)) by arith.
    rewrite Z.shiftr_div_pow2 by lia.
    replace ((v / 2 ^ 31) mod 2) with (v / 2 ^ 31) by arith.
    assert (Hsh : 1 - (E - 2) = 1 \/ 1 - (E - 2) = 2) by lia.
    rewrite (lor_add 31); [reflexivity | lia | arith |].
    destruct Hsh as [-> | ->]; arith.
Qed.
End DecodeSingle.

(** ** The double-width decoder, branch by branch *)

Lemma join64 (hi lo : Z) :
  is_uint32 hi -> is_uint32 lo ->
  Z.lor (to_uint64 (Z.shiftl (to_uint64 hi) 32)) (to_uint64 lo) = hi * 2 ^ 32 + lo.
Proof.
  unfold is_uint32. intros Hhi Hlo.
  rewrite (to_uint64_small hi), (to_uint64_small lo) by arith.
  rewrite Z.shiftl_mul_pow2 by lia.
  rewrite to_uint64_small by arith.
  apply (lor_add 32); arith.
Qed.

Section DecodeDouble.
Variables (buf lo hi : list byte) (v1 v2 : Z).
Hypothesis Hlo : slice buf 0 4 = Returns lo.
Hypothesis Hv2 : uint32FromVaxbits lo = Returns v2.
Hypothesis Hhi : slice buf 4 8 = Returns hi.
Hypothesis Hv1 : uint32FromVaxbits hi = Returns v1.
Hypothesis Hr1 : is_uint32 v1.
Hypothesis Hr2 : is_uint32 v2.

Let V := unpacked64 v1 v2.

Lemma unpacked64_exponent : exponent64 V = (v1 / 2 ^ 20) mod 2 ^ 11.
Proof.
  rewrite exponent64_arith. unfold V, unpacked64, is_uint32 in *. arith.
Qed.

Lemma unpacked64_sign : sign64 V = v1 / 2 ^ 31.
Proof.
  rewrite sign64_arith. unfold V, unpacked64, is_uint32 in *. arith.
Qed.

Lemma unpacked64_mantissa : mantissa64 V = v1 mod 2 ^ 20 * 2 ^ 32 + v2.
Proof.
  rewrite mantissa64_arith. unfold V, unpacked64, is_uint32 in *. arith.
Qed.

Lemma Float64fromVaxGFloat_reserved :
  exponent64 V = 0 -> sign64 V = 1 ->
  Float64fromVaxGFloat buf =
  Returns (Float64frombits 0,
           Some "G_Float to T_Float: VAX reserved operand fault"%string).
Proof.
  rewrite unpacked64_exponent, unpacked64_sign. intros He Hs.
  unfold Float64fromVaxGFloat.
  rewrite Hlo; cbn [bind]; rewrite Hv2; cbn [bind].
  rewrite Hhi; cbn [bind]; rewrite Hv1; cbn [bind].
  rewrite land_GExponentMask, land_SignBit, He.
  change (to_int32 (0 * 2 ^ 20) =? 0) with true. cbv iota.
  unfold is_uint32 in Hr1.
  replace ((v1 / 2 ^ 31) mod 2 * 2 ^ 31 =? SignBit) with true; [reflexivity|].
  symmetry. apply Z.eqb_eq. unfold SignBit. arith.
Qed.

Lemma Float64fromVaxGFloat_zero :
  exponent64 V = 0 -> sign64 V = 0 ->
  Float64fromVaxGFloat buf = Returns (Float64frombits 0, None).
Proof.
  rewrite unpacked64_exponent, unpacked64_sign. intros He Hs.
  unfold Float64fromVaxGFloat.
  rewrite Hlo; cbn [bind]; rewrite Hv2; cbn [bind].
  rewrite Hhi; cbn [bind]; rewrite Hv1; cbn [bind].
  rewrite land_GExponentMask, land_SignBit, He.
  change (to_int32 (0 * 2 ^ 20) =? 0) with true. cbv iota.
  unfold is_uint32 in Hr1.
  replace ((v1 / 2 ^ 31) mod 2 * 2 ^ 31 =? SignBit) with false; [reflexivity|].
  symmetry. apply Z.eqb_neq. unfold SignBit. arith.
Qed.

Lemma Float64fromVaxGFloat_nonzero :
  exponent64 V <> 0 ->
  Float64fromVaxGFloat buf =
  if 0 <? exponent64 V - 2
  then Returns (Float64frombits (V - 2 ^ 53), None)
  else Returns (Float64frombits
                  (sign64 V * 2 ^ 63
                   + (2 ^ 52 + mantissa64 V) / 2 ^ (1 - (exponent64 V - 2))),
                None).
Proof.
  rewrite unpacked64_exponent, unpacked64_sign, unpacked64_mantissa. intros He.
  unfold Float64fromVaxGFloat.
  rewrite Hlo; cbn [bind]; rewrite Hv2; cbn [bind].
  rewrite Hhi; cbn [bind]; rewrite Hv1; cbn [bind].
  rewrite land_GExponentMask.
  change (to_int32 (1 + VaxGExponentBias - IeeeTExponentBias)) with 2.
  change (to_uint32 (Z.shiftl 2 IeeeTMantissaSize)) with (2 ^ 21).
  change VaxGMantissaSize with 20.
  unfold is_uint32 in Hr1, Hr2.
  set (E := (v1 / 2 ^ 20) mod 2 ^ 11) in *.
  assert (HE : 0 < E < 2 ^ 11).
  { pose proof (Z.mod_pos_bound (v1 / 2 ^ 20) (2 ^ 11)). lia. }
  rewrite (to_int32_small (E * 2 ^ 20)) by arith.
  replace (E * 2 ^ 20 =? 0) with false by (symmetry; apply Z.eqb_neq; arith).
  rewrite Z.shiftr_div_pow2, Z.div_mul by lia.
  rewrite (to_int32_small (E - 2)) by arith.
  destruct (Z.ltb_spec 0 (E - 2)) as [Hpos | Hnp].
  - assert (Hsub : 0 <= v1 - 2 ^ 21 < 2 ^ 32) by (subst E; arith).
    rewrite (to_uint32_small (v1 - 2 ^ 21)) by assumption.
    rewrite join64 by (unfold is_uint32; lia).
    unfold V, unpacked64. do 3 f_equal. arith.
  - assert (HW0 : Z.lor (Z.land v1 (Z.lor SignBit VaxGMantissaMask)) VaxGHiddenBit
                  = (v1 / 2 ^ 31) mod 2 * 2 ^ 31 + (v1 mod 2 ^ 20 + 2 ^ 20)).
    { rewrite Z.land_lor_distr_r, <- Z.lor_assoc.
      rewrite land_SignBit, land_GMantissaMask.
      change VaxGHiddenBit with (2 ^ 20).
      rewrite (lor_add_comm 20 _ (2 ^ 20)) by arith.
      apply (lor_add 21); arith. }
    rewrite HW0. clear HW0.
    change (Z.lor VaxGHiddenBit VaxGMantissaMask) with (Z.ones 21).
    rewrite land_SignBit, land_ones_mod by lia.
    remember ((v1 / 2 ^ 31) mod 2 * 2 ^ 31 + (v1 mod 2 ^ 20 + 2 ^ 20)) as W eqn:HW.
    unfold shl32, to_uint32.
    assert (Hsh : E = 2 \/ E = 1) by lia.
    destruct Hsh as [HE2 | HE1].
    + rewrite HE2.
      change (to_int32 (1 - (2 - 2)) mod 2 ^ 32) with 1.
      change (to_int32 (31 + (2 - 2)) mod 2 ^ 32) with 31.
      change (1 - (2 - 2)) with 1.
      rewrite !Z.shiftr_div_pow2, (Z.shiftl_mul_pow2 W) by lia.
      rewrite (lor_add 31 _ (v2 / 2 ^ 1)) by arith.
      rewrite (lor_add 31 ((W / 2 ^ 31) mod 2 * 2 ^ 31)) by arith.
      rewrite join64 by (unfold is_uint32; arith).
      do 3 f_equal. arith.
    + rewrite HE1.
      change (to_int32 (1 - (1 - 2)) mod 2 ^ 32) with 2.
      change (to_int32 (31 + (1 - 2)) mod 2 ^ 32) with 30.
      change (1 - (1 - 2)) with 2.
      rewrite !Z.shiftr_div_pow2, (Z.shiftl_mul_pow2 W) by lia.
      rewrite (lor_add 30 _ (v2 / 2 ^ 2)) by arith.
      rewrite (lor_add 31 ((W / 2 ^ 31) mod 2 * 2 ^ 31)) by arith.
      rewrite join64 by (unfold is_uint32; arith).
      do 3 f_equal. arith.
Qed.
End DecodeDouble.

(** ** Unpacking never leaves the 32-bit range *)

Lemma uint32FromVaxbits_cons (b0 b1 b2 b3 : byte) (rest : list byte) :
  uint32FromVaxbits (b0 :: b1 :: b2 :: b3 :: rest) =
  uint32FromVaxbits [b0; b1; b2; b3].
Proof. reflexivity. Qed.

Lemma uint32FromVaxbits_range (buf : list byte) (v : Z) :
  uint32FromVaxbits buf = Returns v -> is_uint32 v.
Proof.
  destruct buf as [|b0 [|b1 [|b2 [|b3 rest]]]]; try discriminate.
  rewrite uint32FromVaxbits_cons.
  destruct (uint32FromVaxbits_total b0 b1 b2 b3) as (w & Hw & Hr).
  rewrite Hw. intros H. injection H as <-. exact Hr.
Qed.

Lemma unpackG_inv (buf : list byte) (V : Z) :
  unpackG buf = Returns V ->
  exists lo hi v1 v2,
    slice buf 0 4 = Returns lo /\ uint32FromVaxbits lo = Returns v2 /\
    slice buf 4 8 = Returns hi /\ uint32FromVaxbits hi = Returns v1 /\
    is_uint32 v1 /\ is_uint32 v2 /\ V = unpacked64 v1 v2.
Proof.
  unfold unpackG.
  destruct (slice buf 0 4) as [lo| |] eqn:Hlo; try discriminate. cbn [bind].
  destruct (uint32FromVaxbits lo) as [v2| |] eqn:Hv2; try discriminate. cbn [bind].
  destruct (slice buf 4 8) as [hi| |] eqn:Hhi; try discriminate. cbn [bind].
  destruct (uint32FromVaxbits hi) as [v1| |] eqn:Hv1; try discriminate. cbn [bind].
  intros H. injection H as <-.
  exists lo, hi, v1, v2.
  repeat split; try reflexivity;
    eauto using uint32FromVaxbits_range;
    eapply uint32FromVaxbits_range; eassumption.
Qed.

Lemma unpackG_total (b0 b1 b2 b3 b4 b5 b6 b7 : byte) :
  exists V, unpackG [b0; b1; b2; b3; b4; b5; b6; b7] = Returns V.
Proof.
  unfold unpackG.
  cbn [slice Nat.leb andb List.length firstn skipn Nat.sub bind].
  destruct (uint32FromVaxbits_total b0 b1 b2 b3) as (v2 & H2 & _).
  destruct (uint32FromVaxbits_total b4 b5 b6 b7) as (v1 & H1 & _).
  rewrite H2. cbn [bind]. rewrite H1. cbn [bind]. eexists. reflexivity.
Qed.

Lemma exponent32_range (w : Z) : 0 <= exponent32 w < 2 ^ 8.
Proof. rewrite exponent32_arith. apply Z.mod_pos_bound. lia. Qed.

Lemma exponent64_range (w : Z) : 0 <= exponent64 w < 2 ^ 11.
Proof. rewrite exponent64_arith. apply Z.mod_pos_bound. lia. Qed.

Lemma sign32_bit (w : Z) : is_uint32 w -> sign32 w = 0 \/ sign32 w = 1.
Proof. rewrite sign32_arith. unfold is_uint32. intros H. arith. Qed.

Lemma unpacked64_range (v1 v2 : Z) :
  is_uint32 v1 -> is_uint32 v2 -> is_uint64 (unpacked64 v1 v2).
Proof. unfold is_uint32, is_uint64, unpacked64. intros H1 H2. arith. Qed.

Lemma sign64_bit (w : Z) : is_uint64 w -> sign64 w = 0 \/ sign64 w = 1.
Proof. rewrite sign64_arith. unfold is_uint64. intros H. arith. Qed.

(** ** C3: the reserved operand is the only decoding error *)

Lemma Float32fromVaxFFloat_error_iff (buf : list byte) (v : Z) :
  uint32FromVaxbits buf = Returns v ->
  exists f err,
    Float32fromVaxFFloat buf = Returns (f, err) /\
    (err <> None <-> exponent32 v = 0 /\ sign32 v = 1) /\
    (err <> None -> f = Float32frombits 0).
Proof.
  intros Hu. pose proof (uint32FromVaxbits_range _ _ Hu) as Hv.
  destruct (Z.eq_dec (exponent32 v) 0) as [He | He].
  - destruct (sign32_bit v Hv) as [Hs | Hs].
    + rewrite (Float32fromVaxFFloat_zero buf v Hu Hv He Hs).
      do 2 eexists. split; [reflexivity|]. split; [|congruence].
      split; [congruence | lia].
    + rewrite (Float32fromVaxFFloat_reserved buf v Hu Hv He Hs).
      do 2 eexists. split; [reflexivity|]. split; [|reflexivity].
      split; [auto | discriminate].
  - rewrite (Float32fromVaxFFloat_nonzero buf v Hu Hv He).
    destruct (0 <? exponent32 v - 2); do 2 eexists;
      (split; [reflexivity|]); (split; [|congruence]);
      (split; [congruence | tauto]).
Qed.

Lemma Float64fromVaxGFloat_error_iff (buf : list byte) (V : Z) :
  unpackG buf = Returns V ->
  exists f err,
    Float64fromVaxGFloat buf = Returns (f, err) /\
    (err <> None <-> exponent64 V = 0 /\ sign64 V = 1) /\
    (err <> None -> f = Float64frombits 0).
Proof.
  intros Hu.
  destruct (unpackG_inv _ _ Hu) as (lo & hi & v1 & v2 & Hlo & Hv2 & Hhi & Hv1 & Hr1 & Hr2 & ->).
  destruct (Z.eq_dec (exponent64 (unpacked64 v1 v2)) 0) as [He | He].
  - destruct (sign64_bit _ (unpacked64_range v1 v2 Hr1 Hr2)) as [Hs | Hs].
    + rewrite (Float64fromVaxGFloat_zero buf lo hi v1 v2 Hlo Hv2 Hhi Hv1 Hr1 Hr2 He Hs).
      do 2 eexists. split; [reflexivity|]. split; [|congruence].
      split; [congruence | lia].
    + rewrite (Float64fromVaxGFloat_reserved buf lo hi v1 v2 Hlo Hv2 Hhi Hv1 Hr1 Hr2 He Hs).
      do 2 eexists. split; [reflexivity|]. split; [|reflexivity].
      split; [auto | discriminate].
  - rewrite (Float64fromVaxGFloat_nonzero buf lo hi v1 v2 Hlo Hv2 Hhi Hv1 Hr1 Hr2 He).
    destruct (0 <? exponent64 (unpacked64 v1 v2) - 2); do 2 eexists;
      (split; [reflexivity|]); (split; [|congruence]);
      (split; [congruence | tauto]).
Qed.

(** C3: Float32fromVaxFFloat and Float64fromVaxGFloat return a non-nil error
    exactly when the unpacked legacy input has exponent field 0 and sign bit 1
    (the reserved operand); the value returned with the error is zero; every
    other input is decoded with a nil error. *)
Theorem decode_error_iff_reserved_operand :
  (forall (buf : list byte) (v : Z),
      uint32FromVaxbits buf = Returns v ->
      exists f err,
        Float32fromVaxFFloat buf = Returns (f, err) /\
        (err <> None <-> exponent32 v = 0 /\ sign32 v = 1) /\
        (err <> None -> f = Float32frombits 0)) /\
  (forall (buf : list byte) (V : Z),
      unpackG buf = Returns V ->
      exists f err,
        Float64fromVaxGFloat buf = Returns (f, err) /\
        (err <> None <-> exponent64 V = 0 /\ sign64 V = 1) /\
        (err <> None -> f = Float64frombits 0)).
Proof.
  split.
  - exact Float32fromVaxFFloat_error_iff.
  - exact Float64fromVaxGFloat_error_iff.
Qed.

Lemma decode_error_iff_reserved_operand_witness :
  (exists f err,
      Float32fromVaxFFloat [x00; x00; x80; x00] = Returns (f, err) /\
      (err <> None <-> exponent32 0x80000000 = 0 /\ sign32 0x80000000 = 1) /\
      (err <> None -> f = Float32frombits 0)) /\
  (exists f err,
      Float64fromVaxGFloat [x00; x00; x00; x00; x00; x00; x80; x00] = Returns (f, err) /\
      (err <> None <-> exponent64 0x8000000000000000 = 0 /\ sign64 0x8000000000000000 = 1) /\
      (err <> None -> f = Float64frombits 0)).
Proof.
  split.
  - apply (proj1 decode_error_iff_reserved_operand [x00; x00; x80; x00] 0x80000000).
    reflexivity.
  - apply (proj2 decode_error_iff_reserved_operand
             [x00; x00; x00; x00; x00; x00; x80; x00] 0x8000000000000000).
    reflexivity.
Defined.

(** ** C7: the normalized path only re-biases the exponent *)

Lemma Float32fromVaxFFloat_normalized (buf : list byte) (v : Z) :
  uint32FromVaxbits buf = Returns v ->
  exponent32 v <> 0 ->
  0 < exponent32 v - VaxF_exponent_adjustment ->
  exists f,
    Float32fromVaxFFloat buf = Returns (f, None) /\
    is_uint32 (Float32bits f) /\
    sign32 (Float32bits f) = sign32 v /\
    mantissa32 (Float32bits f) = mantissa32 v /\
    exponent32 (Float32bits f) = exponent32 v - VaxF_exponent_adjustment.
Proof.
  change VaxF_exponent_adjustment with 2.
  intros Hu He Hpos. pose proof (uint32FromVaxbits_range _ _ Hu) as Hv.
  rewrite (Float32fromVaxFFloat_nonzero buf v Hu Hv He).
  replace (0 <? exponent32 v - 2) with true by (symmetry; apply Z.ltb_lt; lia).
  eexists. split; [reflexivity|]. cbn [Float32bits].
  rewrite !sign32_arith, !mantissa32_arith, !exponent32_arith in *.
  unfold is_uint32 in *. arith.
Qed.

Lemma Float64fromVaxGFloat_normalized (buf : list byte) (V : Z) :
  unpackG buf = Returns V ->
  exponent64 V <> 0 ->
  0 < exponent64 V - VaxG_exponent_adjustment ->
  exists f,
    Float64fromVaxGFloat buf = Returns (f, None) /\
    is_uint64 (Float64bits f) /\
    sign64 (Float64bits f) = sign64 V /\
    mantissa64 (Float64bits f) = mantissa64 V /\
    exponent64 (Float64bits f) = exponent64 V - VaxG_exponent_adjustment.
Proof.
  change VaxG_exponent_adjustment with 2.
  intros Hu He Hpos.
  destruct (unpackG_inv _ _ Hu) as (lo & hi & v1 & v2 & Hlo & Hv2 & Hhi & Hv1 & Hr1 & Hr2 & ->).
  rewrite (Float64fromVaxGFloat_nonzero buf lo hi v1 v2 Hlo Hv2 Hhi Hv1 Hr1 Hr2 He).
  replace (0 <? exponent64 (unpacked64 v1 v2) - 2) with true
    by (symmetry; apply Z.ltb_lt; lia).
  eexists. split; [reflexivity|]. cbn [Float64bits].
  pose proof (unpacked64_range v1 v2 Hr1 Hr2) as HV.
  rewrite !sign64_arith, !mantissa64_arith, !exponent64_arith in *.
  unfold is_uint64 in *. arith.
Qed.

(** C7: for a legacy single with non-zero exponent field e whose re-biased
    exponent e' = e - (1 + legacyBias - ieeeBias) is positive, the decoded IEEE
    pattern keeps the sign bit and the 23-bit mantissa field of the unpacked
    input and has exponent field e'; the same for the double width with its
    52-bit mantissa. *)
Theorem decode_normalized_changes_only_exponent :
  (forall (buf : list byte) (v : Z),
      uint32FromVaxbits buf = Returns v ->
      exponent32 v <> 0 ->
      0 < exponent32 v - (1 + VaxFExponentBias - IeeeSExponentBias) ->
      exists f,
        Float32fromVaxFFloat buf = Returns (f, None) /\
        is_uint32 (Float32bits f) /\
        sign32 (Float32bits f) = sign32 v /\
        mantissa32 (Float32bits f) = mantissa32 v /\
        exponent32 (Float32bits f)
        = exponent32 v - (1 + VaxFExponentBias - IeeeSExponentBias)) /\
  (forall (buf : list byte) (V : Z),
      unpackG buf = Returns V ->
      exponent64 V <> 0 ->
      0 < exponent64 V - (1 + VaxGExponentBias - IeeeTExponentBias) ->
      exists f,
        Float64fromVaxGFloat buf = Returns (f, None) /\
        is_uint64 (Float64bits f) /\
        sign64 (Float64bits f) = sign64 V /\
        mantissa64 (Float64bits f) = mantissa64 V /\
        exponent64 (Float64bits f)
        = exponent64 V - (1 + VaxGExponentBias - IeeeTExponentBias)).
Proof.
  split.
  - exact Float32fromVaxFFloat_normalized.
  - exact Float64fromVaxGFloat_normalized.
Qed.

Lemma decode_normalized_changes_only_exponent_witness :
  (exists f,
      Float32fromVaxFFloat [x00; x00; x40; x80] = Returns (f, None) /\
      is_uint32 (Float32bits f) /\
      sign32 (Float32bits f) = sign32 0x40800000 /\
      mantissa32 (Float32bits f) = mantissa32 0x40800000 /\
      exponent32 (Float32bits f)
      = exponent32 0x40800000 - (1 + VaxFExponentBias - IeeeSExponentBias)) /\
  (exists f,
      Float64fromVaxGFloat [x2d; x18; x54; x44; x21; xfb; x40; x29]
      = Returns (f, None) /\
      is_uint64 (Float64bits f) /\
      sign64 (Float64bits f) = sign64 0x402921FB54442D18 /\
      mantissa64 (Float64bits f) = mantissa64 0x402921FB54442D18 /\
      exponent64 (Float64bits f)
      = exponent64 0x402921FB54442D18 - (1 + VaxGExponentBias - IeeeTExponentBias)).
Proof.
  split.
  - apply (proj1 decode_normalized_changes_only_exponent
             [x00; x00; x40; x80] 0x40800000).
    + reflexivity.
    + vm_compute. discriminate.
    + vm_compute. reflexivity.
  - apply (proj2 decode_normalized_changes_only_exponent
             [x2d; x18; x54; x44; x21; xfb; x40; x29] 0x402921FB54442D18).
    + reflexivity.
    + vm_compute. discriminate.
    + vm_compute. reflexivity.
Defined.

(** ** C8: the subnormal path chops *)

Lemma Float32fromVaxFFloat_subnormal (buf : list byte) (v : Z) :
  uint32FromVaxbits buf = Returns v ->
  exponent32 v <> 0 ->
  exponent32 v - VaxF_exponent_adjustment <= 0 ->
  exists f,
    Float32fromVaxFFloat buf = Returns (f, None) /\
    is_uint32 (Float32bits f) /\
    sign32 (Float32bits f) = sign32 v /\
    exponent32 (Float32bits f) = 0 /\
    mantissa32 (Float32bits f)
    = Z.shiftr (Z.lor VaxFHiddenBit (mantissa32 v))
        (1 - (exponent32 v - VaxF_exponent_adjustment)).
Proof.
  change VaxF_exponent_adjustment with 2. change VaxFHiddenBit with (2 ^ 23).
  intros Hu He Hnp. pose proof (uint32FromVaxbits_range _ _ Hu) as Hv.
  rewrite (Float32fromVaxFFloat_nonzero buf v Hu Hv He).
  replace (0 <? exponent32 v - 2) with false by (symmetry; apply Z.ltb_ge; lia).
  eexists. split; [reflexivity|]. cbn [Float32bits].
  pose proof (exponent32_range v) as HE.
  assert (Hm : 0 <= mantissa32 v < 2 ^ 23).
  { rewrite mantissa32_arith. apply Z.mod_pos_bound. lia. }
  assert (Hs : 0 <= sign32 v <= 1).
  { rewrite sign32_arith. unfold is_uint32 in Hv. arith. }
  rewrite (lor_add 23 (2 ^ 23)) by arith.
  rewrite Z.shiftr_div_pow2 by lia.
  rewrite !(sign32_arith (_ + _)), !(mantissa32_arith (_ + _)),
    !(exponent32_arith (_ + _)).
  unfold is_uint32.
  assert (Hsh : exponent32 v = 2 \/ exponent32 v = 1) by lia.
  destruct Hsh as [-> | ->].
  - change (1 - (2 - 2)) with 1. arith.
  - change (1 - (1 - 2)) with 2. arith.
Qed.

Lemma Float64fromVaxGFloat_subnormal (buf : list byte) (V : Z) :
  unpackG buf = Returns V ->
  exponent64 V <> 0 ->
  exponent64 V - VaxG_exponent_adjustment <= 0 ->
  exists f,
    Float64fromVaxGFloat buf = Returns (f, None) /\
    is_uint64 (Float64bits f) /\
    sign64 (Float64bits f) = sign64 V /\
    exponent64 (Float64bits f) = 0 /\
    mantissa64 (Float64bits f)
    = Z.shiftr (Z.lor (2 ^ 52) (mantissa64 V))
        (1 - (exponent64 V - VaxG_exponent_adjustment)).
Proof.
  change VaxG_exponent_adjustment with 2.
  intros Hu He Hnp.
  destruct (unpackG_inv _ _ Hu) as (lo & hi & v1 & v2 & Hlo & Hv2 & Hhi & Hv1 & Hr1 & Hr2 & ->).
  rewrite (Float64fromVaxGFloat_nonzero buf lo hi v1 v2 Hlo Hv2 Hhi Hv1 Hr1 Hr2 He).
  set (V := unpacked64 v1 v2) in *.
  replace (0 <? exponent64 V - 2) with false by (symmetry; apply Z.ltb_ge; lia).
  eexists. split; [reflexivity|]. cbn [Float64bits].
  pose proof (exponent64_range V) as HE.
  assert (Hm : 0 <= mantissa64 V < 2 ^ 52).
  { rewrite mantissa64_arith. apply Z.mod_pos_bound. lia. }
  assert (Hs : 0 <= sign64 V <= 1).
  { rewrite sign64_arith. pose proof (unpacked64_range v1 v2 Hr1 Hr2) as HV.
    fold V in HV. unfold is_uint64 in HV. arith. }
  rewrite (lor_add 52 (2 ^ 52)) by arith.
  rewrite Z.shiftr_div_pow2 by lia.
  rewrite !(sign64_arith (_ + _)), !(mantissa64_arith (_ + _)),
    !(exponent64_arith (_ + _)).
  unfold is_uint64.
  assert (Hsh : exponent64 V = 2 \/ exponent64 V = 1) by lia.
  destruct Hsh as [-> | ->].
  - change (1 - (2 - 2)) with 1. arith.
  - change (1 - (1 - 2)) with 2. arith.
Qed.

(** C8: for a legacy input with non-zero exponent field whose re-biased
    exponent e' is not positive, the decoder returns the IEEE subnormal
    (exponent field 0, sign preserved) whose mantissa field is the legacy
    mantissa with its hidden bit, shifted right by 1 - e', the bits shifted
    out being dropped; and the legacy single bytes 1C EA 03 08 decode to the
    float32 nearest to 9.9999999E-38. *)
Theorem decode_subnormal_chops :
  (forall (buf : list byte) (v : Z),
      uint32FromVaxbits buf = Returns v ->
      exponent32 v <> 0 ->
      exponent32 v - (1 + VaxFExponentBias - IeeeSExponentBias) <= 0 ->
      exists f,
        Float32fromVaxFFloat buf = Returns (f, None) /\
        is_uint32 (Float32bits f) /\
        sign32 (Float32bits f) = sign32 v /\
        exponent32 (Float32bits f) = 0 /\
        mantissa32 (Float32bits f)
        = Z.shiftr (Z.lor VaxFHiddenBit (mantissa32 v))
            (1 - (exponent32 v - (1 + VaxFExponentBias - IeeeSExponentBias)))) /\
  (forall (buf : list byte) (V : Z),
      unpackG buf = Returns V ->
      exponent64 V <> 0 ->
      exponent64 V - (1 + VaxGExponentBias - IeeeTExponentBias) <= 0 ->
      exists f,
        Float64fromVaxGFloat buf = Returns (f, None) /\
        is_uint64 (Float64bits f) /\
        sign64 (Float64bits f) = sign64 V /\
        exponent64 (Float64bits f) = 0 /\
        mantissa64 (Float64bits f)
        = Z.shiftr (Z.lor (2 ^ 52) (mantissa64 V))
            (1 - (exponent64 V - (1 + VaxGExponentBias - IeeeTExponentBias)))) /\
  (exists f,
      Float32fromVaxFFloat [x1c; xea; x03; x08] = Returns (f, None) /\
      float32_nearest_to 99999999 (10 ^ 45) (Float32bits f)).
Proof.
  split; [exact Float32fromVaxFFloat_subnormal|].
  split; [exact Float64fromVaxGFloat_subnormal|].
  exists (Float32frombits 0x02081CEA).
  split; [reflexivity|].
  unfold float32_nearest_to. vm_compute. intuition congruence.
Qed.

Lemma decode_subnormal_chops_witness :
  (exists f,
      Float32fromVaxFFloat [x00; x00; x01; x40] = Returns (f, None) /\
      is_uint32 (Float32bits f) /\
      sign32 (Float32bits f) = sign32 0x01400000 /\
      exponent32 (Float32bits f) = 0 /\
      mantissa32 (Float32bits f)
      = Z.shiftr (Z.lor VaxFHiddenBit (mantissa32 0x01400000))
          (1 - (exponent32 0x01400000 - (1 + VaxFExponentBias - IeeeSExponentBias)))) /\
  (exists f,
      Float64fromVaxGFloat [x00; x01; x00; x00; x00; x00; x80; x18]
      = Returns (f, None) /\
      is_uint64 (Float64bits f) /\
      sign64 (Float64bits f) = sign64 0x8018000000000001 /\
      exponent64 (Float64bits f) = 0 /\
      mantissa64 (Float64bits f)
      = Z.shiftr (Z.lor (2 ^ 52) (mantissa64 0x8018000000000001))
          (1 - (exponent64 0x8018000000000001
                - (1 + VaxGExponentBias - IeeeTExponentBias)))).
Proof.
  split.
  - apply (proj1 decode_subnormal_chops [x00; x00; x01; x40] 0x01400000).
    + reflexivity.
    + vm_compute. discriminate.
    + vm_compute. discriminate.
  - apply (proj1 (proj2 decode_subnormal_chops)
             [x00; x01; x00; x00; x00; x00; x80; x18] 0x8018000000000001).
    + reflexivity.
    + vm_compute. discriminate.
    + vm_compute. discriminate.
Defined.

(** ** C10: decoded values are finite *)

Lemma Float32fromVaxFFloat_finite (buf : list byte) (v : Z) :
  uint32FromVaxbits buf = Returns v ->
  exists f err,
    Float32fromVaxFFloat buf = Returns (f, err) /\
    is_uint32 (Float32bits f) /\
    exponent32 (Float32bits f) <= 0xFF - VaxF_exponent_adjustment /\
    (exponent32 v - VaxF_exponent_adjustment <= 0 -> exponent32 (Float32bits f) = 0).
Proof.
  intros Hu. pose proof (uint32FromVaxbits_range _ _ Hu) as Hv.
  pose proof (exponent32_range v) as HE.
  destruct (Z.eq_dec (exponent32 v) 0) as [He | He].
  - destruct (sign32_bit v Hv) as [Hs | Hs];
      [rewrite (Float32fromVaxFFloat_zero buf v Hu Hv He Hs)
      |rewrite (Float32fromVaxFFloat_reserved buf v Hu Hv He Hs)];
      do 2 eexists; (split; [reflexivity|]); cbn [Float32bits];
      (split; [unfold is_uint32; lia|]); (split; [vm_compute; discriminate|]);
      reflexivity.
  - destruct (Z_lt_le_dec 0 (exponent32 v - VaxF_exponent_adjustment)) as [Hpos | Hnp].
    + destruct (Float32fromVaxFFloat_normalized buf v Hu He Hpos)
        as (f & Hf & Hr & _ & _ & Hexp).
      exists f, None. split; [exact Hf|]. split; [exact Hr|].
      rewrite Hexp. change VaxF_exponent_adjustment with 2 in *.
      change (2 ^ 8) with 256 in HE. lia.
    + destruct (Float32fromVaxFFloat_subnormal buf v Hu He Hnp)
        as (f & Hf & Hr & _ & Hexp & _).
      exists f, None. split; [exact Hf|]. split; [exact Hr|].
      rewrite Hexp. split; [vm_compute; discriminate | reflexivity].
Qed.

Lemma Float64fromVaxGFloat_finite (buf : list byte) (V : Z) :
  unpackG buf = Returns V ->
  exists f err,
    Float64fromVaxGFloat buf = Returns (f, err) /\
    is_uint64 (Float64bits f) /\
    exponent64 (Float64bits f) <= 0x7FF - VaxG_exponent_adjustment /\
    (exponent64 V - VaxG_exponent_adjustment <= 0 -> exponent64 (Float64bits f) = 0).
Proof.
  intros Hu.
  pose proof (exponent64_range V) as HE.
  destruct (Z.eq_dec (exponent64 V) 0) as [He | He].
  - destruct (unpackG_inv _ _ Hu)
      as (lo & hi & v1 & v2 & Hlo & Hv2 & Hhi & Hv1 & Hr1 & Hr2 & ->).
    destruct (sign64_bit _ (unpacked64_range v1 v2 Hr1 Hr2)) as [Hs | Hs];
      [rewrite (Float64fromVaxGFloat_zero buf lo hi v1 v2 Hlo Hv2 Hhi Hv1 Hr1 Hr2 He Hs)
      |rewrite (Float64fromVaxGFloat_reserved buf lo hi v1 v2 Hlo Hv2 Hhi Hv1 Hr1 Hr2 He Hs)];
      do 2 eexists; (split; [reflexivity|]); cbn [Float64bits];
      (split; [unfold is_uint64; lia|]); (split; [vm_compute; discriminate|]);
      reflexivity.
  - destruct (Z_lt_le_dec 0 (exponent64 V - VaxG_exponent_adjustment)) as [Hpos | Hnp].
    + destruct (Float64fromVaxGFloat_normalized buf V Hu He Hpos)
        as (f & Hf & Hr & _ & _ & Hexp).
      exists f, None. split; [exact Hf|]. split; [exact Hr|].
      rewrite Hexp. change VaxG_exponent_adjustment with 2 in *.
      change (2 ^ 11) with 2048 in HE. lia.
    + destruct (Float64fromVaxGFloat_subnormal buf V Hu He Hnp)
        as (f & Hf & Hr & _ & Hexp & _).
      exists f, None. split; [exact Hf|]. split; [exact Hr|].
      rewrite Hexp. split; [vm_compute; discriminate | reflexivity].
Qed.

(** C10: for every 4-byte input Float32fromVaxFFloat returns a float32 whose
    exponent field is strictly below all-ones (a finite value, neither an
    infinity nor a NaN), and at most the all-ones value minus the bias
    adjustment; whenever the re-biased exponent is not positive the exponent
    field of the result is zero.  The same holds for every 8-byte input of
    Float64fromVaxGFloat. *)
Theorem decode_always_finite :
  (forall b0 b1 b2 b3 : byte,
      exists v f err,
        uint32FromVaxbits [b0; b1; b2; b3] = Returns v /\
        Float32fromVaxFFloat [b0; b1; b2; b3] = Returns (f, err) /\
        is_uint32 (Float32bits f) /\
        exponent32 (Float32bits f) < 0xFF /\
        exponent32 (Float32bits f)
        <= 0xFF - (1 + VaxFExponentBias - IeeeSExponentBias) /\
        (exponent32 v - (1 + VaxFExponentBias - IeeeSExponentBias) <= 0 ->
         exponent32 (Float32bits f) = 0)) /\
  (forall b0 b1 b2 b3 b4 b5 b6 b7 : byte,
      exists V f err,
        unpackG [b0; b1; b2; b3; b4; b5; b6; b7] = Returns V /\
        Float64fromVaxGFloat [b0; b1; b2; b3; b4; b5; b6; b7] = Returns (f, err) /\
        is_uint64 (Float64bits f) /\
        exponent64 (Float64bits f) < 0x7FF /\
        exponent64 (Float64bits f)
        <= 0x7FF - (1 + VaxGExponentBias - IeeeTExponentBias) /\
        (exponent64 V - (1 + VaxGExponentBias - IeeeTExponentBias) <= 0 ->
         exponent64 (Float64bits f) = 0)).
Proof.
  split.
  - intros b0 b1 b2 b3.
    destruct (uint32FromVaxbits_total b0 b1 b2 b3) as (v & Hu & _).
    destruct (Float32fromVaxFFloat_finite _ v Hu) as (f & err & Hf & Hr & Hle & Hsub).
    exists v, f, err.
    split; [exact Hu|]. split; [exact Hf|]. split; [exact Hr|].
    split; [|split; [exact Hle | exact Hsub]].
    change VaxF_exponent_adjustment with 2 in Hle. lia.
  - intros b0 b1 b2 b3 b4 b5 b6 b7.
    destruct (unpackG_total b0 b1 b2 b3 b4 b5 b6 b7) as (V & Hu).
    destruct (Float64fromVaxGFloat_finite _ V Hu) as (f & err & Hf & Hr & Hle & Hsub).
    exists V, f, err.
    split; [exact Hu|]. split; [exact Hf|]. split; [exact Hr|].
    split; [|split; [exact Hle | exact Hsub]].
    change VaxG_exponent_adjustment with 2 in Hle. lia.
Qed.

(** ** The single-width encoder, branch by branch *)

Lemma VaxFFloat_normalize_spec (fuel : nat) :
  forall m e : Z,
    0 < m < 2 ^ 24 -> is_uint32 e ->
    2 ^ 23 <= m * 2 ^ (Z.of_nat fuel - 1) ->
    exists k : Z,
      0 <= k < Z.of_nat fuel /\
      2 ^ 23 <= m * 2 ^ k < 2 ^ 24 /\
      VaxFFloat_normalize fuel m e = Returns (m * 2 ^ k, to_uint32 (e - k)).
Proof.
  induction fuel as [|fuel IH]; intros m e Hm He Hfuel.
  - exfalso. change (2 ^ (Z.of_nat 0 - 1)) with 0 in Hfuel. lia.
  - cbn [VaxFFloat_normalize]. rewrite land_FHiddenBit.
    destruct (Z_lt_le_dec m (2 ^ 23)) as [Hlow | Hhigh].
    + replace ((m / 2 ^ 23) mod 2 * 2 ^ 23 =? 0) with true
        by (symmetry; apply Z.eqb_eq; arith).
      assert (Hshl : shl32 m 1 = 2 * m).
      { unfold shl32, to_uint32. rewrite Z.shiftl_mul_pow2 by lia. arith. }
      rewrite Hshl.
      assert (Hfuel' : 2 ^ 23 <= 2 * m * 2 ^ (Z.of_nat fuel - 1)).
      { destruct fuel as [|fuel'].
        - change (2 ^ (Z.of_nat 1 - 1)) with 1 in Hfuel. lia.
        - replace (Z.of_nat (S (S fuel')) - 1) with (Z.succ (Z.of_nat (S fuel') - 1))
            in Hfuel by lia.
          rewrite Z.pow_succ_r in Hfuel by lia. lia. }
      destruct (IH (2 * m) (to_uint32 (e - 1))) as (k & Hk & Hb & Hrun).
      * arith.
      * unfold is_uint32, to_uint32. apply Z.mod_pos_bound. lia.
      * exact Hfuel'.
      * exists (k + 1). split; [lia|].
        rewrite Z.pow_add_r, Z.pow_1_r by lia.
        replace (m * (2 ^ k * 2)) with (2 * m * 2 ^ k) by ring.
        split; [exact Hb|].
        rewrite Hrun. unfold to_uint32.
        rewrite Zminus_mod_idemp_l. do 3 f_equal. lia.
    + replace ((m / 2 ^ 23) mod 2 * 2 ^ 23 =? 0) with false
        by (symmetry; apply Z.eqb_neq; arith).
      exists 0. split; [lia|].
      rewrite Z.pow_0_r, Z.mul_1_r, Z.sub_0_r.
      split; [lia|].
      rewrite to_uint32_small by exact He. reflexivity.
Qed.

Section EncodeSingle.
Variable f : float32.
Let w := Float32bits f.
Hypothesis Hw : is_uint32 w.

Lemma VaxFFloatfromFloat32_zero :
  w mod 2 ^ 31 = 0 -> VaxFFloatfromFloat32 f = Returns (0, None).
Proof.
  intros Hz. unfold VaxFFloatfromFloat32. fold w.
  rewrite land_not_SignBit, Hz. reflexivity.
Qed.

Lemma VaxFFloatfromFloat32_infnan :
  exponent32 w = 0xFF ->
  VaxFFloatfromFloat32 f =
  Returns (uint32FromVax (sign32 w * 2 ^ 31 + VaxFExponentMask),
           Some "no VAX equivalent for IEEE +-Infinity and +-NaN"%string).
Proof.
  rewrite exponent32_arith, sign32_arith. intros He.
  unfold VaxFFloatfromFloat32. fold w. unfold is_uint32 in Hw.
  rewrite land_not_SignBit.
  replace (w mod 2 ^ 31 =? 0) with false by (symmetry; apply Z.eqb_neq; arith).
  change IeeeSExponentMask with VaxFExponentMask.
  rewrite land_FExponentMask, land_SignBit, He.
  change (255 * 2 ^ 23 =? VaxFExponentMask) with true. cbn [bind].
  rewrite (lor_add 31) by (unfold VaxFExponentMask; arith).
  do 3 f_equal. arith.
Qed.

Lemma VaxFFloatfromFloat32_normal :
  0 < exponent32 w < 0xFF ->
  VaxFFloatfromFloat32 f =
  if 2 * VaxFExponentBias - 1 <? exponent32 w + VaxF_exponent_adjustment
  then Returns (uint32FromVax (sign32 w * 2 ^ 31 + (2 ^ 31 - 1)),
                Some "IEEE S_Float too large for VAX F_Float"%string)
  else Returns (uint32FromVax (w + 2 ^ 24), None).
Proof.
  rewrite exponent32_arith, sign32_arith. intros He.
  unfold VaxFFloatfromFloat32. fold w. unfold is_uint32 in Hw.
  rewrite land_not_SignBit.
  replace (w mod 2 ^ 31 =? 0) with false by (symmetry; apply Z.eqb_neq; arith).
  change IeeeSExponentMask with VaxFExponentMask.
  rewrite land_FExponentMask, land_SignBit, land_FMantissaMask.
  change VaxF_exponent_adjustment with 2.
  change (to_uint32 (1 + VaxFExponentBias - IeeeSExponentBias)) with 2.
  change (2 * VaxFExponentBias - 1) with 255.
  change VaxFMantissaSize with 23.
  set (E := (w / 2 ^ 23) mod 2 ^ 8) in *.
  replace (E * 2 ^ 23 =? VaxFExponentMask) with false
    by (symmetry; apply Z.eqb_neq; unfold VaxFExponentMask; lia).
  rewrite Z.shiftr_div_pow2, Z.div_mul by lia.
  replace (E =? 0) with false by (symmetry; apply Z.eqb_neq; lia).
  cbn [bind].
  rewrite (to_uint32_small (E + 2)) by lia.
  replace (E + 2 <=? 0) with false by (symmetry; apply Z.leb_gt; lia).
  destruct (Z.ltb_spec 255 (E + 2)) as [Hov | Hok].
  - change (not32 SignBit) with (2 ^ 31 - 1).
    rewrite (lor_add 31) by arith.
    cbn [bind]. do 3 f_equal. arith.
  - unfold shl32, to_uint32. rewrite Z.shiftl_mul_pow2 by lia.
    rewrite (Z.mod_small ((E + 2) * 2 ^ 23)) by arith.
    rewrite (lor_add 31 _ ((E + 2) * 2 ^ 23)) by arith.
    rewrite (lor_add 23) by arith.
    cbn [bind]. do 3 f_equal. subst E. arith.
Qed.

(** An IEEE subnormal is shifted left [n] times in all (once before the loop,
    [n - 1] times inside it) until the hidden bit shows; the exponent the
    code compares is the 32-bit unsigned [3 - n]. *)
Lemma VaxFFloatfromFloat32_subnormal :
  exponent32 w = 0 -> mantissa32 w <> 0 ->
  exists n : Z,
    1 <= n <= 23 /\
    2 ^ 23 <= mantissa32 w * 2 ^ n < 2 ^ 24 /\
    VaxFFloatfromFloat32 f =
    if n =? 3 then Returns (0, None)
    else if 3 <? n
         then Returns (uint32FromVax (sign32 w * 2 ^ 31 + (2 ^ 31 - 1)),
                       Some "IEEE S_Float too large for VAX F_Float"%string)
         else Returns (uint32FromVax
                         (sign32 w * 2 ^ 31 + (3 - n) * 2 ^ 23
                          + (mantissa32 w * 2 ^ n - 2 ^ 23)),
                       None).
Proof.
  rewrite exponent32_arith, sign32_arith, mantissa32_arith. intros He Hm.
  unfold is_uint32 in Hw.
  set (M := w mod 2 ^ 23) in *.
  assert (HM : 0 < M < 2 ^ 23).
  { pose proof (Z.mod_pos_bound w (2 ^ 23)). fold M in H. lia. }
  destruct (VaxFFloat_normalize_spec 33 (2 * M) 0) as (k & Hk & Hb & Hrun).
  { arith. }
  { unfold is_uint32. lia. }
  { change (2 ^ (Z.of_nat 33 - 1)) with (2 ^ 32). arith. }
  assert (Hk23 : k <= 22).
  { destruct (Z_le_gt_dec k 22) as [Hle | Hgt]; [exact Hle | exfalso].
    assert (2 ^ 23 <= 2 ^ k) by (apply Z.pow_le_mono_r; lia).
    nia. }
  exists (k + 1). split; [lia|].
  rewrite Z.pow_add_r, Z.pow_1_r by lia.
  replace (M * (2 ^ k * 2)) with (2 * M * 2 ^ k) by ring.
  split; [exact Hb|].
  unfold VaxFFloatfromFloat32. fold w.
  rewrite land_not_SignBit.
  replace (w mod 2 ^ 31 =? 0) with false by (symmetry; apply Z.eqb_neq; arith).
  change IeeeSExponentMask with VaxFExponentMask.
  rewrite land_FExponentMask, land_SignBit, land_FMantissaMask. fold M.
  rewrite He.
  change (0 * 2 ^ 23 =? VaxFExponentMask) with false. cbv iota.
  change (Z.shiftr (0 * 2 ^ 23) VaxFMantissaSize) with 0.
  change (0 =? 0) with true. cbv iota.
  assert (Hshl : shl32 M 1 = 2 * M).
  { unfold shl32, to_uint32. rewrite Z.shiftl_mul_pow2 by lia. arith. }
  rewrite Hshl, Hrun. cbn [bind].
  rewrite land_FMantissaMask.
  change (to_uint32 (1 + VaxFExponentBias - IeeeSExponentBias)) with 2.
  change (2 * VaxFExponentBias - 1) with 255.
  change VaxFMantissaSize with 23.
  change (not32 SignBit) with (2 ^ 31 - 1).
  set (X := 2 * M * 2 ^ k) in *.
  assert (He' : to_uint32 (to_uint32 (0 - k) + 2) = (3 - (k + 1)) mod 2 ^ 32).
  { unfold to_uint32. rewrite Zplus_mod_idemp_l. f_equal. lia. }
  rewrite He'.
  destruct (Z.eqb_spec (k + 1) 3) as [H3 | H3].
  - replace (3 - (k + 1)) with 0 by lia. reflexivity.
  - destruct (Z.ltb_spec 3 (k + 1)) as [Hgt | Hle].
    + assert (Hwrap : (3 - (k + 1)) mod 2 ^ 32 = 2 ^ 32 + 3 - (k + 1)) by arith.
      rewrite Hwrap.
      replace (2 ^ 32 + 3 - (k + 1) <=? 0) with false
        by (symmetry; apply Z.leb_gt; arith).
      replace (255 <? 2 ^ 32 + 3 - (k + 1)) with true
        by (symmetry; apply Z.ltb_lt; arith).
      rewrite (lor_add 31) by arith.
      cbn [bind]. do 3 f_equal. arith.
    + rewrite (Z.mod_small (3 - (k + 1))) by arith.
      replace (3 - (k + 1) <=? 0) with false by (symmetry; apply Z.leb_gt; lia).
      replace (255 <? 3 - (k + 1)) with false by (symmetry; apply Z.ltb_ge; lia).
      unfold shl32, to_uint32. rewrite Z.shiftl_mul_pow2 by lia.
      rewrite (Z.mod_small ((3 - (k + 1)) * 2 ^ 23)) by arith.
      rewrite (lor_add 31 _ ((3 - (k + 1)) * 2 ^ 23)) by arith.
      rewrite (lor_add 23) by arith.
      cbn [bind]. do 3 f_equal. arith.
Qed.
End EncodeSingle.

(** ** The double-width encoder, branch by branch *)

(** The loop doubles the 53-bit number held in the two words. *)
Lemma VaxGFloat_normalize_spec (fuel : nat) :
  forall m vaxpart2 e X : Z,
    0 <= m < 2 ^ 21 -> is_uint32 vaxpart2 -> is_uint32 e ->
    X = m * 2 ^ 32 + vaxpart2 -> 0 < X ->
    2 ^ 52 <= X * 2 ^ (Z.of_nat fuel - 1) ->
    exists k : Z,
      0 <= k < Z.of_nat fuel /\
      2 ^ 52 <= X * 2 ^ k < 2 ^ 53 /\
      VaxGFloat_normalize fuel m vaxpart2 e =
      Returns (X * 2 ^ k / 2 ^ 32, (X * 2 ^ k) mod 2 ^ 32, to_uint32 (e - k)).
Proof.
  induction fuel as [|fuel IH]; intros m vaxpart2 e X Hm Hv He HX Hpos Hfuel.
  - exfalso. change (2 ^ (Z.of_nat 0 - 1)) with 0 in Hfuel. lia.
  - cbn [VaxGFloat_normalize]. rewrite land_GHiddenBit.
    unfold is_uint32 in Hv.
    destruct (Z_lt_le_dec m (2 ^ 20)) as [Hlow | Hhigh].
    + replace ((m / 2 ^ 20) mod 2 * 2 ^ 20 =? 0) with true
        by (symmetry; apply Z.eqb_eq; arith).
      assert (Hm' : Z.lor (shl32 m 1) (Z.shiftr vaxpart2 31)
                    = 2 * m + vaxpart2 / 2 ^ 31).
      { unfold shl32, to_uint32.
        rewrite Z.shiftl_mul_pow2, Z.shiftr_div_pow2 by lia.
        rewrite (Z.mod_small (m * 2 ^ 1)) by arith.
        rewrite (lor_add 1) by arith. arith. }
      assert (Hv' : shl32 vaxpart2 1 = (2 * vaxpart2) mod 2 ^ 32).
      { unfold shl32, to_uint32. rewrite Z.shiftl_mul_pow2 by lia.
        f_equal. arith. }
      rewrite Hm', Hv'.
      assert (Hfuel' : 2 ^ 52 <= 2 * X * 2 ^ (Z.of_nat fuel - 1)).
      { destruct fuel as [|fuel'].
        - change (2 ^ (Z.of_nat 1 - 1)) with 1 in Hfuel. arith.
        - replace (Z.of_nat (S (S fuel')) - 1) with (Z.succ (Z.of_nat (S fuel') - 1))
            in Hfuel by lia.
          rewrite Z.pow_succ_r in Hfuel by lia. lia. }
      destruct (IH (2 * m + vaxpart2 / 2 ^ 31) ((2 * vaxpart2) mod 2 ^ 32)
                  (to_uint32 (e - 1)) (2 * X)) as (k & Hk & Hb & Hrun).
      * arith.
      * unfold is_uint32. apply Z.mod_pos_bound. lia.
      * unfold is_uint32, to_uint32. apply Z.mod_pos_bound. lia.
      * arith.
      * lia.
      * exact Hfuel'.
      * exists (k + 1). split; [lia|].
        rewrite Z.pow_add_r, Z.pow_1_r by lia.
        replace (X * (2 ^ k * 2)) with (2 * X * 2 ^ k) by ring.
        split; [exact Hb|].
        rewrite Hrun. unfold to_uint32.
        rewrite Zminus_mod_idemp_l. do 3 f_equal. lia.
    + replace ((m / 2 ^ 20) mod 2 * 2 ^ 20 =? 0) with false
        by (symmetry; apply Z.eqb_neq; arith).
      exists 0. split; [lia|].
      rewrite Z.pow_0_r, Z.mul_1_r, Z.sub_0_r.
      split; [arith|].
      rewrite to_uint32_small by exact He.
      do 3 f_equal; arith.
Qed.

Section EncodeDouble.
Variable f : float64.
Let w := Float64bits f.
Hypothesis Hw : is_uint64 w.

Lemma Float64bits_words :
  to_uint32 (Z.shiftr w 32) = w / 2 ^ 32 /\
  to_uint32 (Z.land w 0x0FFFFFFFF) = w mod 2 ^ 32.
Proof.
  unfold is_uint64 in Hw. unfold to_uint32.
  rewrite Z.shiftr_div_pow2, land_low32 by lia. split; arith.
Qed.

Lemma VaxGFloatfromFloat64_zero :
  w mod 2 ^ 63 = 0 -> VaxGFloatfromFloat64 f = Returns (0, None).
Proof.
  intros Hz. unfold VaxGFloatfromFloat64. fold w.
  destruct Float64bits_words as [-> ->]. unfold is_uint64 in Hw.
  rewrite land_not_SignBit.
  assert (H1 : (w / 2 ^ 32) mod 2 ^ 31 = 0) by arith.
  assert (H2 : w mod 2 ^ 32 = 0) by arith.
  rewrite H1, H2. reflexivity.
Qed.

Lemma VaxGFloatfromFloat64_nonzero_test :
  w mod 2 ^ 63 <> 0 ->
  (Z.lor (Z.land (w / 2 ^ 32) (not32 SignBit)) (w mod 2 ^ 32) =? 0) = false.
Proof.
  intros Hnz. apply Z.eqb_neq. intros H.
  apply Z.lor_eq_0_iff in H. destruct H as [H1 H2].
  rewrite land_not_SignBit in H1. unfold is_uint64 in Hw.
  apply Hnz. arith.
Qed.

Lemma VaxGFloatfromFloat64_infnan :
  exponent64 w = 0x7FF ->
  VaxGFloatfromFloat64 f =
  Returns (packG (sign64 w * 2 ^ 31 + VaxGExponentMask) 0,
           Some "no VAX equivalent for IEEE +-Infinity and +-NaN"%string).
Proof.
  rewrite exponent64_arith, sign64_arith. intros He.
  unfold VaxGFloatfromFloat64. fold w.
  destruct Float64bits_words as [-> ->]. unfold is_uint64 in Hw.
  rewrite VaxGFloatfromFloat64_nonzero_test by arith.
  change IeeeTExponentMask with VaxGExponentMask.
  rewrite land_GExponentMask, land_SignBit.
  replace ((w / 2 ^ 32 / 2 ^ 20) mod 2 ^ 11) with 2047 by arith.
  change (2047 * 2 ^ 20 =? VaxGExponentMask) with true. cbn [bind].
  rewrite (lor_add 31 _ VaxGExponentMask) by (unfold VaxGExponentMask; arith).
  replace ((w / 2 ^ 32 / 2 ^ 31) mod 2) with (w / 2 ^ 63) by arith.
  reflexivity.
Qed.

Lemma VaxGFloatfromFloat64_normal :
  0 < exponent64 w < 0x7FF ->
  VaxGFloatfromFloat64 f =
  if 2 * VaxGExponentBias - 1 <? exponent64 w + VaxG_exponent_adjustment
  then Returns (packG (sign64 w * 2 ^ 31 + (2 ^ 31 - 1)) 0xFFFFFFFF,
                Some "IEEE T_Float too large for VAX G_Float"%string)
  else Returns (packG (w / 2 ^ 32 + 2 ^ 21) (w mod 2 ^ 32), None).
Proof.
  rewrite exponent64_arith, sign64_arith. intros He.
  unfold VaxGFloatfromFloat64. fold w.
  destruct Float64bits_words as [-> ->]. unfold is_uint64 in Hw.
  rewrite VaxGFloatfromFloat64_nonzero_test by arith.
  change IeeeTExponentMask with VaxGExponentMask.
  rewrite land_GExponentMask, land_SignBit, land_GMantissaMask.
  change VaxG_exponent_adjustment with 2.
  change (to_uint32 (1 + VaxGExponentBias - IeeeTExponentBias)) with 2.
  change (2 * VaxGExponentBias - 1) with 2047.
  change VaxGMantissaSize with 20.
  replace ((w / 2 ^ 32 / 2 ^ 20) mod 2 ^ 11) with ((w / 2 ^ 52) mod 2 ^ 11) by arith.
  set (E := (w / 2 ^ 52) mod 2 ^ 11) in *.
  replace (E * 2 ^ 20 =? VaxGExponentMask) with false
    by (symmetry; apply Z.eqb_neq; unfold VaxGExponentMask; lia).
  rewrite Z.shiftr_div_pow2, Z.div_mul by lia.
  replace (E =? 0) with false by (symmetry; apply Z.eqb_neq; lia).
  cbn [bind].
  rewrite (to_uint32_small (E + 2)) by lia.
  replace (E + 2 <=? 0) with false by (symmetry; apply Z.leb_gt; lia).
  destruct (Z.ltb_spec 2047 (E + 2)) as [Hov | Hok].
  - change (not32 SignBit) with (2 ^ 31 - 1).
    rewrite (lor_add 31 _ (2 ^ 31 - 1)) by arith.
    replace ((w / 2 ^ 32 / 2 ^ 31) mod 2) with (w / 2 ^ 63) by arith.
    reflexivity.
  - unfold shl32, to_uint32. rewrite Z.shiftl_mul_pow2 by lia.
    rewrite (Z.mod_small ((E + 2) * 2 ^ 20)) by arith.
    rewrite (lor_add 31 _ ((E + 2) * 2 ^ 20)) by arith.
    rewrite (lor_add 20 (_ + _)) by arith.
    replace ((w / 2 ^ 32 / 2 ^ 31) mod 2 * 2 ^ 31 + (E + 2) * 2 ^ 20
             + (w / 2 ^ 32) mod 2 ^ 20)
      with (w / 2 ^ 32 + 2 ^ 21) by (subst E; arith).
    reflexivity.
Qed.
End EncodeDouble.

(** An IEEE double subnormal is shifted left [n] times in all until the
    hidden bit shows; the exponent compared is the 32-bit unsigned [3 - n]. *)
Lemma VaxGFloatfromFloat64_subnormal (f : float64) :
  is_uint64 (Float64bits f) ->
  exponent64 (Float64bits f) = 0 -> mantissa64 (Float64bits f) <> 0 ->
  exists n : Z,
    1 <= n <= 52 /\
    2 ^ 52 <= mantissa64 (Float64bits f) * 2 ^ n < 2 ^ 53 /\
    VaxGFloatfromFloat64 f =
    if n =? 3 then Returns (0, None)
    else if 3 <? n
         then Returns (packG (sign64 (Float64bits f) * 2 ^ 31 + (2 ^ 31 - 1)) 0xFFFFFFFF,
                       Some "IEEE T_Float too large for VAX G_Float"%string)
         else Returns (packG
                         (sign64 (Float64bits f) * 2 ^ 31 + (3 - n) * 2 ^ 20
                          + (mantissa64 (Float64bits f) * 2 ^ n / 2 ^ 32 - 2 ^ 20))
                         ((mantissa64 (Float64bits f) * 2 ^ n) mod 2 ^ 32),
                       None).
Proof.
  set (w := Float64bits f).
  rewrite exponent64_arith, sign64_arith, mantissa64_arith. intros Hw He Hm.
  destruct (Float64bits_words f Hw) as [Hhi Hlo]. fold w in Hhi, Hlo.
  pose proof (VaxGFloatfromFloat64_nonzero_test f Hw) as Hnz. fold w in Hnz.
  unfold is_uint64 in Hw.
  set (M := w mod 2 ^ 52) in *.
  assert (HM : 0 < M < 2 ^ 52).
  { pose proof (Z.mod_pos_bound w (2 ^ 52)). fold M in H. lia. }
  set (m1 := 2 * ((w / 2 ^ 32) mod 2 ^ 20) + w mod 2 ^ 32 / 2 ^ 31).
  set (l1 := (2 * (w mod 2 ^ 32)) mod 2 ^ 32).
  destruct (VaxGFloat_normalize_spec 65 m1 l1 0 (2 * M)) as (k & Hk & Hb & Hrun).
  { subst m1. arith. }
  { unfold is_uint32. subst l1. apply Z.mod_pos_bound. lia. }
  { unfold is_uint32. lia. }
  { subst m1 l1 M. arith. }
  { lia. }
  { change (2 ^ (Z.of_nat 65 - 1)) with (2 ^ 64). arith. }
  assert (Hk52 : k <= 51).
  { destruct (Z_le_gt_dec k 51) as [Hle | Hgt]; [exact Hle | exfalso].
    assert (2 ^ 52 <= 2 ^ k) by (apply Z.pow_le_mono_r; lia).
    nia. }
  exists (k + 1). split; [lia|].
  rewrite Z.pow_add_r, Z.pow_1_r by lia.
  replace (M * (2 ^ k * 2)) with (2 * M * 2 ^ k) by ring.
  split; [exact Hb|].
  unfold VaxGFloatfromFloat64. fold w.
  rewrite Hhi, Hlo, Hnz by (fold M; arith).
  change IeeeTExponentMask with VaxGExponentMask.
  rewrite land_GExponentMask, land_SignBit, land_GMantissaMask.
  replace ((w / 2 ^ 32 / 2 ^ 20) mod 2 ^ 11) with 0 by arith.
  change (0 * 2 ^ 20 =? VaxGExponentMask) with false. cbv iota.
  change (Z.shiftr (0 * 2 ^ 20) VaxGMantissaSize) with 0.
  change (0 =? 0) with true. cbv iota.
  assert (Hm1 : Z.lor (shl32 ((w / 2 ^ 32) mod 2 ^ 20) 1) (Z.shiftr (w mod 2 ^ 32) 31) = m1).
  { unfold shl32, to_uint32.
    rewrite Z.shiftl_mul_pow2, Z.shiftr_div_pow2 by lia.
    rewrite (Z.mod_small ((w / 2 ^ 32) mod 2 ^ 20 * 2 ^ 1)) by arith.
    rewrite (lor_add 1) by arith. subst m1. arith. }
  assert (Hl1 : shl32 (w mod 2 ^ 32) 1 = l1).
  { unfold shl32, to_uint32. rewrite Z.shiftl_mul_pow2 by lia.
    subst l1. f_equal. arith. }
  rewrite Hm1, Hl1, Hrun. cbn [bind].
  rewrite land_GMantissaMask.
  change (to_uint32 (1 + VaxGExponentBias - IeeeTExponentBias)) with 2.
  change (2 * VaxGExponentBias - 1) with 2047.
  change VaxGMantissaSize with 20.
  change (not32 SignBit) with (2 ^ 31 - 1).
  remember (2 * M * 2 ^ k) as X eqn:HX.
  assert (He' : to_uint32 (to_uint32 (0 - k) + 2) = (3 - (k + 1)) mod 2 ^ 32).
  { unfold to_uint32. rewrite Zplus_mod_idemp_l. f_equal. lia. }
  rewrite He'.
  replace ((w / 2 ^ 32 / 2 ^ 31) mod 2) with (w / 2 ^ 63) by arith.
  destruct (Z.eqb_spec (k + 1) 3) as [H3 | H3].
  - replace (3 - (k + 1)) with 0 by lia. reflexivity.
  - destruct (Z.ltb_spec 3 (k + 1)) as [Hgt | Hle].
    + assert (Hwrap : (3 - (k + 1)) mod 2 ^ 32 = 2 ^ 32 + 3 - (k + 1)) by arith.
      rewrite Hwrap.
      replace (2 ^ 32 + 3 - (k + 1) <=? 0) with false
        by (symmetry; apply Z.leb_gt; arith).
      replace (2047 <? 2 ^ 32 + 3 - (k + 1)) with true
        by (symmetry; apply Z.ltb_lt; arith).
      rewrite (lor_add 31 _ (2 ^ 31 - 1)) by arith.
      reflexivity.
    + rewrite (Z.mod_small (3 - (k + 1))) by arith.
      replace (3 - (k + 1) <=? 0) with false by (symmetry; apply Z.leb_gt; lia).
      replace (2047 <? 3 - (k + 1)) with false by (symmetry; apply Z.ltb_ge; lia).
      unfold shl32, to_uint32. rewrite Z.shiftl_mul_pow2 by lia.
      rewrite (Z.mod_small ((3 - (k + 1)) * 2 ^ 20)) by arith.
      rewrite (lor_add 31 _ ((3 - (k + 1)) * 2 ^ 20)) by arith.
      rewrite (lor_add 20 (_ + _)) by arith.
      replace ((X / 2 ^ 32) mod 2 ^ 20) with (X / 2 ^ 32 - 2 ^ 20) by arith.
      reflexivity.
Qed.

(** ** C4: infinities and NaNs *)

Lemma VaxFFloatfromFloat32_infnan_saturates (f : float32) :
  is_uint32 (Float32bits f) ->
  exponent32 (Float32bits f) = 0xFF ->
  exists p,
    VaxFFloatfromFloat32 f =
    Returns (uint32FromVax p,
             Some "no VAX equivalent for IEEE +-Infinity and +-NaN"%string) /\
    is_uint32 p /\
    sign32 p = sign32 (Float32bits f) /\
    exponent32 p = 0xFF /\
    mantissa32 p = 0.
Proof.
  intros Hw He.
  exists (sign32 (Float32bits f) * 2 ^ 31 + VaxFExponentMask).
  split; [apply VaxFFloatfromFloat32_infnan; assumption|].
  destruct (sign32_bit _ Hw) as [-> | ->]; vm_compute; intuition congruence.
Qed.

Lemma VaxGFloatfromFloat64_infnan_saturates (f : float64) :
  is_uint64 (Float64bits f) ->
  exponent64 (Float64bits f) = 0x7FF ->
  exists p1 p2,
    VaxGFloatfromFloat64 f =
    Returns (packG p1 p2,
             Some "no VAX equivalent for IEEE +-Infinity and +-NaN"%string) /\
    is_uint32 p1 /\ is_uint32 p2 /\
    sign64 (unpacked64 p1 p2) = sign64 (Float64bits f) /\
    exponent64 (unpacked64 p1 p2) = 0x7FF /\
    mantissa64 (unpacked64 p1 p2) = 0.
Proof.
  intros Hw He.
  exists (sign64 (Float64bits f) * 2 ^ 31 + VaxGExponentMask), 0.
  split; [apply VaxGFloatfromFloat64_infnan; assumption|].
  destruct (sign64_bit _ Hw) as [-> | ->]; vm_compute; intuition congruence.
Qed.

(** C4: for an IEEE single (double) whose exponent field is all-ones, an
    infinity of either sign or a NaN, the encoder returns the
    no-VAX-equivalent error together with the swapped form of the pattern that
    has the sign bit of the input, an all-ones exponent field and a zero
    mantissa field. *)
Theorem encode_infinity_nan_rejected :
  (forall f : float32,
      is_uint32 (Float32bits f) ->
      exponent32 (Float32bits f) = 0xFF ->
      exists p,
        VaxFFloatfromFloat32 f =
        Returns (uint32FromVax p,
                 Some "no VAX equivalent for IEEE +-Infinity and +-NaN"%string) /\
        is_uint32 p /\
        sign32 p = sign32 (Float32bits f) /\
        exponent32 p = 0xFF /\
        mantissa32 p = 0) /\
  (forall f : float64,
      is_uint64 (Float64bits f) ->
      exponent64 (Float64bits f) = 0x7FF ->
      exists p1 p2,
        VaxGFloatfromFloat64 f =
        Returns (packG p1 p2,
                 Some "no VAX equivalent for IEEE +-Infinity and +-NaN"%string) /\
        is_uint32 p1 /\ is_uint32 p2 /\
        sign64 (unpacked64 p1 p2) = sign64 (Float64bits f) /\
        exponent64 (unpacked64 p1 p2) = 0x7FF /\
        mantissa64 (unpacked64 p1 p2) = 0).
Proof.
  split.
  - exact VaxFFloatfromFloat32_infnan_saturates.
  - exact VaxGFloatfromFloat64_infnan_saturates.
Qed.

Lemma encode_infinity_nan_rejected_witness :
  (exists p,
      VaxFFloatfromFloat32 (Float32frombits 0xFFC00001) =
      Returns (uint32FromVax p,
               Some "no VAX equivalent for IEEE +-Infinity and +-NaN"%string) /\
      is_uint32 p /\
      sign32 p = sign32 (Float32bits (Float32frombits 0xFFC00001)) /\
      exponent32 p = 0xFF /\
      mantissa32 p = 0) /\
  (exists p1 p2,
      VaxGFloatfromFloat64 (Float64frombits 0x7FF0000000000000) =
      Returns (packG p1 p2,
               Some "no VAX equivalent for IEEE +-Infinity and +-NaN"%string) /\
      is_uint32 p1 /\ is_uint32 p2 /\
      sign64 (unpacked64 p1 p2) = sign64 (Float64bits (Float64frombits 0x7FF0000000000000)) /\
      exponent64 (unpacked64 p1 p2) = 0x7FF /\
      mantissa64 (unpacked64 p1 p2) = 0).
Proof.
  split.
  - apply (proj1 encode_infinity_nan_rejected (Float32frombits 0xFFC00001)).
    + unfold is_uint32. cbn [Float32bits]. lia.
    + reflexivity.
  - apply (proj2 encode_infinity_nan_rejected (Float64frombits 0x7FF0000000000000)).
    + unfold is_uint64. cbn [Float64bits]. lia.
    + reflexivity.
Defined.

Lemma mantissa32_range (w : Z) : 0 <= mantissa32 w < 2 ^ 23.
Proof. rewrite mantissa32_arith. apply Z.mod_pos_bound. lia. Qed.

Lemma mantissa64_range (w : Z) : 0 <= mantissa64 w < 2 ^ 52.
Proof. rewrite mantissa64_arith. apply Z.mod_pos_bound. lia. Qed.

Lemma log2_below (m b : Z) : 0 <= m < 2 ^ b -> 0 < b -> Z.log2 m < b.
Proof.
  intros Hm Hb. destruct (Z.eq_dec m 0) as [-> | Hnz].
  - change (Z.log2 0) with 0. lia.
  - apply Z.log2_lt_pow2; lia.
Qed.

Lemma legacy_exponent32_subnormal (w : Z) :
  exponent32 w = 0 -> legacy_exponent32 w <= 2.
Proof.
  intros He. unfold legacy_exponent32, normalized_exponent32. rewrite He.
  change (0 =? 0) with true. cbv iota.
  change (1 + VaxFExponentBias - IeeeSExponentBias) with 2.
  pose proof (log2_below (mantissa32 w) 23 (mantissa32_range w)). lia.
Qed.

Lemma legacy_exponent64_subnormal (w : Z) :
  exponent64 w = 0 -> legacy_exponent64 w <= 2.
Proof.
  intros He. unfold legacy_exponent64, normalized_exponent64. rewrite He.
  change (0 =? 0) with true. cbv iota.
  change (1 + VaxGExponentBias - IeeeTExponentBias) with 2.
  pose proof (log2_below (mantissa64 w) 52 (mantissa64_range w)). lia.
Qed.

Lemma legacy_exponent32_normal (w : Z) :
  exponent32 w <> 0 -> legacy_exponent32 w = exponent32 w + 2.
Proof.
  intros He. unfold legacy_exponent32, normalized_exponent32.
  apply Z.eqb_neq in He. rewrite He. reflexivity.
Qed.

Lemma legacy_exponent64_normal (w : Z) :
  exponent64 w <> 0 -> legacy_exponent64 w = exponent64 w + 2.
Proof.
  intros He. unfold legacy_exponent64, normalized_exponent64.
  apply Z.eqb_neq in He. rewrite He. reflexivity.
Qed.

(** ** C5: overflow saturates *)

Lemma VaxFFloatfromFloat32_overflow (f : float32) :
  is_uint32 (Float32bits f) ->
  exponent32 (Float32bits f) <> 0xFF ->
  2 * VaxFExponentBias - 1 < legacy_exponent32 (Float32bits f) ->
  exists p,
    VaxFFloatfromFloat32 f =
    Returns (uint32FromVax p, Some "IEEE S_Float too large for VAX F_Float"%string) /\
    is_uint32 p /\
    sign32 p = sign32 (Float32bits f) /\
    exponent32 p = 0xFF /\
    mantissa32 p = 0x7FFFFF.
Proof.
  intros Hw Hfin Hbig. change (2 * VaxFExponentBias - 1) with 255 in Hbig.
  pose proof (exponent32_range (Float32bits f)) as HE.
  change (2 ^ 8) with 256 in HE.
  destruct (Z.eq_dec (exponent32 (Float32bits f)) 0) as [He | He].
  - pose proof (legacy_exponent32_subnormal _ He). lia.
  - rewrite (legacy_exponent32_normal _ He) in Hbig.
    exists (sign32 (Float32bits f) * 2 ^ 31 + (2 ^ 31 - 1)).
    split.
    + rewrite (VaxFFloatfromFloat32_normal f Hw) by lia.
      change VaxF_exponent_adjustment with 2.
      change (2 * VaxFExponentBias - 1) with 255.
      replace (255 <? exponent32 (Float32bits f) + 2) with true
        by (symmetry; apply Z.ltb_lt; lia).
      reflexivity.
    + destruct (sign32_bit _ Hw) as [-> | ->]; vm_compute; intuition congruence.
Qed.

Lemma VaxGFloatfromFloat64_overflow (f : float64) :
  is_uint64 (Float64bits f) ->
  exponent64 (Float64bits f) <> 0x7FF ->
  2 * VaxGExponentBias - 1 < legacy_exponent64 (Float64bits f) ->
  exists p1 p2,
    VaxGFloatfromFloat64 f =
    Returns (packG p1 p2, Some "IEEE T_Float too large for VAX G_Float"%string) /\
    is_uint32 p1 /\ is_uint32 p2 /\
    sign64 (unpacked64 p1 p2) = sign64 (Float64bits f) /\
    exponent64 (unpacked64 p1 p2) = 0x7FF /\
    mantissa64 (unpacked64 p1 p2) = 0xFFFFFFFFFFFFF.
Proof.
  intros Hw Hfin Hbig. change (2 * VaxGExponentBias - 1) with 2047 in Hbig.
  pose proof (exponent64_range (Float64bits f)) as HE.
  change (2 ^ 11) with 2048 in HE.
  destruct (Z.eq_dec (exponent64 (Float64bits f)) 0) as [He | He].
  - pose proof (legacy_exponent64_subnormal _ He). lia.
  - rewrite (legacy_exponent64_normal _ He) in Hbig.
    exists (sign64 (Float64bits f) * 2 ^ 31 + (2 ^ 31 - 1)), 0xFFFFFFFF.
    split.
    + rewrite (VaxGFloatfromFloat64_normal f Hw) by lia.
      change VaxG_exponent_adjustment with 2.
      change (2 * VaxGExponentBias - 1) with 2047.
      replace (2047 <? exponent64 (Float64bits f) + 2) with true
        by (symmetry; apply Z.ltb_lt; lia).
      reflexivity.
    + destruct (sign64_bit _ Hw) as [-> | ->]; vm_compute; intuition congruence.
Qed.

(** C5: for a finite IEEE single (double) whose adjusted legacy exponent e'
    exceeds 2 * legacyBias - 1, the encoder returns the overflow error together
    with the swapped form of the pattern that has the sign bit of the input
    and all-ones exponent and mantissa fields. *)
Theorem encode_overflow_saturates :
  (forall f : float32,
      is_uint32 (Float32bits f) ->
      exponent32 (Float32bits f) <> 0xFF ->
      2 * VaxFExponentBias - 1 < legacy_exponent32 (Float32bits f) ->
      exists p,
        VaxFFloatfromFloat32 f =
        Returns (uint32FromVax p,
                 Some "IEEE S_Float too large for VAX F_Float"%string) /\
        is_uint32 p /\
        sign32 p = sign32 (Float32bits f) /\
        exponent32 p = 0xFF /\
        mantissa32 p = 0x7FFFFF) /\
  (forall f : float64,
      is_uint64 (Float64bits f) ->
      exponent64 (Float64bits f) <> 0x7FF ->
      2 * VaxGExponentBias - 1 < legacy_exponent64 (Float64bits f) ->
      exists p1 p2,
        VaxGFloatfromFloat64 f =
        Returns (packG p1 p2,
                 Some "IEEE T_Float too large for VAX G_Float"%string) /\
        is_uint32 p1 /\ is_uint32 p2 /\
        sign64 (unpacked64 p1 p2) = sign64 (Float64bits f) /\
        exponent64 (unpacked64 p1 p2) = 0x7FF /\
        mantissa64 (unpacked64 p1 p2) = 0xFFFFFFFFFFFFF).
Proof.
  split.
  - exact VaxFFloatfromFloat32_overflow.
  - exact VaxGFloatfromFloat64_overflow.
Qed.

Lemma encode_overflow_saturates_witness :
  (exists p,
      VaxFFloatfromFloat32 (Float32frombits 0xFF000000) =
      Returns (uint32FromVax p,
               Some "IEEE S_Float too large for VAX F_Float"%string) /\
      is_uint32 p /\
      sign32 p = sign32 (Float32bits (Float32frombits 0xFF000000)) /\
      exponent32 p = 0xFF /\
      mantissa32 p = 0x7FFFFF) /\
  (exists p1 p2,
      VaxGFloatfromFloat64 (Float64frombits 0x7FEFFFFFFFFFFFFF) =
      Returns (packG p1 p2,
               Some "IEEE T_Float too large for VAX G_Float"%string) /\
      is_uint32 p1 /\ is_uint32 p2 /\
      sign64 (unpacked64 p1 p2) = sign64 (Float64bits (Float64frombits 0x7FEFFFFFFFFFFFFF)) /\
      exponent64 (unpacked64 p1 p2) = 0x7FF /\
      mantissa64 (unpacked64 p1 p2) = 0xFFFFFFFFFFFFF).
Proof.
  split.
  - apply (proj1 encode_overflow_saturates (Float32frombits 0xFF000000)).
    + unfold is_uint32. cbn [Float32bits]. lia.
    + vm_compute. discriminate.
    + vm_compute. reflexivity.
  - apply (proj2 encode_overflow_saturates (Float64frombits 0x7FEFFFFFFFFFFFFF)).
    + unfold is_uint64. cbn [Float64bits]. lia.
    + vm_compute. discriminate.
    + vm_compute. reflexivity.
Defined.

(** ** C6: zeros *)

(** C6: IEEE +0 and -0 both encode to the all-zero legacy pattern with a nil
    error, for both widths; and every legacy pattern with exponent field 0 and
    sign bit 0, whatever its mantissa field, decodes to IEEE +0 with a nil
    error, for both widths. *)
Theorem zero_canonicalization :
  VaxFFloatfromFloat32 (Float32frombits 0) = Returns (0, None) /\
  VaxFFloatfromFloat32 (Float32frombits 0x80000000) = Returns (0, None) /\
  VaxGFloatfromFloat64 (Float64frombits 0) = Returns (0, None) /\
  VaxGFloatfromFloat64 (Float64frombits 0x8000000000000000) = Returns (0, None) /\
  (forall (buf : list byte) (v : Z),
      uint32FromVaxbits buf = Returns v ->
      exponent32 v = 0 -> sign32 v = 0 ->
      Float32fromVaxFFloat buf = Returns (Float32frombits 0, None)) /\
  (forall (buf : list byte) (V : Z),
      unpackG buf = Returns V ->
      exponent64 V = 0 -> sign64 V = 0 ->
      Float64fromVaxGFloat buf = Returns (Float64frombits 0, None)).
Proof.
  repeat (split; [reflexivity|]).
  split.
  - intros buf v Hu He Hs.
    apply (Float32fromVaxFFloat_zero buf v Hu (uint32FromVaxbits_range _ _ Hu) He Hs).
  - intros buf V Hu He Hs.
    destruct (unpackG_inv _ _ Hu)
      as (lo & hi & v1 & v2 & Hlo & Hv2 & Hhi & Hv1 & Hr1 & Hr2 & ->).
    apply (Float64fromVaxGFloat_zero buf lo hi v1 v2 Hlo Hv2 Hhi Hv1 Hr1 Hr2 He Hs).
Qed.

Lemma zero_canonicalization_witness :
  Float32fromVaxFFloat [xff; xff; x00; x7f] = Returns (Float32frombits 0, None) /\
  Float64fromVaxGFloat [xff; xff; xff; xff; xff; xff; x00; x0f]
  = Returns (Float64frombits 0, None).
Proof.
  destruct zero_canonicalization as (_ & _ & _ & _ & HF & HG).
  split.
  - apply (HF [xff; xff; x00; x7f] 0x007FFFFF); reflexivity.
  - apply (HG [xff; xff; xff; xff; xff; xff; x00; x0f] 0x000FFFFFFFFFFFFF);
      reflexivity.
Defined.

(** ** C2: values below the legacy range

    The exponent of the encoders is a uint32: the decrements of the
    renormalisation loop wrap around, and the test [e <= 0] only sees [e = 0].
    A subnormal that needs more than three shifts therefore reaches the
    overflow branch. *)

(** C2, at the smallest positive IEEE single and double (adjusted legacy
    exponents -20 and -49): the encoders return the overflow error and the
    positive saturation pattern instead of zero and a nil error. *)
Theorem encode_smallest_subnormal_overflows :
  exponent32 1 = 0 /\ legacy_exponent32 1 = -20 /\
  VaxFFloatfromFloat32 (Float32frombits 1)
  = Returns (0xFFFF7FFF, Some "IEEE S_Float too large for VAX F_Float"%string) /\
  exponent64 1 = 0 /\ legacy_exponent64 1 = -49 /\
  VaxGFloatfromFloat64 (Float64frombits 1)
  = Returns (0xFFFFFFFFFFFF7FFF,
             Some "IEEE T_Float too large for VAX G_Float"%string).
Proof. repeat split; vm_compute; reflexivity. Qed.

Lemma log2_of_shifted (M n b : Z) :
  0 < M -> 0 <= n -> 0 <= b ->
  2 ^ b <= M * 2 ^ n < 2 ^ (b + 1) -> Z.log2 M = b - n.
Proof.
  intros HM Hn Hb Hrange.
  assert (H : Z.log2 (M * 2 ^ n) = b).
  { apply Z.log2_unique; [lia|]. rewrite <- Z.add_1_r. exact Hrange. }
  rewrite Z.log2_mul_pow2 in H by lia. lia.
Qed.

(** What the single-width encoder does with every IEEE subnormal, by its
    adjusted legacy exponent: positive, it is encoded; zero, it underflows
    silently; negative, it is reported as an overflow. *)
Lemma VaxFFloatfromFloat32_subnormal_cases (f : float32) :
  is_uint32 (Float32bits f) ->
  exponent32 (Float32bits f) = 0 -> mantissa32 (Float32bits f) <> 0 ->
  (legacy_exponent32 (Float32bits f) = 0 ->
   VaxFFloatfromFloat32 f = Returns (0, None)) /\
  (legacy_exponent32 (Float32bits f) < 0 ->
   VaxFFloatfromFloat32 f =
   Returns (uint32FromVax (sign32 (Float32bits f) * 2 ^ 31 + (2 ^ 31 - 1)),
            Some "IEEE S_Float too large for VAX F_Float"%string)).
Proof.
  intros Hw He Hm.
  destruct (VaxFFloatfromFloat32_subnormal f Hw He Hm) as (n & Hn & Hb & Hrun).
  pose proof (mantissa32_range (Float32bits f)) as HM.
  assert (Hlog : Z.log2 (mantissa32 (Float32bits f)) = 23 - n).
  { apply log2_of_shifted; lia. }
  unfold legacy_exponent32, normalized_exponent32.
  rewrite He, Hlog. change (0 =? 0) with true. cbv iota.
  change (1 + VaxFExponentBias - IeeeSExponentBias) with 2.
  rewrite Hrun. split; intros Hle.
  - replace (n =? 3) with true by (symmetry; apply Z.eqb_eq; lia). reflexivity.
  - replace (n =? 3) with false by (symmetry; apply Z.eqb_neq; lia).
    replace (3 <? n) with true by (symmetry; apply Z.ltb_lt; lia). reflexivity.
Qed.

Lemma VaxGFloatfromFloat64_subnormal_cases (f : float64) :
  is_uint64 (Float64bits f) ->
  exponent64 (Float64bits f) = 0 -> mantissa64 (Float64bits f) <> 0 ->
  (legacy_exponent64 (Float64bits f) = 0 ->
   VaxGFloatfromFloat64 f = Returns (0, None)) /\
  (legacy_exponent64 (Float64bits f) < 0 ->
   VaxGFloatfromFloat64 f =
   Returns (packG (sign64 (Float64bits f) * 2 ^ 31 + (2 ^ 31 - 1)) 0xFFFFFFFF,
            Some "IEEE T_Float too large for VAX G_Float"%string)).
Proof.
  intros Hw He Hm.
  destruct (VaxGFloatfromFloat64_subnormal f Hw He Hm) as (n & Hn & Hb & Hrun).
  pose proof (mantissa64_range (Float64bits f)) as HM.
  assert (Hlog : Z.log2 (mantissa64 (Float64bits f)) = 52 - n).
  { apply log2_of_shifted; lia. }
  unfold legacy_exponent64, normalized_exponent64.
  rewrite He, Hlog. change (0 =? 0) with true. cbv iota.
  change (1 + VaxGExponentBias - IeeeTExponentBias) with 2.
  rewrite Hrun. split; intros Hle.
  - replace (n =? 3) with true by (symmetry; apply Z.eqb_eq; lia). reflexivity.
  - replace (n =? 3) with false by (symmetry; apply Z.eqb_neq; lia).
    replace (3 <? n) with true by (symmetry; apply Z.ltb_lt; lia). reflexivity.
Qed.

(** Both encoders return on every input: the renormalisation loops end. *)
Lemma VaxFFloatfromFloat32_total (f : float32) :
  is_uint32 (Float32bits f) -> exists r, VaxFFloatfromFloat32 f = Returns r.
Proof.
  intros Hw.
  pose proof (exponent32_range (Float32bits f)) as HE. change (2 ^ 8) with 256 in HE.
  destruct (Z.eq_dec (exponent32 (Float32bits f)) 0xFF) as [Hinf | Hfin].
  - rewrite (VaxFFloatfromFloat32_infnan f Hw Hinf). eexists. reflexivity.
  - destruct (Z.eq_dec (exponent32 (Float32bits f)) 0) as [He | He].
    + destruct (Z.eq_dec (mantissa32 (Float32bits f)) 0) as [Hm | Hm].
      * rewrite (VaxFFloatfromFloat32_zero f); [eexists; reflexivity|].
        rewrite exponent32_arith in He. rewrite mantissa32_arith in Hm.
        unfold is_uint32 in Hw. arith.
      * destruct (VaxFFloatfromFloat32_subnormal f Hw He Hm) as (n & _ & _ & Hrun).
        rewrite Hrun.
        destruct (n =? 3); [|destruct (3 <? n)]; eexists; reflexivity.
    + rewrite (VaxFFloatfromFloat32_normal f Hw) by lia.
      match goal with |- context [if ?c then _ else _] => destruct c end;
        eexists; reflexivity.
Qed.

Lemma VaxGFloatfromFloat64_total (f : float64) :
  is_uint64 (Float64bits f) -> exists r, VaxGFloatfromFloat64 f = Returns r.
Proof.
  intros Hw.
  pose proof (exponent64_range (Float64bits f)) as HE. change (2 ^ 11) with 2048 in HE.
  destruct (Z.eq_dec (exponent64 (Float64bits f)) 0x7FF) as [Hinf | Hfin].
  - rewrite (VaxGFloatfromFloat64_infnan f Hw Hinf). eexists. reflexivity.
  - destruct (Z.eq_dec (exponent64 (Float64bits f)) 0) as [He | He].
    + destruct (Z.eq_dec (mantissa64 (Float64bits f)) 0) as [Hm | Hm].
      * rewrite (VaxGFloatfromFloat64_zero f Hw); [eexists; reflexivity|].
        rewrite exponent64_arith in He. rewrite mantissa64_arith in Hm.
        unfold is_uint64 in Hw. arith.
      * destruct (VaxGFloatfromFloat64_subnormal f Hw He Hm) as (n & _ & _ & Hrun).
        rewrite Hrun.
        destruct (n =? 3); [|destruct (3 <? n)]; eexists; reflexivity.
    + rewrite (VaxGFloatfromFloat64_normal f Hw) by lia.
      match goal with |- context [if ?c then _ else _] => destruct c end;
        eexists; reflexivity.
Qed.

(** ** C1: round trip over the legacy normalized range *)

Lemma to_byte_congr (z z' : Z) : z mod 256 = z' mod 256 -> to_byte z = to_byte z'.
Proof. intros H. unfold to_byte. rewrite H. reflexivity. Qed.

Lemma packG_arith (p1 p2 : Z) :
  is_uint32 p1 -> is_uint32 p2 ->
  packG p1 p2 = uint32FromVax p2 * 2 ^ 32 + uint32FromVax p1.
Proof.
  intros H1 H2. unfold packG.
  apply join64; apply uint32FromVax_range; assumption.
Qed.

Lemma BigEndian_PutUint64_words (hi lo : Z) :
  is_uint32 hi -> is_uint32 lo ->
  BigEndian_PutUint64 (hi * 2 ^ 32 + lo)
  = BigEndian_PutUint32 hi ++ BigEndian_PutUint32 lo.
Proof.
  unfold is_uint32. intros Hhi Hlo.
  unfold BigEndian_PutUint64, BigEndian_PutUint32. cbn [app].
  rewrite !Z.shiftr_div_pow2 by lia.
  change (2 ^ 56) with 72057594037927936. change (2 ^ 48) with 281474976710656.
  change (2 ^ 40) with 1099511627776. change (2 ^ 32) with 4294967296 in *.
  change (2 ^ 24) with 16777216. change (2 ^ 16) with 65536.
  change (2 ^ 8) with 256.
  repeat (f_equal; [apply to_byte_congr; Z.to_euclidean_division_equations; lia|]).
  f_equal. apply to_byte_congr. Z.to_euclidean_division_equations; lia.
Qed.

Lemma unpack_packG (p1 p2 : Z) :
  is_uint32 p1 -> is_uint32 p2 ->
  let buf := BigEndian_PutUint64 (packG p1 p2) in
  slice buf 0 4 = Returns (BigEndian_PutUint32 (uint32FromVax p2)) /\
  slice buf 4 8 = Returns (BigEndian_PutUint32 (uint32FromVax p1)).
Proof.
  intros H1 H2 buf. subst buf.
  rewrite packG_arith by assumption.
  rewrite BigEndian_PutUint64_words by (apply uint32FromVax_range; assumption).
  split; reflexivity.
Qed.

(** Decoding what was written for an unpacked word [p] with a non-zero
    exponent field. *)
Lemma Float32fromVaxFFloat_of_packed (p : Z) :
  is_uint32 p -> exponent32 p <> 0 ->
  Float32fromVaxFFloat (BigEndian_PutUint32 (uint32FromVax p)) =
  if 0 <? exponent32 p - 2
  then Returns (Float32frombits (p - 2 ^ 24), None)
  else Returns (Float32frombits
                  (sign32 p * 2 ^ 31
                   + (2 ^ 23 + mantissa32 p) / 2 ^ (1 - (exponent32 p - 2))),
                None).
Proof.
  intros Hp He.
  apply (Float32fromVaxFFloat_nonzero _ p (uint32FromVaxbits_PutUint32 p Hp) Hp He).
Qed.

Lemma Float64fromVaxGFloat_of_packed (p1 p2 : Z) :
  is_uint32 p1 -> is_uint32 p2 -> exponent64 (unpacked64 p1 p2) <> 0 ->
  Float64fromVaxGFloat (BigEndian_PutUint64 (packG p1 p2)) =
  if 0 <? exponent64 (unpacked64 p1 p2) - 2
  then Returns (Float64frombits (unpacked64 p1 p2 - 2 ^ 53), None)
  else Returns (Float64frombits
                  (sign64 (unpacked64 p1 p2) * 2 ^ 63
                   + (2 ^ 52 + mantissa64 (unpacked64 p1 p2))
                     / 2 ^ (1 - (exponent64 (unpacked64 p1 p2) - 2))),
                None).
Proof.
  intros H1 H2 He.
  destruct (unpack_packG p1 p2 H1 H2) as [Hlo Hhi].
  apply (Float64fromVaxGFloat_nonzero _ _ _ p1 p2 Hlo
           (uint32FromVaxbits_PutUint32 p2 H2) Hhi
           (uint32FromVaxbits_PutUint32 p1 H1) H1 H2 He).
Qed.

Lemma roundtrip_single (f : float32) :
  is_uint32 (Float32bits f) ->
  in_VaxF_normalized_range (Float32bits f) ->
  exists g,
    VaxFFloatfromFloat32 f = Returns (g, None) /\
    Float32fromVaxFFloat (BigEndian_PutUint32 g) = Returns (f, None).
Proof.
  destruct f as [w]. cbn [Float32bits].
  intros Hw (Hfin & Hmin & Hmax).
  change (VaxF_scaled_magnitude 0x00800000) with (2 ^ 23) in Hmin.
  change (VaxF_scaled_magnitude 0x7FFFFFFF) with ((2 ^ 24 - 1) * 2 ^ 254) in Hmax.
  unfold ieee32_scaled_magnitude in Hmin, Hmax.
  pose proof (exponent32_range w) as HE. change (2 ^ 8) with 256 in HE.
  pose proof (mantissa32_range w) as HM.
  pose proof (sign32_bit w Hw) as HS.
  assert (Hsplit : w = sign32 w * 2 ^ 31 + exponent32 w * 2 ^ 23 + mantissa32 w).
  { rewrite sign32_arith, exponent32_arith, mantissa32_arith.
    unfold is_uint32 in Hw. arith. }
  set (S := sign32 w) in *. set (E := exponent32 w) in *.
  set (M := mantissa32 w) in *.
  destruct (Z.eqb_spec E 0) as [He | He].
  - (* an IEEE subnormal with one of its two top mantissa bits set *)
    assert (HMnz : mantissa32 w <> 0) by (fold M; lia).
    destruct (VaxFFloatfromFloat32_subnormal (Float32frombits w) Hw He HMnz)
      as (n & Hn & Hb & Hrun).
    cbn [Float32bits] in Hb, Hrun. fold M S in Hb, Hrun.
    assert (Hn12 : n = 1 \/ n = 2).
    { destruct (Z_le_gt_dec n 2) as [Hle | Hgt]; [lia | exfalso].
      assert (2 ^ 3 <= 2 ^ n) by (apply Z.pow_le_mono_r; lia).
      change (2 ^ 3) with 8 in H. nia. }
    set (p := S * 2 ^ 31 + (3 - n) * 2 ^ 23 + (M * 2 ^ n - 2 ^ 23)) in *.
    assert (Hrun' : VaxFFloatfromFloat32 (Float32frombits w)
                    = Returns (uint32FromVax p, None)).
    { rewrite Hrun. destruct Hn12 as [-> | ->]; reflexivity. }
    exists (uint32FromVax p). split; [exact Hrun'|].
    assert (Hp : is_uint32 p /\ sign32 p = S /\ exponent32 p = 3 - n
                 /\ mantissa32 p = M * 2 ^ n - 2 ^ 23).
    { rewrite sign32_arith, exponent32_arith, mantissa32_arith.
      unfold is_uint32. subst p.
      destruct Hn12 as [-> | ->]; arith. }
    destruct Hp as (Hpr & Hps & Hpe & Hpm).
    rewrite Float32fromVaxFFloat_of_packed by (try assumption; lia).
    rewrite Hps, Hpe, Hpm.
    replace (0 <? 3 - n - 2) with false by (symmetry; apply Z.ltb_ge; lia).
    do 3 f_equal.
    destruct Hn12 as [-> | ->].
    + change (1 - (3 - 1 - 2)) with 1. arith.
    + change (1 - (3 - 2 - 2)) with 2. arith.
  - (* an IEEE normal number with exponent field at most 253 *)
    assert (HE253 : E <= 253).
    { destruct (Z_le_gt_dec E 253) as [Hle | Hgt]; [exact Hle | exfalso].
      assert (HE254 : E = 254) by lia. rewrite HE254 in Hmax.
      change (2 ^ (254 + 1)) with (2 * 2 ^ 254) in Hmax.
      assert (0 < 2 ^ 254) by (apply Z.pow_pos_nonneg; lia).
      pow2_numerals. nia. }
    assert (Hrun : VaxFFloatfromFloat32 (Float32frombits w)
                   = Returns (uint32FromVax (w + 2 ^ 24), None)).
    { rewrite (VaxFFloatfromFloat32_normal (Float32frombits w) Hw)
        by (cbn [Float32bits]; fold E; lia).
      cbn [Float32bits]. fold E.
      change VaxF_exponent_adjustment with 2.
      change (2 * VaxFExponentBias - 1) with 255.
      replace (255 <? E + 2) with false by (symmetry; apply Z.ltb_ge; lia).
      reflexivity. }
    exists (uint32FromVax (w + 2 ^ 24)). split; [exact Hrun|].
    assert (Hp : is_uint32 (w + 2 ^ 24) /\ exponent32 (w + 2 ^ 24) = E + 2).
    { rewrite exponent32_arith. unfold is_uint32. arith. }
    destruct Hp as (Hpr & Hpe).
    rewrite Float32fromVaxFFloat_of_packed by (try assumption; lia).
    rewrite Hpe.
    replace (0 <? E + 2 - 2) with true by (symmetry; apply Z.ltb_lt; lia).
    do 3 f_equal. lia.
Qed.

Lemma roundtrip_double (f : float64) :
  is_uint64 (Float64bits f) ->
  in_VaxG_normalized_range (Float64bits f) ->
  exists g,
    VaxGFloatfromFloat64 f = Returns (g, None) /\
    Float64fromVaxGFloat (BigEndian_PutUint64 g) = Returns (f, None).
Proof.
  destruct f as [w]. cbn [Float64bits].
  intros Hw (Hfin & Hmin & Hmax).
  change (VaxG_scaled_magnitude 0x0010000000000000) with (2 ^ 52) in Hmin.
  change (VaxG_scaled_magnitude 0x7FFFFFFFFFFFFFFF)
    with ((2 ^ 53 - 1) * 2 ^ 2046) in Hmax.
  unfold ieee64_scaled_magnitude in Hmin, Hmax.
  pose proof (exponent64_range w) as HE. change (2 ^ 11) with 2048 in HE.
  pose proof (mantissa64_range w) as HM.
  pose proof (sign64_bit w Hw) as HS.
  assert (Hsplit : w = sign64 w * 2 ^ 63 + exponent64 w * 2 ^ 52 + mantissa64 w).
  { rewrite sign64_arith, exponent64_arith, mantissa64_arith.
    unfold is_uint64 in Hw. arith. }
  set (S := sign64 w) in *. set (E := exponent64 w) in *.
  set (M := mantissa64 w) in *.
  destruct (Z.eqb_spec E 0) as [He | He].
  - assert (HMnz : mantissa64 w <> 0) by (fold M; lia).
    destruct (VaxGFloatfromFloat64_subnormal (Float64frombits w) Hw He HMnz)
      as (n & Hn & Hb & Hrun).
    cbn [Float64bits] in Hb, Hrun. fold M S in Hb, Hrun.
    assert (Hn12 : n = 1 \/ n = 2).
    { destruct (Z_le_gt_dec n 2) as [Hle | Hgt]; [lia | exfalso].
      assert (2 ^ 3 <= 2 ^ n) by (apply Z.pow_le_mono_r; lia).
      change (2 ^ 3) with 8 in H. nia. }
    set (p1 := S * 2 ^ 31 + (3 - n) * 2 ^ 20 + (M * 2 ^ n / 2 ^ 32 - 2 ^ 20)) in *.
    set (p2 := (M * 2 ^ n) mod 2 ^ 32) in *.
    assert (Hrun' : VaxGFloatfromFloat64 (Float64frombits w)
                    = Returns (packG p1 p2, None)).
    { rewrite Hrun. destruct Hn12 as [-> | ->]; reflexivity. }
    exists (packG p1 p2). split; [exact Hrun'|].
    assert (Hp : is_uint32 p1 /\ is_uint32 p2 /\
                 sign64 (unpacked64 p1 p2) = S /\
                 exponent64 (unpacked64 p1 p2) = 3 - n /\
                 mantissa64 (unpacked64 p1 p2) = M * 2 ^ n - 2 ^ 52).
    { rewrite sign64_arith, exponent64_arith, mantissa64_arith.
      unfold is_uint32, unpacked64. subst p1 p2.
      destruct Hn12 as [-> | ->]; arith. }
    destruct Hp as (Hpr1 & Hpr2 & Hps & Hpe & Hpm).
    rewrite Float64fromVaxGFloat_of_packed by (try assumption; lia).
    rewrite Hps, Hpe, Hpm.
    replace (0 <? 3 - n - 2) with false by (symmetry; apply Z.ltb_ge; lia).
    do 3 f_equal.
    destruct Hn12 as [-> | ->].
    + change (1 - (3 - 1 - 2)) with 1. arith.
    + change (1 - (3 - 2 - 2)) with 2. arith.
  - assert (HE2045 : E <= 2045).
    { destruct (Z_le_gt_dec E 2045) as [Hle | Hgt]; [exact Hle | exfalso].
      assert (HE2046 : E = 2046) by lia. rewrite HE2046 in Hmax.
      change (2 ^ (2046 + 1)) with (2 * 2 ^ 2046) in Hmax.
      assert (0 < 2 ^ 2046) by (apply Z.pow_pos_nonneg; lia).
      pow2_numerals. nia. }
    set (p1 := w / 2 ^ 32 + 2 ^ 21). set (p2 := w mod 2 ^ 32).
    assert (Hrun : VaxGFloatfromFloat64 (Float64frombits w)
                   = Returns (packG p1 p2, None)).
    { rewrite (VaxGFloatfromFloat64_normal (Float64frombits w) Hw)
        by (cbn [Float64bits]; fold E; lia).
      cbn [Float64bits]. fold E.
      change VaxG_exponent_adjustment with 2.
      change (2 * VaxGExponentBias - 1) with 2047.
      replace (2047 <? E + 2) with false by (symmetry; apply Z.ltb_ge; lia).
      reflexivity. }
    exists (packG p1 p2). split; [exact Hrun|].
    assert (Hp : is_uint32 p1 /\ is_uint32 p2 /\
                 unpacked64 p1 p2 = w + 2 ^ 53 /\
                 exponent64 (unpacked64 p1 p2) = E + 2).
    { rewrite exponent64_arith. unfold is_uint32, unpacked64. subst p1 p2.
      unfold is_uint64 in Hw. arith. }
    destruct Hp as (Hpr1 & Hpr2 & Hpv & Hpe).
    rewrite Float64fromVaxGFloat_of_packed by (try assumption; lia).
    rewrite Hpe, Hpv.
    replace (0 <? E + 2 - 2) with true by (symmetry; apply Z.ltb_lt; lia).
    do 3 f_equal. lia.
Qed.

(** C1: for every IEEE single within the legacy normalized range, writing
    VaxFFloatfromFloat32's result as 4 big-endian bytes and decoding them with
    Float32fromVaxFFloat gives back the same bit pattern, both calls returning
    a nil error; and the same for doubles with VaxGFloatfromFloat64,
    8 big-endian bytes and Float64fromVaxGFloat. *)
Theorem roundtrip_normalized_range :
  (forall f : float32,
      is_uint32 (Float32bits f) ->
      in_VaxF_normalized_range (Float32bits f) ->
      exists g,
        VaxFFloatfromFloat32 f = Returns (g, None) /\
        Float32fromVaxFFloat (BigEndian_PutUint32 g) = Returns (f, None)) /\
  (forall f : float64,
      is_uint64 (Float64bits f) ->
      in_VaxG_normalized_range (Float64bits f) ->
      exists g,
        VaxGFloatfromFloat64 f = Returns (g, None) /\
        Float64fromVaxGFloat (BigEndian_PutUint64 g) = Returns (f, None)).
Proof.
  split.
  - exact roundtrip_single.
  - exact roundtrip_double.
Qed.

Lemma roundtrip_normalized_range_witness :
  (exists g,
      VaxFFloatfromFloat32 (Float32frombits 0x00200001) = Returns (g, None) /\
      Float32fromVaxFFloat (BigEndian_PutUint32 g)
      = Returns (Float32frombits 0x00200001, None)) /\
  (exists g,
      VaxGFloatfromFloat64 (Float64frombits 0x400921FB54442D18) = Returns (g, None) /\
      Float64fromVaxGFloat (BigEndian_PutUint64 g)
      = Returns (Float64frombits 0x400921FB54442D18, None)).
Proof.
  split.
  - apply (proj1 roundtrip_normalized_range (Float32frombits 0x00200001)).
    + unfold is_uint32. cbn [Float32bits]. lia.
    + unfold in_VaxF_normalized_range. cbn [Float32bits].
      split; [vm_compute; discriminate|].
      split; vm_compute; discriminate.
  - apply (proj2 roundtrip_normalized_range (Float64frombits 0x400921FB54442D18)).
    + unfold is_uint64. cbn [Float64bits]. lia.
    + unfold in_VaxG_normalized_range. cbn [Float64bits].
      split; [vm_compute; discriminate|].
      split; vm_compute; discriminate.
Defined.

(** The vector of C8 has exponent field 6, re-biased exponent 4: it is decoded
    on the normalized path, by the exponent adjustment alone. *)
Lemma vector_1CEA0308_exponent :
  uint32FromVaxbits [x1c; xea; x03; x08] = Returns 0x03081CEA /\
  exponent32 0x03081CEA - (1 + VaxFExponentBias - IeeeSExponentBias) = 4.
Proof. split; reflexivity. Qed.

(** * Further properties of the conversion routines *)

(** ** Every case of the single-width encoder *)

Lemma shifted_mantissa_class (M n b : Z) :
  0 < M -> 1 <= n -> 2 ^ b <= M * 2 ^ n < 2 ^ (b + 1) -> 3 <= b ->
  (n = 1 /\ 2 ^ (b - 1) <= M) \/
  (n = 2 /\ 2 ^ (b - 2) <= M < 2 ^ (b - 1)) \/
  (n = 3 /\ 2 ^ (b - 3) <= M < 2 ^ (b - 2)) \/
  (3 < n /\ M < 2 ^ (b - 3)).
Proof.
  intros HM Hn Hb Hb3.
  assert (Hlog : Z.log2 M = b - n) by (apply log2_of_shifted; lia).
  assert (Hspec : 2 ^ Z.log2 M <= M < 2 ^ Z.succ (Z.log2 M))
    by (apply Z.log2_spec; lia).
  rewrite Hlog in Hspec.
  destruct (Z_le_gt_dec n 3) as [Hle | Hgt].
  - assert (Hc : n = 1 \/ n = 2 \/ n = 3) by lia.
    destruct Hc as [-> | [-> | ->]].
    + left. split; [reflexivity | lia].
    + right; left. split; [reflexivity|].
      replace (Z.succ (b - 2)) with (b - 1) in Hspec by lia. lia.
    + right; right; left. split; [reflexivity|].
      replace (Z.succ (b - 3)) with (b - 2) in Hspec by lia. lia.
  - right; right; right. split; [lia|].
    assert (2 ^ Z.succ (b - n) <= 2 ^ (b - 3)).
    { destruct (Z_le_gt_dec 0 (Z.succ (b - n))) as [Hnn | Hneg].
      - apply Z.pow_le_mono_r; lia.
      - rewrite (Z.pow_neg_r 2 (Z.succ (b - n))) by lia.
        apply Z.pow_nonneg. lia. }
    lia.
Qed.

Lemma VaxFFloatfromFloat32_cases (f : float32) :
  is_uint32 (Float32bits f) ->
  let w := Float32bits f in
  exists p err,
    VaxFFloatfromFloat32 f = Returns (uint32FromVax p, err) /\
    is_uint32 p /\
    ((w mod 2 ^ 31 = 0 /\ p = 0 /\ err = None) \/
     (exponent32 w = 0xFF /\ err <> None /\
      sign32 p = sign32 w /\ exponent32 p = 0xFF) \/
     ((exponent32 w = 0xFE \/ (exponent32 w = 0 /\ 0 < mantissa32 w < 2 ^ 20)) /\
      err <> None /\ sign32 p = sign32 w /\ exponent32 p = 0xFF) \/
     (exponent32 w = 0 /\ 2 ^ 20 <= mantissa32 w < 2 ^ 21 /\ p = 0 /\ err = None) \/
     ((0 < exponent32 w < 0xFE \/ (exponent32 w = 0 /\ 2 ^ 21 <= mantissa32 w)) /\
      err = None /\ sign32 p = sign32 w /\
      exponent32 p = legacy_exponent32 w /\ 0 < exponent32 p /\
      VaxF_scaled_magnitude p = ieee32_scaled_magnitude w)).
Proof.
  destruct f as [w]. cbn [Float32bits]. intros Hw. cbv zeta.
  pose proof (exponent32_range w) as HE. change (2 ^ 8) with 256 in HE.
  pose proof (mantissa32_range w) as HM.
  pose proof (sign32_bit w Hw) as HS.
  assert (Hsplit : w = sign32 w * 2 ^ 31 + exponent32 w * 2 ^ 23 + mantissa32 w).
  { rewrite sign32_arith, exponent32_arith, mantissa32_arith.
    unfold is_uint32 in Hw. arith. }
  destruct (Z.eq_dec (exponent32 w) 0xFF) as [Hinf | Hfin].
  - destruct (VaxFFloatfromFloat32_infnan_saturates (Float32frombits w) Hw Hinf)
      as (p & Hrun & Hp & Hps & Hpe & _).
    cbn [Float32bits] in Hps.
    exists p. eexists. split; [exact Hrun|]. split; [exact Hp|].
    right; left. repeat split; try assumption. discriminate.
  - destruct (Z.eq_dec (exponent32 w) 0) as [He | He].
    + destruct (Z.eq_dec (mantissa32 w) 0) as [Hm | Hm].
      * exists 0, None. split.
        { apply VaxFFloatfromFloat32_zero. cbn [Float32bits]. arith. }
        split; [unfold is_uint32; lia|].
        left. repeat split. arith.
      * destruct (VaxFFloatfromFloat32_subnormal (Float32frombits w) Hw He Hm)
          as (n & Hn & Hb & Hrun).
        cbn [Float32bits] in Hb, Hrun.
        destruct (shifted_mantissa_class (mantissa32 w) n 23) as [Hc | [Hc | [Hc | Hc]]];
          try lia.
        -- (* one shift: legacy exponent 2 *)
           destruct Hc as [-> Hc]. change (2 ^ (23 - 1)) with (2 ^ 22) in Hc.
           eexists. exists None. split; [exact Hrun|].
           set (p := sign32 w * 2 ^ 31 + (3 - 1) * 2 ^ 23
                     + (mantissa32 w * 2 ^ 1 - 2 ^ 23)).
           assert (Hp : is_uint32 p /\ sign32 p = sign32 w /\ exponent32 p = 2
                        /\ mantissa32 p = mantissa32 w * 2 - 2 ^ 23).
           { rewrite (sign32_arith p), (exponent32_arith p), (mantissa32_arith p).
             unfold is_uint32. subst p. arith. }
           destruct Hp as (Hpr & Hps & Hpe & Hpm).
           split; [exact Hpr|]. do 4 right.
           split; [right; split; [exact He | arith]|].
           split; [reflexivity|]. split; [exact Hps|].
           unfold legacy_exponent32, normalized_exponent32, VaxF_scaled_magnitude,
             ieee32_scaled_magnitude.
           rewrite Hpe, Hpm, He. change (0 =? 0) with true. cbv iota.
           rewrite (log2_of_shifted (mantissa32 w) 1 23) by lia.
           split; [reflexivity|]. split; [lia|]. arith.
        -- (* two shifts: legacy exponent 1 *)
           destruct Hc as [-> Hc]. change (2 ^ (23 - 1)) with (2 ^ 22) in Hc.
           change (2 ^ (23 - 2)) with (2 ^ 21) in Hc.
           eexists. exists None. split; [exact Hrun|].
           set (p := sign32 w * 2 ^ 31 + (3 - 2) * 2 ^ 23
                     + (mantissa32 w * 2 ^ 2 - 2 ^ 23)).
           assert (Hp : is_uint32 p /\ sign32 p = sign32 w /\ exponent32 p = 1
                        /\ mantissa32 p = mantissa32 w * 4 - 2 ^ 23).
           { rewrite (sign32_arith p), (exponent32_arith p), (mantissa32_arith p).
             unfold is_uint32. subst p. arith. }
           destruct Hp as (Hpr & Hps & Hpe & Hpm).
           split; [exact Hpr|]. do 4 right.
           split; [right; split; [exact He | arith]|].
           split; [reflexivity|]. split; [exact Hps|].
           unfold legacy_exponent32, normalized_exponent32, VaxF_scaled_magnitude,
             ieee32_scaled_magnitude.
           rewrite Hpe, Hpm, He. change (0 =? 0) with true. cbv iota.
           rewrite (log2_of_shifted (mantissa32 w) 2 23) by lia.
           split; [reflexivity|]. split; [lia|]. arith.
        -- (* three shifts: silent underflow *)
           destruct Hc as [-> Hc]. change (2 ^ (23 - 3)) with (2 ^ 20) in Hc.
           change (2 ^ (23 - 2)) with (2 ^ 21) in Hc.
           exists 0, None. split; [exact Hrun|].
           split; [unfold is_uint32; lia|].
           do 3 right; left. repeat split; try assumption; lia.
        -- (* more shifts: the exponent has wrapped around *)
           destruct Hc as [Hn3 Hc]. change (2 ^ (23 - 3)) with (2 ^ 20) in Hc.
           replace (n =? 3) with false in Hrun by (symmetry; apply Z.eqb_neq; lia).
           replace (3 <? n) with true in Hrun by (symmetry; apply Z.ltb_lt; lia).
           eexists. eexists. split; [exact Hrun|].
           destruct HS as [HS | HS]; rewrite HS;
             (split; [unfold is_uint32; vm_compute; intuition congruence|]);
             do 2 right; left;
             (split; [right; split; [exact He | lia]|]);
             (split; [discriminate|]); split; reflexivity.
    + rewrite (VaxFFloatfromFloat32_normal (Float32frombits w) Hw)
        by (cbn [Float32bits]; lia).
      cbn [Float32bits].
      change VaxF_exponent_adjustment with 2.
      change (2 * VaxFExponentBias - 1) with 255.
      destruct (Z.ltb_spec 255 (exponent32 w + 2)) as [Hov | Hok].
      * eexists. eexists. split; [reflexivity|].
        destruct HS as [HS | HS]; rewrite HS;
          (split; [unfold is_uint32; vm_compute; intuition congruence|]);
          do 2 right; left;
          (split; [left; lia|]);
          (split; [discriminate|]); split; reflexivity.
      * eexists. exists None. split; [reflexivity|].
        assert (Hp : is_uint32 (w + 2 ^ 24) /\ sign32 (w + 2 ^ 24) = sign32 w
                     /\ exponent32 (w + 2 ^ 24) = exponent32 w + 2
                     /\ mantissa32 (w + 2 ^ 24) = mantissa32 w).
        { rewrite !sign32_arith, !exponent32_arith, !mantissa32_arith in *.
          unfold is_uint32 in *. arith. }
        destruct Hp as (Hpr & Hps & Hpe & Hpm).
        split; [exact Hpr|]. do 4 right.
        split; [left; lia|].
        split; [reflexivity|]. split; [exact Hps|].
        rewrite (legacy_exponent32_normal w He).
        unfold VaxF_scaled_magnitude, ieee32_scaled_magnitude.
        rewrite Hpe, Hpm.
        replace (exponent32 w =? 0) with false by (symmetry; apply Z.eqb_neq; lia).
        split; [reflexivity|]. split; [lia|].
        do 2 f_equal. lia.
Qed.

(** ** Every case of the double-width encoder *)

Lemma VaxGFloatfromFloat64_cases (f : float64) :
  is_uint64 (Float64bits f) ->
  let w := Float64bits f in
  exists p1 p2 err,
    VaxGFloatfromFloat64 f = Returns (packG p1 p2, err) /\
    is_uint32 p1 /\ is_uint32 p2 /\
    let P := unpacked64 p1 p2 in
    ((w mod 2 ^ 63 = 0 /\ P = 0 /\ err = None) \/
     (exponent64 w = 0x7FF /\ err <> None /\
      sign64 P = sign64 w /\ exponent64 P = 0x7FF) \/
     ((exponent64 w = 0x7FE \/ (exponent64 w = 0 /\ 0 < mantissa64 w < 2 ^ 49)) /\
      err <> None /\ sign64 P = sign64 w /\ exponent64 P = 0x7FF) \/
     (exponent64 w = 0 /\ 2 ^ 49 <= mantissa64 w < 2 ^ 50 /\ P = 0 /\ err = None) \/
     ((0 < exponent64 w < 0x7FE \/ (exponent64 w = 0 /\ 2 ^ 50 <= mantissa64 w)) /\
      err = None /\ sign64 P = sign64 w /\
      exponent64 P = legacy_exponent64 w /\ 0 < exponent64 P /\
      VaxG_scaled_magnitude P = ieee64_scaled_magnitude w)).
Proof.
  destruct f as [w]. cbn [Float64bits]. intros Hw. cbv zeta.
  pose proof (exponent64_range w) as HE. change (2 ^ 11) with 2048 in HE.
  pose proof (mantissa64_range w) as HM.
  pose proof (sign64_bit w Hw) as HS.
  assert (Hsplit : w = sign64 w * 2 ^ 63 + exponent64 w * 2 ^ 52 + mantissa64 w).
  { rewrite sign64_arith, exponent64_arith, mantissa64_arith.
    unfold is_uint64 in Hw. arith. }
  destruct (Z.eq_dec (exponent64 w) 0x7FF) as [Hinf | Hfin].
  - destruct (VaxGFloatfromFloat64_infnan_saturates (Float64frombits w) Hw Hinf)
      as (p1 & p2 & Hrun & Hp1 & Hp2 & Hps & Hpe & _).
    cbn [Float64bits] in Hps.
    exists p1, p2. eexists. split; [exact Hrun|].
    split; [exact Hp1|]. split; [exact Hp2|].
    right; left. repeat split; try assumption. discriminate.
  - destruct (Z.eq_dec (exponent64 w) 0) as [He | He].
    + destruct (Z.eq_dec (mantissa64 w) 0) as [Hm | Hm].
      * exists 0, 0, None. split.
        { apply (VaxGFloatfromFloat64_zero (Float64frombits w) Hw).
          cbn [Float64bits]. arith. }
        split; [unfold is_uint32; lia|]. split; [unfold is_uint32; lia|].
        left. repeat split. arith.
      * destruct (VaxGFloatfromFloat64_subnormal (Float64frombits w) Hw He Hm)
          as (n & Hn & Hb & Hrun).
        cbn [Float64bits] in Hb, Hrun.
        destruct (shifted_mantissa_class (mantissa64 w) n 52) as [Hc | [Hc | [Hc | Hc]]];
          try lia.
        -- destruct Hc as [-> Hc]. change (2 ^ (52 - 1)) with (2 ^ 51) in Hc.
           do 2 eexists. exists None. split; [exact Hrun|].
           set (p1 := sign64 w * 2 ^ 31 + (3 - 1) * 2 ^ 20
                      + (mantissa64 w * 2 ^ 1 / 2 ^ 32 - 2 ^ 20)).
           set (p2 := (mantissa64 w * 2 ^ 1) mod 2 ^ 32).
           assert (Hp : is_uint32 p1 /\ is_uint32 p2 /\
                        sign64 (unpacked64 p1 p2) = sign64 w /\
                        exponent64 (unpacked64 p1 p2) = 2 /\
                        mantissa64 (unpacked64 p1 p2) = mantissa64 w * 2 - 2 ^ 52).
           { rewrite (sign64_arith (unpacked64 _ _)), (exponent64_arith (unpacked64 _ _)),
               (mantissa64_arith (unpacked64 _ _)).
             unfold is_uint32, unpacked64. subst p1 p2.
             change (2 ^ 51) with 2251799813685248 in Hc. arith. }
           destruct Hp as (Hpr1 & Hpr2 & Hps & Hpe & Hpm).
           split; [exact Hpr1|]. split; [exact Hpr2|]. do 4 right.
           split; [right; split; [exact He|]|].
           { change (2 ^ 51) with 2251799813685248 in Hc.
             change (2 ^ 50) with 1125899906842624. lia. }
           split; [reflexivity|]. split; [exact Hps|].
           unfold legacy_exponent64, normalized_exponent64, VaxG_scaled_magnitude,
             ieee64_scaled_magnitude.
           rewrite Hpe, Hpm, He. change (0 =? 0) with true. cbv iota.
           rewrite (log2_of_shifted (mantissa64 w) 1 52) by lia.
           split; [reflexivity|]. split; [lia|]. arith.
        -- destruct Hc as [-> Hc]. change (2 ^ (52 - 1)) with (2 ^ 51) in Hc.
           change (2 ^ (52 - 2)) with (2 ^ 50) in Hc.
           do 2 eexists. exists None. split; [exact Hrun|].
           set (p1 := sign64 w * 2 ^ 31 + (3 - 2) * 2 ^ 20
                      + (mantissa64 w * 2 ^ 2 / 2 ^ 32 - 2 ^ 20)).
           set (p2 := (mantissa64 w * 2 ^ 2) mod 2 ^ 32).
           change (2 ^ 51) with 2251799813685248 in Hc.
           change (2 ^ 50) with 1125899906842624 in Hc.
           assert (Hp : is_uint32 p1 /\ is_uint32 p2 /\
                        sign64 (unpacked64 p1 p2) = sign64 w /\
                        exponent64 (unpacked64 p1 p2) = 1 /\
                        mantissa64 (unpacked64 p1 p2) = mantissa64 w * 4 - 2 ^ 52).
           { rewrite (sign64_arith (unpacked64 _ _)), (exponent64_arith (unpacked64 _ _)),
               (mantissa64_arith (unpacked64 _ _)).
             unfold is_uint32, unpacked64. subst p1 p2. arith. }
           destruct Hp as (Hpr1 & Hpr2 & Hps & Hpe & Hpm).
           split; [exact Hpr1|]. split; [exact Hpr2|]. do 4 right.
           split; [right; split; [exact He|]|].
           { change (2 ^ 50) with 1125899906842624. lia. }
           split; [reflexivity|]. split; [exact Hps|].
           unfold legacy_exponent64, normalized_exponent64, VaxG_scaled_magnitude,
             ieee64_scaled_magnitude.
           rewrite Hpe, Hpm, He. change (0 =? 0) with true. cbv iota.
           rewrite (log2_of_shifted (mantissa64 w) 2 52) by lia.
           split; [reflexivity|]. split; [lia|]. arith.
        -- destruct Hc as [-> Hc]. change (2 ^ (52 - 3)) with (2 ^ 49) in Hc.
           change (2 ^ (52 - 2)) with (2 ^ 50) in Hc.
           exists 0, 0, None. split; [exact Hrun|].
           split; [unfold is_uint32; lia|]. split; [unfold is_uint32; lia|].
           do 3 right; left. repeat split; try assumption; lia.
        -- destruct Hc as [Hn3 Hc]. change (2 ^ (52 - 3)) with (2 ^ 49) in Hc.
           replace (n =? 3) with false in Hrun by (symmetry; apply Z.eqb_neq; lia).
           replace (3 <? n) with true in Hrun by (symmetry; apply Z.ltb_lt; lia).
           do 3 eexists. split; [exact Hrun|].
           destruct HS as [HS | HS]; rewrite HS;
             (split; [unfold is_uint32; vm_compute; intuition congruence|]);
             (split; [unfold is_uint32; vm_compute; intuition congruence|]);
             do 2 right; left;
             (split; [right; split; [exact He | lia]|]);
             (split; [discriminate|]); split; reflexivity.
    + rewrite (VaxGFloatfromFloat64_normal (Float64frombits w) Hw)
        by (cbn [Float64bits]; lia).
      cbn [Float64bits].
      change VaxG_exponent_adjustment with 2.
      change (2 * VaxGExponentBias - 1) with 2047.
      destruct (Z.ltb_spec 2047 (exponent64 w + 2)) as [Hov | Hok].
      * do 3 eexists. split; [reflexivity|].
        destruct HS as [HS | HS]; rewrite HS;
          (split; [unfold is_uint32; vm_compute; intuition congruence|]);
          (split; [unfold is_uint32; vm_compute; intuition congruence|]);
          do 2 right; left;
          (split; [left; lia|]);
          (split; [discriminate|]); split; reflexivity.
      * do 2 eexists. exists None. split; [reflexivity|].
        set (p1 := w / 2 ^ 32 + 2 ^ 21). set (p2 := w mod 2 ^ 32).
        assert (Hp : is_uint32 p1 /\ is_uint32 p2 /\
                     sign64 (unpacked64 p1 p2) = sign64 w /\
                     exponent64 (unpacked64 p1 p2) = exponent64 w + 2 /\
                     mantissa64 (unpacked64 p1 p2) = mantissa64 w).
        { rewrite !sign64_arith, !exponent64_arith, !mantissa64_arith in *.
          unfold is_uint32, is_uint64, unpacked64 in *. subst p1 p2. arith. }
        destruct Hp as (Hpr1 & Hpr2 & Hps & Hpe & Hpm).
        split; [exact Hpr1|]. split; [exact Hpr2|]. do 4 right.
        split; [left; lia|].
        split; [reflexivity|]. split; [exact Hps|].
        rewrite (legacy_exponent64_normal w He).
        unfold VaxG_scaled_magnitude, ieee64_scaled_magnitude.
        rewrite Hpe, Hpm.
        replace (exponent64 w =? 0) with false by (symmetry; apply Z.eqb_neq; lia).
        split; [reflexivity|]. split; [lia|].
        do 2 f_equal. lia.
Qed.

(** ** When the encoders report an error *)

Lemma zero_pattern32 (w : Z) :
  is_uint32 w -> w mod 2 ^ 31 = 0 -> exponent32 w = 0 /\ mantissa32 w = 0.
Proof.
  rewrite exponent32_arith, mantissa32_arith. unfold is_uint32.
  intros Hw Hz. split; arith.
Qed.

Lemma zero_pattern64 (w : Z) :
  is_uint64 w -> w mod 2 ^ 63 = 0 -> exponent64 w = 0 /\ mantissa64 w = 0.
Proof.
  rewrite exponent64_arith, mantissa64_arith. unfold is_uint64.
  intros Hw Hz. split; arith.
Qed.

Lemma VaxFFloatfromFloat32_error_iff (f : float32) :
  is_uint32 (Float32bits f) ->
  exists g err,
    VaxFFloatfromFloat32 f = Returns (g, err) /\
    is_uint32 g /\
    (err <> None <->
     exponent32 (Float32bits f) = 0xFF \/
     exponent32 (Float32bits f) = 0xFE \/
     (exponent32 (Float32bits f) = 0 /\ 0 < mantissa32 (Float32bits f) < 2 ^ 20)).
Proof.
  intros Hw.
  destruct (VaxFFloatfromFloat32_cases f Hw) as (p & err & Hrun & Hp & Hcases).
  exists (uint32FromVax p), err. split; [exact Hrun|].
  split; [apply uint32FromVax_range; exact Hp|].
  pose proof (mantissa32_range (Float32bits f)) as HM.
  destruct Hcases as [(Hz & _ & ->) | [(He & Herr & _) | [(He & Herr & _)
    | [(He & Hm & _ & ->) | (He & -> & _)]]]].
  - destruct (zero_pattern32 _ Hw Hz) as [He Hm].
    split; [congruence | lia].
  - split; [auto | intros _; exact Herr].
  - split; [intros _; tauto | intros _; exact Herr].
  - split; [congruence | pow2_numerals; lia].
  - split; [congruence | pow2_numerals; lia].
Qed.

Lemma VaxGFloatfromFloat64_error_iff (f : float64) :
  is_uint64 (Float64bits f) ->
  exists g err,
    VaxGFloatfromFloat64 f = Returns (g, err) /\
    is_uint64 g /\
    (err <> None <->
     exponent64 (Float64bits f) = 0x7FF \/
     exponent64 (Float64bits f) = 0x7FE \/
     (exponent64 (Float64bits f) = 0 /\ 0 < mantissa64 (Float64bits f) < 2 ^ 49)).
Proof.
  intros Hw.
  destruct (VaxGFloatfromFloat64_cases f Hw)
    as (p1 & p2 & err & Hrun & Hp1 & Hp2 & Hcases).
  exists (packG p1 p2), err. split; [exact Hrun|].
  split.
  { rewrite packG_arith by assumption.
    pose proof (uint32FromVax_range p1 Hp1) as H1.
    pose proof (uint32FromVax_range p2 Hp2) as H2.
    unfold is_uint32, is_uint64 in *. arith. }
  pose proof (mantissa64_range (Float64bits f)) as HM.
  cbv zeta in Hcases.
  destruct Hcases as [(Hz & _ & ->) | [(He & Herr & _) | [(He & Herr & _)
    | [(He & Hm & _ & ->) | (He & -> & _)]]]].
  - destruct (zero_pattern64 _ Hw Hz) as [He Hm].
    split; [congruence | lia].
  - split; [auto | intros _; exact Herr].
  - split; [intros _; tauto | intros _; exact Herr].
  - change (2 ^ 49) with 562949953421312 in *.
    change (2 ^ 50) with 1125899906842624 in *.
    split; [congruence | lia].
  - change (2 ^ 49) with 562949953421312 in *.
    change (2 ^ 50) with 1125899906842624 in *.
    split; [congruence | lia].
Qed.

(** X1: both encoders return on every input (their renormalisation loops
    end), the value returned is in the range of its type, and the error is
    non-nil exactly for three classes of input: an all-ones exponent field
    (infinities and NaNs), the largest finite exponent field, and a subnormal
    whose mantissa field is below 2^20 (single) or 2^49 (double). *)
Theorem encode_error_iff :
  (forall f : float32,
      is_uint32 (Float32bits f) ->
      exists g err,
        VaxFFloatfromFloat32 f = Returns (g, err) /\
        is_uint32 g /\
        (err <> None <->
         exponent32 (Float32bits f) = 0xFF \/
         exponent32 (Float32bits f) = 0xFE \/
         (exponent32 (Float32bits f) = 0 /\ 0 < mantissa32 (Float32bits f) < 2 ^ 20))) /\
  (forall f : float64,
      is_uint64 (Float64bits f) ->
      exists g err,
        VaxGFloatfromFloat64 f = Returns (g, err) /\
        is_uint64 g /\
        (err <> None <->
         exponent64 (Float64bits f) = 0x7FF \/
         exponent64 (Float64bits f) = 0x7FE \/
         (exponent64 (Float64bits f) = 0 /\ 0 < mantissa64 (Float64bits f) < 2 ^ 49))).
Proof.
  split.
  - exact VaxFFloatfromFloat32_error_iff.
  - exact VaxGFloatfromFloat64_error_iff.
Qed.

Lemma encode_error_iff_witness :
  (exists g err,
      VaxFFloatfromFloat32 (Float32frombits 0x7F000000) = Returns (g, err) /\
      is_uint32 g /\
      (err <> None <->
       exponent32 0x7F000000 = 0xFF \/
       exponent32 0x7F000000 = 0xFE \/
       (exponent32 0x7F000000 = 0 /\ 0 < mantissa32 0x7F000000 < 2 ^ 20))) /\
  (exists g err,
      VaxGFloatfromFloat64 (Float64frombits 0x0000FFFFFFFFFFFF) = Returns (g, err) /\
      is_uint64 g /\
      (err <> None <->
       exponent64 0x0000FFFFFFFFFFFF = 0x7FF \/
       exponent64 0x0000FFFFFFFFFFFF = 0x7FE \/
       (exponent64 0x0000FFFFFFFFFFFF = 0 /\ 0 < mantissa64 0x0000FFFFFFFFFFFF < 2 ^ 49))).
Proof.
  split.
  - apply (proj1 encode_error_iff (Float32frombits 0x7F000000)).
    unfold is_uint32. cbn [Float32bits]. lia.
  - apply (proj2 encode_error_iff (Float64frombits 0x0000FFFFFFFFFFFF)).
    unfold is_uint64. cbn [Float64bits]. lia.
Defined.

(** ** What a successful encoding holds *)





(** ** The encoders never write a reserved operand *)

Lemma unpackG_packG (p1 p2 : Z) :
  is_uint32 p1 -> is_uint32 p2 ->
  unpackG (BigEndian_PutUint64 (packG p1 p2)) = Returns (unpacked64 p1 p2).
Proof.
  intros H1 H2. destruct (unpack_packG p1 p2 H1 H2) as [Hlo Hhi].
  unfold unpackG. rewrite Hlo. cbn [bind].
  rewrite (uint32FromVaxbits_PutUint32 p2 H2). cbn [bind].
  rewrite Hhi. cbn [bind].
  rewrite (uint32FromVaxbits_PutUint32 p1 H1). reflexivity.
Qed.

Lemma Float32fromVaxFFloat_of_encoded (f : float32) :
  is_uint32 (Float32bits f) ->
  exists g err f',
    VaxFFloatfromFloat32 f = Returns (g, err) /\
    Float32fromVaxFFloat (BigEndian_PutUint32 g) = Returns (f', None).
Proof.
  intros Hw.
  destruct (VaxFFloatfromFloat32_cases f Hw) as (p & err & Hrun & Hp & Hcases).
  pose proof (uint32FromVaxbits_PutUint32 p Hp) as Hu.
  destruct (Float32fromVaxFFloat_error_iff _ p Hu) as (f' & err' & Hdec & Hiff & _).
  exists (uint32FromVax p), err, f'. split; [exact Hrun|].
  assert (Hok : ~ (exponent32 p = 0 /\ sign32 p = 1)).
  { destruct Hcases as [(_ & -> & _) | [(_ & _ & _ & He) | [(_ & _ & _ & He)
      | [(_ & _ & -> & _) | (_ & _ & _ & _ & He & _)]]]];
      intros [H0 H1]; try (vm_compute in H1; discriminate); lia. }
  destruct err' as [e|]; [|exact Hdec].
  exfalso. apply Hok, Hiff. discriminate.
Qed.

Lemma Float64fromVaxGFloat_of_encoded (f : float64) :
  is_uint64 (Float64bits f) ->
  exists g err f',
    VaxGFloatfromFloat64 f = Returns (g, err) /\
    Float64fromVaxGFloat (BigEndian_PutUint64 g) = Returns (f', None).
Proof.
  intros Hw.
  destruct (VaxGFloatfromFloat64_cases f Hw)
    as (p1 & p2 & err & Hrun & Hp1 & Hp2 & Hcases).
  cbv zeta in Hcases.
  pose proof (unpackG_packG p1 p2 Hp1 Hp2) as Hu.
  destruct (Float64fromVaxGFloat_error_iff _ _ Hu) as (f' & err' & Hdec & Hiff & _).
  exists (packG p1 p2), err, f'. split; [exact Hrun|].
  assert (Hok : ~ (exponent64 (unpacked64 p1 p2) = 0 /\ sign64 (unpacked64 p1 p2) = 1)).
  { destruct Hcases as [(_ & HP & _) | [(_ & _ & _ & He) | [(_ & _ & _ & He)
      | [(_ & _ & HP & _) | (_ & _ & _ & _ & He & _)]]]];
      intros [H0 H1]; try (rewrite HP in H1; vm_compute in H1; discriminate); lia. }
  destruct err' as [e|]; [|exact Hdec].
  exfalso. apply Hok, Hiff. discriminate.
Qed.

(** X3: whatever the input, and whether or not the encoder reports an error,
    the value it returns is never a reserved operand: written as big-endian
    bytes it is decoded by Float32fromVaxFFloat (Float64fromVaxGFloat) with a
    nil error. *)
Theorem decode_of_encoded_never_fails :
  (forall f : float32,
      is_uint32 (Float32bits f) ->
      exists g err f',
        VaxFFloatfromFloat32 f = Returns (g, err) /\
        Float32fromVaxFFloat (BigEndian_PutUint32 g) = Returns (f', None)) /\
  (forall f : float64,
      is_uint64 (Float64bits f) ->
      exists g err f',
        VaxGFloatfromFloat64 f = Returns (g, err) /\
        Float64fromVaxGFloat (BigEndian_PutUint64 g) = Returns (f', None)).
Proof.
  split.
  - exact Float32fromVaxFFloat_of_encoded.
  - exact Float64fromVaxGFloat_of_encoded.
Qed.

Lemma decode_of_encoded_never_fails_witness :
  (exists g err f',
      VaxFFloatfromFloat32 (Float32frombits 0xFF800000) = Returns (g, err) /\
      Float32fromVaxFFloat (BigEndian_PutUint32 g) = Returns (f', None)) /\
  (exists g err f',
      VaxGFloatfromFloat64 (Float64frombits 0x8000000000000001) = Returns (g, err) /\
      Float64fromVaxGFloat (BigEndian_PutUint64 g) = Returns (f', None)).
Proof.
  split.
  - apply (proj1 decode_of_encoded_never_fails (Float32frombits 0xFF800000)).
    unfold is_uint32. cbn [Float32bits]. lia.
  - apply (proj2 decode_of_encoded_never_fails (Float64frombits 0x8000000000000001)).
    unfold is_uint64. cbn [Float64bits]. lia.
Defined.

(** ** What a decoded value holds *)

Lemma pow2_split4 (e : Z) : 3 <= e -> 2 ^ (e - 1) = 4 * 2 ^ (e - 3).
Proof.
  intros He. replace (e - 1) with (2 + (e - 3)) by lia.
  rewrite Z.pow_add_r by lia. reflexivity.
Qed.

Lemma Float32fromVaxFFloat_value (buf : list byte) (v : Z) :
  uint32FromVaxbits buf = Returns v ->
  exponent32 v <> 0 ->
  exists f,
    Float32fromVaxFFloat buf = Returns (f, None) /\
    sign32 (Float32bits f) = sign32 v /\
    ieee32_scaled_magnitude (Float32bits f) = 4 * (VaxF_scaled_magnitude v / 4).
Proof.
  intros Hu He.
  pose proof (exponent32_range v) as HE. change (2 ^ 8) with 256 in HE.
  pose proof (mantissa32_range v) as HM.
  destruct (Z_lt_le_dec 0 (exponent32 v - VaxF_exponent_adjustment)) as [Hpos | Hnp].
  - destruct (Float32fromVaxFFloat_normalized buf v Hu He Hpos)
      as (f & Hf & _ & Hs & Hm & Hexp).
    change VaxF_exponent_adjustment with 2 in *.
    exists f. split; [exact Hf|]. split; [exact Hs|].
    unfold ieee32_scaled_magnitude, VaxF_scaled_magnitude.
    rewrite Hexp, Hm.
    replace (exponent32 v - 2 =? 0) with false by (symmetry; apply Z.eqb_neq; lia).
    replace (exponent32 v - 2 + 1) with (exponent32 v - 1) by lia.
    rewrite pow2_split4 by lia.
    replace ((2 ^ 23 + mantissa32 v) * (4 * 2 ^ (exponent32 v - 3)))
      with ((2 ^ 23 + mantissa32 v) * 2 ^ (exponent32 v - 3) * 4) by ring.
    rewrite Z.div_mul by lia. ring.
  - destruct (Float32fromVaxFFloat_subnormal buf v Hu He Hnp)
      as (f & Hf & _ & Hs & Hexp & Hm).
    change VaxF_exponent_adjustment with 2 in *.
    change VaxFHiddenBit with (2 ^ 23) in Hm.
    rewrite (lor_add 23 (2 ^ 23)) in Hm by arith.
    exists f. split; [exact Hf|]. split; [exact Hs|].
    unfold ieee32_scaled_magnitude, VaxF_scaled_magnitude.
    rewrite Hexp, Hm. change (0 =? 0) with true. cbv iota.
    rewrite Z.shiftr_div_pow2 by lia.
    assert (Hc : exponent32 v = 2 \/ exponent32 v = 1) by lia.
    destruct Hc as [-> | ->].
    + change (1 - (2 - 2)) with 1. change (2 ^ (2 - 1)) with 2. arith.
    + change (1 - (1 - 2)) with 2. change (2 ^ (1 - 1)) with 1. arith.
Qed.

Lemma Float64fromVaxGFloat_value (buf : list byte) (V : Z) :
  unpackG buf = Returns V ->
  exponent64 V <> 0 ->
  exists f,
    Float64fromVaxGFloat buf = Returns (f, None) /\
    sign64 (Float64bits f) = sign64 V /\
    ieee64_scaled_magnitude (Float64bits f) = 4 * (VaxG_scaled_magnitude V / 4).
Proof.
  intros Hu He.
  pose proof (exponent64_range V) as HE. change (2 ^ 11) with 2048 in HE.
  pose proof (mantissa64_range V) as HM.
  destruct (Z_lt_le_dec 0 (exponent64 V - VaxG_exponent_adjustment)) as [Hpos | Hnp].
  - destruct (Float64fromVaxGFloat_normalized buf V Hu He Hpos)
      as (f & Hf & _ & Hs & Hm & Hexp).
    change VaxG_exponent_adjustment with 2 in *.
    exists f. split; [exact Hf|]. split; [exact Hs|].
    unfold ieee64_scaled_magnitude, VaxG_scaled_magnitude.
    rewrite Hexp, Hm.
    replace (exponent64 V - 2 =? 0) with false by (symmetry; apply Z.eqb_neq; lia).
    replace (exponent64 V - 2 + 1) with (exponent64 V - 1) by lia.
    rewrite pow2_split4 by lia.
    replace ((2 ^ 52 + mantissa64 V) * (4 * 2 ^ (exponent64 V - 3)))
      with ((2 ^ 52 + mantissa64 V) * 2 ^ (exponent64 V - 3) * 4) by ring.
    rewrite Z.div_mul by lia. ring.
  - destruct (Float64fromVaxGFloat_subnormal buf V Hu He Hnp)
      as (f & Hf & _ & Hs & Hexp & Hm).
    change VaxG_exponent_adjustment with 2 in *.
    rewrite (lor_add 52 (2 ^ 52)) in Hm by arith.
    exists f. split; [exact Hf|]. split; [exact Hs|].
    unfold ieee64_scaled_magnitude, VaxG_scaled_magnitude.
    rewrite Hexp, Hm. change (0 =? 0) with true. cbv iota.
    rewrite Z.shiftr_div_pow2 by lia.
    assert (Hc : exponent64 V = 2 \/ exponent64 V = 1) by lia.
    destruct Hc as [-> | ->].
    + change (1 - (2 - 2)) with 1. change (2 ^ (2 - 1)) with 2. arith.
    + change (1 - (1 - 2)) with 2. change (2 ^ (1 - 1)) with 1. arith.
Qed.

(** X4: a legacy value with a non-zero exponent field is decoded, with a nil
    error, to the IEEE value of the same sign whose magnitude is the legacy
    magnitude rounded toward zero to a multiple of the smallest IEEE
    subnormal (4 in the scaled units, 2^-149 or 2^-1074); so the value is
    kept exactly whenever the legacy exponent field is at least 3, and at
    most the two lowest mantissa bits are dropped otherwise. *)
Theorem decode_preserves_value :
  (forall (buf : list byte) (v : Z),
      uint32FromVaxbits buf = Returns v ->
      exponent32 v <> 0 ->
      exists f,
        Float32fromVaxFFloat buf = Returns (f, None) /\
        sign32 (Float32bits f) = sign32 v /\
        ieee32_scaled_magnitude (Float32bits f) = 4 * (VaxF_scaled_magnitude v / 4) /\
        (3 <= exponent32 v ->
         ieee32_scaled_magnitude (Float32bits f) = VaxF_scaled_magnitude v)) /\
  (forall (buf : list byte) (V : Z),
      unpackG buf = Returns V ->
      exponent64 V <> 0 ->
      exists f,
        Float64fromVaxGFloat buf = Returns (f, None) /\
        sign64 (Float64bits f) = sign64 V /\
        ieee64_scaled_magnitude (Float64bits f) = 4 * (VaxG_scaled_magnitude V / 4) /\
        (3 <= exponent64 V ->
         ieee64_scaled_magnitude (Float64bits f) = VaxG_scaled_magnitude V)).
Proof.
  split.
  - intros buf v Hu He.
    destruct (Float32fromVaxFFloat_value buf v Hu He) as (f & Hf & Hs & Hmag).
    exists f. split; [exact Hf|]. split; [exact Hs|]. split; [exact Hmag|].
    intros H3. rewrite Hmag. unfold VaxF_scaled_magnitude.
    rewrite pow2_split4 by lia.
    replace ((2 ^ 23 + mantissa32 v) * (4 * 2 ^ (exponent32 v - 3)))
      with ((2 ^ 23 + mantissa32 v) * 2 ^ (exponent32 v - 3) * 4) by ring.
    rewrite Z.div_mul by lia. ring.
  - intros buf V Hu He.
    destruct (Float64fromVaxGFloat_value buf V Hu He) as (f & Hf & Hs & Hmag).
    exists f. split; [exact Hf|]. split; [exact Hs|]. split; [exact Hmag|].
    intros H3. rewrite Hmag. unfold VaxG_scaled_magnitude.
    rewrite pow2_split4 by lia.
    replace ((2 ^ 52 + mantissa64 V) * (4 * 2 ^ (exponent64 V - 3)))
      with ((2 ^ 52 + mantissa64 V) * 2 ^ (exponent64 V - 3) * 4) by ring.
    rewrite Z.div_mul by lia. ring.
Qed.

Lemma decode_preserves_value_witness :
  (exists f,
      Float32fromVaxFFloat [xff; xff; x80; xff] = Returns (f, None) /\
      sign32 (Float32bits f) = sign32 0x80FFFFFF /\
      ieee32_scaled_magnitude (Float32bits f)
      = 4 * (VaxF_scaled_magnitude 0x80FFFFFF / 4) /\
      (3 <= exponent32 0x80FFFFFF ->
       ieee32_scaled_magnitude (Float32bits f) = VaxF_scaled_magnitude 0x80FFFFFF)) /\
  (exists f,
      Float64fromVaxGFloat [x2d; x18; x54; x44; x21; xfb; x40; x29]
      = Returns (f, None) /\
      sign64 (Float64bits f) = sign64 0x402921FB54442D18 /\
      ieee64_scaled_magnitude (Float64bits f)
      = 4 * (VaxG_scaled_magnitude 0x402921FB54442D18 / 4) /\
      (3 <= exponent64 0x402921FB54442D18 ->
       ieee64_scaled_magnitude (Float64bits f)
       = VaxG_scaled_magnitude 0x402921FB54442D18)).
Proof.
  split.
  - apply (proj1 decode_preserves_value [xff; xff; x80; xff] 0x80FFFFFF).
    + reflexivity.
    + vm_compute. discriminate.
  - apply (proj2 decode_preserves_value
             [x2d; x18; x54; x44; x21; xfb; x40; x29] 0x402921FB54442D18).
    + reflexivity.
    + vm_compute. discriminate.
Defined.

(** ** Decoding, then encoding again *)

Lemma to_byte_byte_val (z : Z) (b : byte) : z mod 256 = byte_val b -> to_byte z = b.
Proof.
  intros H. unfold to_byte. rewrite H. unfold byte_val.
  rewrite N2Z.id, Byte.of_to_N. reflexivity.
Qed.

Lemma BigEndian_PutUint32_unpacked (b0 b1 b2 b3 : byte) (v : Z) :
  uint32FromVaxbits [b0; b1; b2; b3] = Returns v ->
  BigEndian_PutUint32 (uint32FromVax v) = [b0; b1; b2; b3].
Proof.
  intros Hu. pose proof (uint32FromVaxbits_range _ _ Hu) as Hv.
  rewrite uint32FromVaxbits_bytes in Hu. injection Hu as Hu.
  rewrite uint32FromVax_arith by assumption.
  pose proof (byte_val_range b0). pose proof (byte_val_range b1).
  pose proof (byte_val_range b2). pose proof (byte_val_range b3).
  unfold BigEndian_PutUint32. rewrite !Z.shiftr_div_pow2 by lia.
  unfold is_uint32 in Hv.
  change (2 ^ 24) with 16777216. change (2 ^ 16) with 65536 in *.
  change (2 ^ 8) with 256 in *. change (2 ^ 32) with 4294967296 in *.
  repeat (f_equal; [apply to_byte_byte_val; Z.to_euclidean_division_equations; lia|]).
  f_equal. apply to_byte_byte_val. Z.to_euclidean_division_equations; lia.
Qed.

Lemma decode_encode_single (b0 b1 b2 b3 : byte) (v : Z) :
  uint32FromVaxbits [b0; b1; b2; b3] = Returns v ->
  3 <= exponent32 v ->
  exists f g,
    Float32fromVaxFFloat [b0; b1; b2; b3] = Returns (f, None) /\
    VaxFFloatfromFloat32 f = Returns (g, None) /\
    BigEndian_PutUint32 g = [b0; b1; b2; b3].
Proof.
  intros Hu H3. pose proof (uint32FromVaxbits_range _ _ Hu) as Hv.
  pose proof (exponent32_range v) as HE. change (2 ^ 8) with 256 in HE.
  exists (Float32frombits (v - 2 ^ 24)), (uint32FromVax v).
  split.
  { rewrite (Float32fromVaxFFloat_nonzero _ v Hu Hv) by lia.
    replace (0 <? exponent32 v - 2) with true by (symmetry; apply Z.ltb_lt; lia).
    reflexivity. }
  split; [|apply BigEndian_PutUint32_unpacked; exact Hu].
  assert (Hd : is_uint32 (v - 2 ^ 24) /\ exponent32 (v - 2 ^ 24) = exponent32 v - 2).
  { rewrite !exponent32_arith in *. unfold is_uint32 in *. arith. }
  destruct Hd as [Hdr Hde].
  rewrite (VaxFFloatfromFloat32_normal (Float32frombits (v - 2 ^ 24)))
    by (cbn [Float32bits]; try assumption; lia).
  cbn [Float32bits]. rewrite Hde.
  change VaxF_exponent_adjustment with 2. change (2 * VaxFExponentBias - 1) with 255.
  replace (255 <? exponent32 v - 2 + 2) with false by (symmetry; apply Z.ltb_ge; lia).
  replace (v - 2 ^ 24 + 2 ^ 24) with v by lia. reflexivity.
Qed.

Lemma BigEndian_PutUint64_unpacked (b0 b1 b2 b3 b4 b5 b6 b7 : byte) (v1 v2 : Z) :
  uint32FromVaxbits [b0; b1; b2; b3] = Returns v2 ->
  uint32FromVaxbits [b4; b5; b6; b7] = Returns v1 ->
  BigEndian_PutUint64 (packG v1 v2) = [b0; b1; b2; b3; b4; b5; b6; b7].
Proof.
  intros Hu2 Hu1.
  pose proof (uint32FromVaxbits_range _ _ Hu1) as Hv1.
  pose proof (uint32FromVaxbits_range _ _ Hu2) as Hv2.
  rewrite packG_arith by assumption.
  rewrite BigEndian_PutUint64_words by (apply uint32FromVax_range; assumption).
  rewrite (BigEndian_PutUint32_unpacked _ _ _ _ _ Hu2).
  rewrite (BigEndian_PutUint32_unpacked _ _ _ _ _ Hu1).
  reflexivity.
Qed.

Lemma decode_encode_double (b0 b1 b2 b3 b4 b5 b6 b7 : byte) (V : Z) :
  unpackG [b0; b1; b2; b3; b4; b5; b6; b7] = Returns V ->
  3 <= exponent64 V ->
  exists f g,
    Float64fromVaxGFloat [b0; b1; b2; b3; b4; b5; b6; b7] = Returns (f, None) /\
    VaxGFloatfromFloat64 f = Returns (g, None) /\
    BigEndian_PutUint64 g = [b0; b1; b2; b3; b4; b5; b6; b7].
Proof.
  intros Hu H3.
  destruct (unpackG_inv _ _ Hu)
    as (lo & hi & v1 & v2 & Hlo & Hv2 & Hhi & Hv1 & Hr1 & Hr2 & ->).
  cbn [slice Nat.leb andb List.length firstn skipn Nat.sub] in Hlo, Hhi.
  injection Hlo as <-. injection Hhi as <-.
  pose proof (exponent64_range (unpacked64 v1 v2)) as HE.
  change (2 ^ 11) with 2048 in HE.
  exists (Float64frombits (unpacked64 v1 v2 - 2 ^ 53)), (packG v1 v2).
  split.
  { rewrite (Float64fromVaxGFloat_nonzero _ [b0; b1; b2; b3] [b4; b5; b6; b7] v1 v2)
      by (try reflexivity; try assumption; lia).
    replace (0 <? exponent64 (unpacked64 v1 v2) - 2) with true
      by (symmetry; apply Z.ltb_lt; lia).
    reflexivity. }
  split; [|apply BigEndian_PutUint64_unpacked; assumption].
  set (d := unpacked64 v1 v2 - 2 ^ 53).
  assert (Hd : is_uint64 d /\ exponent64 d = exponent64 (unpacked64 v1 v2) - 2
               /\ d / 2 ^ 32 + 2 ^ 21 = v1 /\ d mod 2 ^ 32 = v2).
  { rewrite !exponent64_arith in *. subst d.
    unfold is_uint64, is_uint32, unpacked64 in *. arith. }
  destruct Hd as (Hdr & Hde & Hd1 & Hd2).
  rewrite (VaxGFloatfromFloat64_normal (Float64frombits d))
    by (cbn [Float64bits]; try assumption; lia).
  cbn [Float64bits]. rewrite Hde, Hd1, Hd2.
  change VaxG_exponent_adjustment with 2. change (2 * VaxGExponentBias - 1) with 2047.
  replace (2047 <? exponent64 (unpacked64 v1 v2) - 2 + 2) with false
    by (symmetry; apply Z.ltb_ge; lia).
  reflexivity.
Qed.

(** X5: a 4-byte (8-byte) legacy value whose exponent field is at least 3 is
    decoded with a nil error, the decoded value is encoded again with a nil
    error, and the big-endian bytes of that encoding are the original bytes. *)
Theorem decode_then_encode_roundtrip :
  (forall (b0 b1 b2 b3 : byte) (v : Z),
      uint32FromVaxbits [b0; b1; b2; b3] = Returns v ->
      3 <= exponent32 v ->
      exists f g,
        Float32fromVaxFFloat [b0; b1; b2; b3] = Returns (f, None) /\
        VaxFFloatfromFloat32 f = Returns (g, None) /\
        BigEndian_PutUint32 g = [b0; b1; b2; b3]) /\
  (forall (b0 b1 b2 b3 b4 b5 b6 b7 : byte) (V : Z),
      unpackG [b0; b1; b2; b3; b4; b5; b6; b7] = Returns V ->
      3 <= exponent64 V ->
      exists f g,
        Float64fromVaxGFloat [b0; b1; b2; b3; b4; b5; b6; b7] = Returns (f, None) /\
        VaxGFloatfromFloat64 f = Returns (g, None) /\
        BigEndian_PutUint64 g = [b0; b1; b2; b3; b4; b5; b6; b7]).
Proof.
  split.
  - exact decode_encode_single.
  - exact decode_encode_double.
Qed.

Lemma decode_then_encode_roundtrip_witness :
  (exists f g,
      Float32fromVaxFFloat [xbd; xc2; xfd; xf0] = Returns (f, None) /\
      VaxFFloatfromFloat32 f = Returns (g, None) /\
      BigEndian_PutUint32 g = [xbd; xc2; xfd; xf0]) /\
  (exists f g,
      Float64fromVaxGFloat [x69; x1b; x43; x57; x17; xb8; xc7; xbe] = Returns (f, None) /\
      VaxGFloatfromFloat64 f = Returns (g, None) /\
      BigEndian_PutUint64 g = [x69; x1b; x43; x57; x17; xb8; xc7; xbe]).
Proof.
  split.
  - apply (proj1 decode_then_encode_roundtrip xbd xc2 xfd xf0 0xFDF0BDC2).
    + reflexivity.
    + vm_compute. discriminate.
  - apply (proj2 decode_then_encode_roundtrip
             x69 x1b x43 x57 x17 xb8 xc7 xbe 0xC7BE17B84357691B).
    + reflexivity.
    + vm_compute. discriminate.
Defined.

(** ** Buffers that are too short or too long *)

Lemma Float32fromVaxFFloat_short (buf : list byte) :
  (List.length buf < 4)%nat -> Float32fromVaxFFloat buf = Panics.
Proof.
  destruct buf as [|b0 [|b1 [|b2 [|b3 rest]]]]; cbn [List.length]; intros H;
    try reflexivity; lia.
Qed.

Lemma Float32fromVaxFFloat_long (buf : list byte) :
  (4 <= List.length buf)%nat ->
  exists f err,
    Float32fromVaxFFloat buf = Returns (f, err) /\
    Float32fromVaxFFloat (firstn 4 buf) = Returns (f, err).
Proof.
  destruct buf as [|b0 [|b1 [|b2 [|b3 rest]]]]; cbn [List.length]; intros H;
    try lia.
  destruct (uint32FromVaxbits_total b0 b1 b2 b3) as (v & Hu & _).
  destruct (Float32fromVaxFFloat_error_iff [b0; b1; b2; b3] v Hu) as (f & err & Hf & _).
  exists f, err. split; [|exact Hf].
  rewrite <- Hf. reflexivity.
Qed.

Lemma Float64fromVaxGFloat_short (buf : list byte) :
  (List.length buf < 8)%nat -> Float64fromVaxGFloat buf = Panics.
Proof.
  destruct buf as [|b0 [|b1 [|b2 [|b3 [|b4 [|b5 [|b6 [|b7 rest]]]]]]]];
    cbn [List.length]; intros H; try lia.
  - reflexivity.
  - reflexivity.
  - reflexivity.
  - reflexivity.
  - unfold Float64fromVaxGFloat.
    cbn [slice Nat.leb andb List.length firstn skipn Nat.sub bind].
    destruct (uint32FromVaxbits_total b0 b1 b2 b3) as (v & -> & _). reflexivity.
  - unfold Float64fromVaxGFloat.
    cbn [slice Nat.leb andb List.length firstn skipn Nat.sub bind].
    destruct (uint32FromVaxbits_total b0 b1 b2 b3) as (v & -> & _). reflexivity.
  - unfold Float64fromVaxGFloat.
    cbn [slice Nat.leb andb List.length firstn skipn Nat.sub bind].
    destruct (uint32FromVaxbits_total b0 b1 b2 b3) as (v & -> & _). reflexivity.
  - unfold Float64fromVaxGFloat.
    cbn [slice Nat.leb andb List.length firstn skipn Nat.sub bind].
    destruct (uint32FromVaxbits_total b0 b1 b2 b3) as (v & -> & _). reflexivity.
Qed.

Lemma Float64fromVaxGFloat_long (buf : list byte) :
  (8 <= List.length buf)%nat ->
  exists f err,
    Float64fromVaxGFloat buf = Returns (f, err) /\
    Float64fromVaxGFloat (firstn 8 buf) = Returns (f, err).
Proof.
  destruct buf as [|b0 [|b1 [|b2 [|b3 [|b4 [|b5 [|b6 [|b7 rest]]]]]]]];
    cbn [List.length]; intros H; try lia.
  destruct (unpackG_total b0 b1 b2 b3 b4 b5 b6 b7) as (V & Hu).
  destruct (Float64fromVaxGFloat_error_iff _ V Hu) as (f & err & Hf & _).
  exists f, err. split; [|exact Hf].
  rewrite <- Hf. reflexivity.
Qed.

(** X6: on a slice whose capacity is its length, Float32fromVaxFFloat panics
    when the buffer holds fewer than 4 bytes, and otherwise returns what it
    returns on the first 4 bytes alone; Float64fromVaxGFloat does the same
    with 8 bytes.  Bytes beyond the first 4 (8) are never looked at. *)
Theorem decode_buffer_length :
  (forall buf : list byte,
      (List.length buf < 4)%nat -> Float32fromVaxFFloat buf = Panics) /\
  (forall buf : list byte,
      (4 <= List.length buf)%nat ->
      exists f err,
        Float32fromVaxFFloat buf = Returns (f, err) /\
        Float32fromVaxFFloat (firstn 4 buf) = Returns (f, err)) /\
  (forall buf : list byte,
      (List.length buf < 8)%nat -> Float64fromVaxGFloat buf = Panics) /\
  (forall buf : list byte,
      (8 <= List.length buf)%nat ->
      exists f err,
        Float64fromVaxGFloat buf = Returns (f, err) /\
        Float64fromVaxGFloat (firstn 8 buf) = Returns (f, err)).
Proof.
  split; [exact Float32fromVaxFFloat_short|].
  split; [exact Float32fromVaxFFloat_long|].
  split; [exact Float64fromVaxGFloat_short|].
  exact Float64fromVaxGFloat_long.
Qed.

Lemma decode_buffer_length_witness :
  Float32fromVaxFFloat [x00; x00; x40] = Panics /\
  (exists f err,
      Float32fromVaxFFloat [x00; x00; x40; x80; xff] = Returns (f, err) /\
      Float32fromVaxFFloat (firstn 4 [x00; x00; x40; x80; xff]) = Returns (f, err)) /\
  Float64fromVaxGFloat [x2d; x18; x54; x44; x21; xfb; x40] = Panics /\
  (exists f err,
      Float64fromVaxGFloat [x2d; x18; x54; x44; x21; xfb; x40; x29; xff]
      = Returns (f, err) /\
      Float64fromVaxGFloat (firstn 8 [x2d; x18; x54; x44; x21; xfb; x40; x29; xff])
      = Returns (f, err)).
Proof.
  destruct decode_buffer_length as (H1 & H2 & H3 & H4).
  split; [apply H1; cbn; lia|].
  split; [apply H2; cbn; lia|].
  split; [apply H3; cbn; lia|].
  apply H4; cbn; lia.
Defined.

(** ** The readers *)

Lemma copy_into_length (dst src : list byte) :
  List.length (copy_into dst src) = List.length dst.
Proof.
  unfold copy_into. rewrite length_firstn, length_app, length_skipn. lia.
Qed.

Lemma copy_into_full (dst src : list byte) :
  List.length src = List.length dst -> copy_into dst src = src.
Proof.
  intros H. unfold copy_into.
  rewrite skipn_all2 by lia.
  rewrite app_nil_r, <- H. apply firstn_all.
Qed.

Lemma copy_into_nil (dst : list byte) : copy_into dst [] = dst.
Proof. unfold copy_into. cbn [List.length skipn app]. apply firstn_all. Qed.

Section AnyReader.
Variable R : Type.
Variable ReadFull : R -> nat -> R * list byte * error.

Lemma VaxFFloatReader_Read_returns (vaxin : VaxFFloatReader R) :
  List.length (VaxFFloatReader_buf vaxin) = 4%nat ->
  exists vaxin' x,
    VaxFFloatReader_Read ReadFull vaxin = Returns (vaxin', x) /\
    List.length (VaxFFloatReader_buf vaxin') = 4%nat.
Proof.
  intros Hlen. unfold VaxFFloatReader_Read.
  destruct (ReadFull (VaxFFloatReader_r vaxin) (List.length (VaxFFloatReader_buf vaxin)))
    as [[r data] err].
  destruct err as [e|].
  - do 2 eexists. split; [reflexivity|].
    cbn [VaxFFloatReader_buf]. rewrite copy_into_length. exact Hlen.
  - cbn [VaxFFloatReader_buf].
    destruct (Float32fromVaxFFloat_long (copy_into (VaxFFloatReader_buf vaxin) data))
      as (f & err & Hf & _).
    { rewrite copy_into_length. lia. }
    rewrite Hf. cbn [bind]. do 2 eexists. split; [reflexivity|].
    cbn [VaxFFloatReader_buf]. rewrite copy_into_length. exact Hlen.
Qed.

Lemma VaxGFloatReader_Read_returns (vaxin : VaxGFloatReader R) :
  List.length (VaxGFloatReader_buf vaxin) = 8%nat ->
  exists vaxin' x,
    VaxGFloatReader_Read ReadFull vaxin = Returns (vaxin', x) /\
    List.length (VaxGFloatReader_buf vaxin') = 8%nat.
Proof.
  intros Hlen. unfold VaxGFloatReader_Read.
  destruct (ReadFull (VaxGFloatReader_r vaxin) (List.length (VaxGFloatReader_buf vaxin)))
    as [[r data] err].
  destruct err as [e|].
  - do 2 eexists. split; [reflexivity|].
    cbn [VaxGFloatReader_buf]. rewrite copy_into_length. exact Hlen.
  - cbn [VaxGFloatReader_buf].
    destruct (Float64fromVaxGFloat_long (copy_into (VaxGFloatReader_buf vaxin) data))
      as (f & err & Hf & _).
    { rewrite copy_into_length. lia. }
    rewrite Hf. cbn [bind]. do 2 eexists. split; [reflexivity|].
    cbn [VaxGFloatReader_buf]. rewrite copy_into_length. exact Hlen.
Qed.

Lemma read_times_returns {S A : Type} (Read : S -> result (S * A)) (Inv : S -> Prop) :
  (forall s, Inv s -> exists s' x, Read s = Returns (s', x) /\ Inv s') ->
  forall (n : nat) (s : S),
    Inv s ->
    exists s' xs,
      read_times Read n s = Returns (s', xs) /\ List.length xs = n /\ Inv s'.
Proof.
  intros Hstep n. induction n as [|n IH]; intros s Hs.
  - exists s, []. repeat split. exact Hs.
  - destruct (Hstep s Hs) as (s1 & x & Hread & Hs1).
    destruct (IH s1 Hs1) as (s2 & xs & Hrest & Hlen & Hs2).
    exists s2, (x :: xs). cbn [read_times].
    rewrite Hread. cbn [bind]. rewrite Hrest. cbn [bind].
    split; [reflexivity|]. split; [cbn [List.length]; lia | exact Hs2].
Qed.
End AnyReader.

(** X7: over any underlying reader, whatever [io.ReadFull] stores and
    whatever error it gives, a reader made by NewVaxFFloatReader
    (NewVaxGFloatReader) never panics: any number of Read calls return, one
    result each, and the reader's buffer keeps its 4 (8) bytes. *)
Theorem readers_never_panic :
  forall (R : Type) (ReadFull : R -> nat -> R * list byte * error) (r : R) (n : nat),
    (exists vaxin xs,
        read_times (VaxFFloatReader_Read ReadFull) n (NewVaxFFloatReader r)
        = Returns (vaxin, xs) /\
        List.length xs = n /\
        List.length (VaxFFloatReader_buf vaxin) = 4%nat) /\
    (exists vaxin xs,
        read_times (VaxGFloatReader_Read ReadFull) n (NewVaxGFloatReader r)
        = Returns (vaxin, xs) /\
        List.length xs = n /\
        List.length (VaxGFloatReader_buf vaxin) = 8%nat).
Proof.
  intros R ReadFull r n. split.
  - apply (read_times_returns (VaxFFloatReader_Read ReadFull)
             (fun v => List.length (VaxFFloatReader_buf v) = 4%nat)).
    + apply VaxFFloatReader_Read_returns.
    + reflexivity.
  - apply (read_times_returns (VaxGFloatReader_Read ReadFull)
             (fun v => List.length (VaxGFloatReader_buf v) = 8%nat)).
    + apply VaxGFloatReader_Read_returns.
    + reflexivity.
Qed.

(** ** Reading a bytes.Buffer unit by unit *)

Lemma VaxFFloatReader_Read_end (tail buf : list byte) :
  (List.length tail < 4)%nat -> List.length buf = 4%nat ->
  exists vaxin,
    VaxFFloatReader_Read bytes_Buffer_ReadFull (mkVaxFFloatReader _ tail buf)
    = Returns (vaxin, (Float32frombits 0, Some (end_of_stream tail))) /\
    VaxFFloatReader_r vaxin = [] /\
    List.length (VaxFFloatReader_buf vaxin) = 4%nat.
Proof.
  intros Ht Hb. unfold VaxFFloatReader_Read, bytes_Buffer_ReadFull.
  cbn [VaxFFloatReader_r VaxFFloatReader_buf]. rewrite Hb.
  replace (Nat.leb 4 (List.length tail)) with false
    by (symmetry; apply Nat.leb_gt; exact Ht).
  destruct tail as [|t tail']; eexists; (split; [reflexivity|]);
    cbn [VaxFFloatReader_r VaxFFloatReader_buf]; (split; [reflexivity|]);
    rewrite copy_into_length; exact Hb.
Qed.

Lemma VaxFFloatReader_Read_unit (b0 b1 b2 b3 : byte) (rest buf : list byte)
  (x : float32 * error) :
  List.length buf = 4%nat ->
  Float32fromVaxFFloat [b0; b1; b2; b3] = Returns x ->
  VaxFFloatReader_Read bytes_Buffer_ReadFull
    (mkVaxFFloatReader _ (b0 :: b1 :: b2 :: b3 :: rest) buf)
  = Returns (mkVaxFFloatReader _ rest [b0; b1; b2; b3], x).
Proof.
  intros Hb Hx. unfold VaxFFloatReader_Read, bytes_Buffer_ReadFull.
  cbn [VaxFFloatReader_r VaxFFloatReader_buf]. rewrite Hb.
  cbn [List.length Nat.leb skipn firstn].
  rewrite copy_into_full by (cbn [List.length]; lia).
  rewrite Hx. reflexivity.
Qed.

Lemma VaxFFloatReader_reads_units (chunks : list (list byte)) :
  forall (xs : list (float32 * error)) (tail buf : list byte),
    Forall (fun c => List.length c = 4%nat) chunks ->
    Forall2 (fun c x => Float32fromVaxFFloat c = Returns x) chunks xs ->
    (List.length tail < 4)%nat -> List.length buf = 4%nat ->
    exists vaxin,
      read_times (VaxFFloatReader_Read bytes_Buffer_ReadFull)
        (S (List.length chunks)) (mkVaxFFloatReader _ (List.concat chunks ++ tail) buf)
      = Returns (vaxin, xs ++ [(Float32frombits 0, Some (end_of_stream tail))]).
Proof.
  induction chunks as [|c chunks IH]; intros xs tail buf Hlen Hdec Ht Hb.
  - inversion Hdec; subst. cbn [List.concat app List.length].
    destruct (VaxFFloatReader_Read_end tail buf Ht Hb) as (vaxin & Hread & _).
    exists vaxin. cbn [read_times]. rewrite Hread. reflexivity.
  - inversion Hlen as [|c' chunks' Hc Hlen']; subst.
    inversion Hdec as [|c' x chunks' xs' Hx Hdec']; subst.
    destruct c as [|b0 [|b1 [|b2 [|b3 [|b4 c]]]]]; try discriminate Hc.
    destruct (IH xs' tail [b0; b1; b2; b3] Hlen' Hdec' Ht eq_refl) as (vaxin & Hrest).
    exists vaxin.
    change (read_times (VaxFFloatReader_Read bytes_Buffer_ReadFull)
              (S (List.length ([b0; b1; b2; b3] :: chunks))))
      with (fun s =>
              ' (s, y) <- VaxFFloatReader_Read bytes_Buffer_ReadFull s ;;
              ' (s, ys) <- read_times (VaxFFloatReader_Read bytes_Buffer_ReadFull)
                             (S (List.length chunks)) s ;;
              Returns (s, y :: ys)).
    cbv beta. cbn [List.concat app].
    rewrite (VaxFFloatReader_Read_unit b0 b1 b2 b3 _ buf x Hb Hx). cbn [bind].
    rewrite Hrest. reflexivity.
Qed.

Lemma VaxGFloatReader_Read_end (tail buf : list byte) :
  (List.length tail < 8)%nat -> List.length buf = 8%nat ->
  exists vaxin,
    VaxGFloatReader_Read bytes_Buffer_ReadFull (mkVaxGFloatReader _ tail buf)
    = Returns (vaxin, (Float64frombits 0, Some (end_of_stream tail))) /\
    VaxGFloatReader_r vaxin = [] /\
    List.length (VaxGFloatReader_buf vaxin) = 8%nat.
Proof.
  intros Ht Hb. unfold VaxGFloatReader_Read, bytes_Buffer_ReadFull.
  cbn [VaxGFloatReader_r VaxGFloatReader_buf]. rewrite Hb.
  replace (Nat.leb 8 (List.length tail)) with false
    by (symmetry; apply Nat.leb_gt; exact Ht).
  destruct tail as [|t tail']; eexists; (split; [reflexivity|]);
    cbn [VaxGFloatReader_r VaxGFloatReader_buf]; (split; [reflexivity|]);
    rewrite copy_into_length; exact Hb.
Qed.

Lemma VaxGFloatReader_Read_unit (b0 b1 b2 b3 b4 b5 b6 b7 : byte) (rest buf : list byte)
  (x : float64 * error) :
  List.length buf = 8%nat ->
  Float64fromVaxGFloat [b0; b1; b2; b3; b4; b5; b6; b7] = Returns x ->
  VaxGFloatReader_Read bytes_Buffer_ReadFull
    (mkVaxGFloatReader _ (b0 :: b1 :: b2 :: b3 :: b4 :: b5 :: b6 :: b7 :: rest) buf)
  = Returns (mkVaxGFloatReader _ rest [b0; b1; b2; b3; b4; b5; b6; b7], x).
Proof.
  intros Hb Hx. unfold VaxGFloatReader_Read, bytes_Buffer_ReadFull.
  cbn [VaxGFloatReader_r VaxGFloatReader_buf]. rewrite Hb.
  cbn [List.length Nat.leb skipn firstn].
  rewrite copy_into_full by (cbn [List.length]; lia).
  rewrite Hx. reflexivity.
Qed.

Lemma VaxGFloatReader_reads_units (chunks : list (list byte)) :
  forall (xs : list (float64 * error)) (tail buf : list byte),
    Forall (fun c => List.length c = 8%nat) chunks ->
    Forall2 (fun c x => Float64fromVaxGFloat c = Returns x) chunks xs ->
    (List.length tail < 8)%nat -> List.length buf = 8%nat ->
    exists vaxin,
      read_times (VaxGFloatReader_Read bytes_Buffer_ReadFull)
        (S (List.length chunks)) (mkVaxGFloatReader _ (List.concat chunks ++ tail) buf)
      = Returns (vaxin, xs ++ [(Float64frombits 0, Some (end_of_stream tail))]).
Proof.
  induction chunks as [|c chunks IH]; intros xs tail buf Hlen Hdec Ht Hb.
  - inversion Hdec; subst. cbn [List.concat app List.length].
    destruct (VaxGFloatReader_Read_end tail buf Ht Hb) as (vaxin & Hread & _).
    exists vaxin. cbn [read_times]. rewrite Hread. reflexivity.
  - inversion Hlen as [|c' chunks' Hc Hlen']; subst.
    inversion Hdec as [|c' x chunks' xs' Hx Hdec']; subst.
    destruct c as [|b0 [|b1 [|b2 [|b3 [|b4 [|b5 [|b6 [|b7 [|b8 c]]]]]]]]];
      try discriminate Hc.
    destruct (IH xs' tail [b0; b1; b2; b3; b4; b5; b6; b7] Hlen' Hdec' Ht eq_refl)
      as (vaxin & Hrest).
    exists vaxin.
    change (read_times (VaxGFloatReader_Read bytes_Buffer_ReadFull)
              (S (List.length ([b0; b1; b2; b3; b4; b5; b6; b7] :: chunks))))
      with (fun s =>
              ' (s, y) <- VaxGFloatReader_Read bytes_Buffer_ReadFull s ;;
              ' (s, ys) <- read_times (VaxGFloatReader_Read bytes_Buffer_ReadFull)
                             (S (List.length chunks)) s ;;
              Returns (s, y :: ys)).
    cbv beta. cbn [List.concat app].
    rewrite (VaxGFloatReader_Read_unit b0 b1 b2 b3 b4 b5 b6 b7 _ buf x Hb Hx).
    cbn [bind]. rewrite Hrest. reflexivity.
Qed.

Lemma Float32fromVaxFFloat_units (chunks : list (list byte)) :
  Forall (fun c => List.length c = 4%nat) chunks ->
  exists xs, Forall2 (fun c x => Float32fromVaxFFloat c = Returns x) chunks xs.
Proof.
  induction 1 as [|c chunks Hc _ IH].
  - exists []. constructor.
  - destruct IH as (xs & Hxs).
    destruct (Float32fromVaxFFloat_long c) as (f & err & Hf & _); [lia|].
    exists ((f, err) :: xs). constructor; assumption.
Qed.

Lemma Float64fromVaxGFloat_units (chunks : list (list byte)) :
  Forall (fun c => List.length c = 8%nat) chunks ->
  exists xs, Forall2 (fun c x => Float64fromVaxGFloat c = Returns x) chunks xs.
Proof.
  induction 1 as [|c chunks Hc _ IH].
  - exists []. constructor.
  - destruct IH as (xs & Hxs).
    destruct (Float64fromVaxGFloat_long c) as (f & err & Hf & _); [lia|].
    exists ((f, err) :: xs). constructor; assumption.
Qed.

(** X8: a reader over a bytes.Buffer that holds complete 4-byte (8-byte)
    units followed by a tail shorter than a unit returns, Read after Read,
    what Float32fromVaxFFloat (Float64fromVaxGFloat) returns on each unit in
    order, conversion errors included, and then the value 0 with io.EOF when
    the tail is empty and with io.ErrUnexpectedEOF when it is not. *)
Theorem readers_decode_unit_by_unit :
  (forall (chunks : list (list byte)) (tail : list byte),
      Forall (fun c => List.length c = 4%nat) chunks ->
      (List.length tail < 4)%nat ->
      exists vaxin xs,
        Forall2 (fun c x => Float32fromVaxFFloat c = Returns x) chunks xs /\
        read_times (VaxFFloatReader_Read bytes_Buffer_ReadFull)
          (S (List.length chunks)) (NewVaxFFloatReader (List.concat chunks ++ tail))
        = Returns (vaxin, xs ++ [(Float32frombits 0, Some (end_of_stream tail))])) /\
  (forall (chunks : list (list byte)) (tail : list byte),
      Forall (fun c => List.length c = 8%nat) chunks ->
      (List.length tail < 8)%nat ->
      exists vaxin xs,
        Forall2 (fun c x => Float64fromVaxGFloat c = Returns x) chunks xs /\
        read_times (VaxGFloatReader_Read bytes_Buffer_ReadFull)
          (S (List.length chunks)) (NewVaxGFloatReader (List.concat chunks ++ tail))
        = Returns (vaxin, xs ++ [(Float64frombits 0, Some (end_of_stream tail))])).
Proof.
  split.
  - intros chunks tail Hlen Ht.
    destruct (Float32fromVaxFFloat_units chunks Hlen) as (xs & Hxs).
    destruct (VaxFFloatReader_reads_units chunks xs tail (repeat x00 4) Hlen Hxs Ht eq_refl)
      as (vaxin & Hread).
    exists vaxin, xs. split; [exact Hxs | exact Hread].
  - intros chunks tail Hlen Ht.
    destruct (Float64fromVaxGFloat_units chunks Hlen) as (xs & Hxs).
    destruct (VaxGFloatReader_reads_units chunks xs tail (repeat x00 8) Hlen Hxs Ht eq_refl)
      as (vaxin & Hread).
    exists vaxin, xs. split; [exact Hxs | exact Hread].
Qed.

Lemma readers_decode_unit_by_unit_witness :
  (exists vaxin xs,
      Forall2 (fun c x => Float32fromVaxFFloat c = Returns x)
        [[x00; x00; x40; x80]; [x00; x00; x80; x00]] xs /\
      read_times (VaxFFloatReader_Read bytes_Buffer_ReadFull) 3
        (NewVaxFFloatReader
           (List.concat [[x00; x00; x40; x80]; [x00; x00; x80; x00]] ++ [x01]))
      = Returns (vaxin, xs ++ [(Float32frombits 0, Some (end_of_stream [x01]))])) /\
  (exists vaxin xs,
      Forall2 (fun c x => Float64fromVaxGFloat c = Returns x)
        [[x2d; x18; x54; x44; x21; xfb; x40; x29]] xs /\
      read_times (VaxGFloatReader_Read bytes_Buffer_ReadFull) 2
        (NewVaxGFloatReader
           (List.concat [[x2d; x18; x54; x44; x21; xfb; x40; x29]] ++ []))
      = Returns (vaxin, xs ++ [(Float64frombits 0, Some (end_of_stream []))])).
Proof.
  split.
  - apply (proj1 readers_decode_unit_by_unit
             [[x00; x00; x40; x80]; [x00; x00; x80; x00]] [x01]).
    + repeat constructor.
    + cbn. lia.
  - apply (proj2 readers_decode_unit_by_unit
             [[x2d; x18; x54; x44; x21; xfb; x40; x29]] []).
    + repeat constructor.
    + cbn. lia.
Defined.

(** ** The writers *)

Lemma WriteFFloat_cases (W : Type) (Write : W -> list byte -> W * error)
  (w : W) (f : float32) :
  is_uint32 (Float32bits f) ->
  (exponent32 (Float32bits f) = 0xFF \/
   exponent32 (Float32bits f) = 0xFE \/
   (exponent32 (Float32bits f) = 0 /\ 0 < mantissa32 (Float32bits f) < 2 ^ 20) ->
   exists e, WriteFFloat Write w f = Returns (w, Some e)) /\
  (~ (exponent32 (Float32bits f) = 0xFF \/
      exponent32 (Float32bits f) = 0xFE \/
      (exponent32 (Float32bits f) = 0 /\ 0 < mantissa32 (Float32bits f) < 2 ^ 20)) ->
   exists g,
     VaxFFloatfromFloat32 f = Returns (g, None) /\
     WriteFFloat Write w f = Returns (Write w (BigEndian_PutUint32 g))).
Proof.
  intros Hw.
  destruct (VaxFFloatfromFloat32_error_iff f Hw) as (g & err & Hrun & _ & Hiff).
  unfold WriteFFloat. rewrite Hrun. cbn [bind].
  split; intros Hc.
  - destruct err as [e|]; [exists e; reflexivity|].
    exfalso. apply Hiff in Hc. congruence.
  - destruct err as [e|].
    + exfalso. apply Hc, Hiff. discriminate.
    + exists g. split; reflexivity.
Qed.

Lemma WriteGFloat_cases (W : Type) (Write : W -> list byte -> W * error)
  (w : W) (f : float64) :
  is_uint64 (Float64bits f) ->
  (exponent64 (Float64bits f) = 0x7FF \/
   exponent64 (Float64bits f) = 0x7FE \/
   (exponent64 (Float64bits f) = 0 /\ 0 < mantissa64 (Float64bits f) < 2 ^ 49) ->
   exists e, WriteGFloat Write w f = Returns (w, Some e)) /\
  (~ (exponent64 (Float64bits f) = 0x7FF \/
      exponent64 (Float64bits f) = 0x7FE \/
      (exponent64 (Float64bits f) = 0 /\ 0 < mantissa64 (Float64bits f) < 2 ^ 49)) ->
   exists g,
     VaxGFloatfromFloat64 f = Returns (g, None) /\
     WriteGFloat Write w f = Returns (Write w (BigEndian_PutUint64 g))).
Proof.
  intros Hw.
  destruct (VaxGFloatfromFloat64_error_iff f Hw) as (g & err & Hrun & _ & Hiff).
  unfold WriteGFloat. rewrite Hrun. cbn [bind].
  split; intros Hc.
  - destruct err as [e|]; [exists e; reflexivity|].
    exfalso. apply Hiff in Hc. congruence.
  - destruct err as [e|].
    + exfalso. apply Hc, Hiff. discriminate.
    + exists g. split; reflexivity.
Qed.

(** X9: over any writer, WriteFFloat (WriteGFloat) does not call Write at all
    and returns an error, leaving the writer as it was, when the exponent
    field of the value is all-ones or the largest finite one, or the value is
    a subnormal with mantissa field below 2^20 (2^49): the saturation pattern
    the encoder computed is dropped.  For every other value it calls Write
    once, with the 4 (8) big-endian bytes of the encoding, and returns what
    that call returns. *)
Theorem writers_write_once_or_not_at_all :
  (forall (W : Type) (Write : W -> list byte -> W * error) (w : W) (f : float32),
      is_uint32 (Float32bits f) ->
      (exponent32 (Float32bits f) = 0xFF \/
       exponent32 (Float32bits f) = 0xFE \/
       (exponent32 (Float32bits f) = 0 /\ 0 < mantissa32 (Float32bits f) < 2 ^ 20) ->
       exists e, WriteFFloat Write w f = Returns (w, Some e)) /\
      (~ (exponent32 (Float32bits f) = 0xFF \/
          exponent32 (Float32bits f) = 0xFE \/
          (exponent32 (Float32bits f) = 0 /\ 0 < mantissa32 (Float32bits f) < 2 ^ 20)) ->
       exists g,
         VaxFFloatfromFloat32 f = Returns (g, None) /\
         WriteFFloat Write w f = Returns (Write w (BigEndian_PutUint32 g)))) /\
  (forall (W : Type) (Write : W -> list byte -> W * error) (w : W) (f : float64),
      is_uint64 (Float64bits f) ->
      (exponent64 (Float64bits f) = 0x7FF \/
       exponent64 (Float64bits f) = 0x7FE \/
       (exponent64 (Float64bits f) = 0 /\ 0 < mantissa64 (Float64bits f) < 2 ^ 49) ->
       exists e, WriteGFloat Write w f = Returns (w, Some e)) /\
      (~ (exponent64 (Float64bits f) = 0x7FF \/
          exponent64 (Float64bits f) = 0x7FE \/
          (exponent64 (Float64bits f) = 0 /\ 0 < mantissa64 (Float64bits f) < 2 ^ 49)) ->
       exists g,
         VaxGFloatfromFloat64 f = Returns (g, None) /\
         WriteGFloat Write w f = Returns (Write w (BigEndian_PutUint64 g)))).
Proof.
  split.
  - exact WriteFFloat_cases.
  - exact WriteGFloat_cases.
Qed.

Lemma writers_write_once_or_not_at_all_witness :
  (exists e,
      WriteFFloat bytes_Buffer_Write [x01] (Float32frombits 0x7F800000)
      = Returns ([x01], Some e)) /\
  (exists g,
      VaxGFloatfromFloat64 (Float64frombits 0x400921FB54442D18) = Returns (g, None) /\
      WriteGFloat bytes_Buffer_Write [x01] (Float64frombits 0x400921FB54442D18)
      = Returns (bytes_Buffer_Write [x01] (BigEndian_PutUint64 g))).
Proof.
  split.
  - apply (proj1 writers_write_once_or_not_at_all bytes_Buffer bytes_Buffer_Write
             [x01] (Float32frombits 0x7F800000)).
    + unfold is_uint32. cbn [Float32bits]. lia.
    + left. reflexivity.
  - apply (proj2 writers_write_once_or_not_at_all bytes_Buffer bytes_Buffer_Write
             [x01] (Float64frombits 0x400921FB54442D18)).
    + unfold is_uint64. cbn [Float64bits]. lia.
    + vm_compute. intuition discriminate.
Defined.

(** ** Writing a stream and reading it back *)

Lemma concat_units_length (n : nat) (chunks : list (list byte)) :
  Forall (fun c => List.length c = n) chunks ->
  List.length (List.concat chunks) = (n * List.length chunks)%nat.
Proof.
  induction 1 as [|c chunks Hc _ IH]; cbn [List.concat List.length].
  - lia.
  - rewrite length_app, IH, Hc. lia.
Qed.

Lemma WriteFFloat_units (fs : list float32) :
  Forall (fun f => is_uint32 (Float32bits f) /\
                   in_VaxF_normalized_range (Float32bits f)) fs ->
  exists chunks,
    Forall (fun c => List.length c = 4%nat) chunks /\
    Forall2 (fun c x => Float32fromVaxFFloat c = Returns x) chunks
      (map (fun f => (f, None)) fs) /\
    List.length chunks = List.length fs /\
    forall b0,
      write_each (WriteFFloat bytes_Buffer_Write) b0 fs
      = Returns (b0 ++ List.concat chunks, None).
Proof.
  induction 1 as [|f fs [Hw Hr] _ IH].
  - exists []. repeat split; try constructor.
    intros b0. cbn [write_each List.concat]. rewrite app_nil_r. reflexivity.
  - destruct IH as (chunks & Hlen & Hdec & Hn & Hwrite).
    destruct (roundtrip_single f Hw Hr) as (g & Henc & Hback).
    exists (BigEndian_PutUint32 g :: chunks).
    split; [constructor; [reflexivity | exact Hlen]|].
    split; [constructor; [exact Hback | exact Hdec]|].
    split; [cbn [List.length]; lia|].
    intros b0. cbn [write_each]. unfold WriteFFloat at 1.
    rewrite Henc. cbn [bind]. unfold binary_Write_uint32, bytes_Buffer_Write.
    rewrite Hwrite. cbn [List.concat]. rewrite app_assoc. reflexivity.
Qed.

Lemma WriteGFloat_units (fs : list float64) :
  Forall (fun f => is_uint64 (Float64bits f) /\
                   in_VaxG_normalized_range (Float64bits f)) fs ->
  exists chunks,
    Forall (fun c => List.length c = 8%nat) chunks /\
    Forall2 (fun c x => Float64fromVaxGFloat c = Returns x) chunks
      (map (fun f => (f, None)) fs) /\
    List.length chunks = List.length fs /\
    forall b0,
      write_each (WriteGFloat bytes_Buffer_Write) b0 fs
      = Returns (b0 ++ List.concat chunks, None).
Proof.
  induction 1 as [|f fs [Hw Hr] _ IH].
  - exists []. repeat split; try constructor.
    intros b0. cbn [write_each List.concat]. rewrite app_nil_r. reflexivity.
  - destruct IH as (chunks & Hlen & Hdec & Hn & Hwrite).
    destruct (roundtrip_double f Hw Hr) as (g & Henc & Hback).
    exists (BigEndian_PutUint64 g :: chunks).
    split; [constructor; [reflexivity | exact Hlen]|].
    split; [constructor; [exact Hback | exact Hdec]|].
    split; [cbn [List.length]; lia|].
    intros b0. cbn [write_each]. unfold WriteGFloat at 1.
    rewrite Henc. cbn [bind]. unfold binary_Write_uint64, bytes_Buffer_Write.
    rewrite Hwrite. cbn [List.concat]. rewrite app_assoc. reflexivity.
Qed.

(** X10: for every list of float32 values in the legacy normalized range,
    writing them in order with WriteFFloat to an empty bytes.Buffer raises no
    error and leaves 4 bytes per value, and a VaxFFloatReader over those bytes
    returns exactly the values written, in order, each with a nil error,
    followed by the value 0 with io.EOF. *)
Theorem stream_roundtrip_single (fs : list float32) :
  Forall (fun f => is_uint32 (Float32bits f) /\
                   in_VaxF_normalized_range (Float32bits f)) fs ->
  exists b vaxin,
    write_each (WriteFFloat bytes_Buffer_Write) [] fs = Returns (b, None) /\
    List.length b = (4 * List.length fs)%nat /\
    read_times (VaxFFloatReader_Read bytes_Buffer_ReadFull)
      (S (List.length fs)) (NewVaxFFloatReader b)
    = Returns (vaxin, map (fun f => (f, None)) fs ++ [(Float32frombits 0, Some io_EOF)]).
Proof.
  intros Hfs.
  destruct (WriteFFloat_units fs Hfs) as (chunks & Hlen & Hdec & Hn & Hwrite).
  destruct (VaxFFloatReader_reads_units chunks _ [] (repeat x00 4) Hlen Hdec)
    as (vaxin & Hread); [cbn; lia | reflexivity |].
  exists (List.concat chunks), vaxin.
  split; [apply (Hwrite [])|].
  split; [rewrite (concat_units_length 4 chunks Hlen), Hn; reflexivity|].
  rewrite app_nil_r, Hn in Hread. exact Hread.
Qed.

Lemma stream_roundtrip_single_witness :
  exists b vaxin,
    write_each (WriteFFloat bytes_Buffer_Write) []
      [Float32frombits 0x3F800000; Float32frombits 0xC0600000] = Returns (b, None) /\
    List.length b = 8%nat /\
    read_times (VaxFFloatReader_Read bytes_Buffer_ReadFull) 3 (NewVaxFFloatReader b)
    = Returns (vaxin,
               [(Float32frombits 0x3F800000, None); (Float32frombits 0xC0600000, None);
                (Float32frombits 0, Some io_EOF)]).
Proof.
  apply (stream_roundtrip_single
           [Float32frombits 0x3F800000; Float32frombits 0xC0600000]).
  repeat constructor; cbn [Float32bits]; vm_compute; intuition discriminate.
Defined.

(** X11: the same for float64 values in the legacy normalized range, with
    WriteGFloat, 8 bytes per value and a VaxGFloatReader. *)
Theorem stream_roundtrip_double (fs : list float64) :
  Forall (fun f => is_uint64 (Float64bits f) /\
                   in_VaxG_normalized_range (Float64bits f)) fs ->
  exists b vaxin,
    write_each (WriteGFloat bytes_Buffer_Write) [] fs = Returns (b, None) /\
    List.length b = (8 * List.length fs)%nat /\
    read_times (VaxGFloatReader_Read bytes_Buffer_ReadFull)
      (S (List.length fs)) (NewVaxGFloatReader b)
    = Returns (vaxin, map (fun f => (f, None)) fs ++ [(Float64frombits 0, Some io_EOF)]).
Proof.
  intros Hfs.
  destruct (WriteGFloat_units fs Hfs) as (chunks & Hlen & Hdec & Hn & Hwrite).
  destruct (VaxGFloatReader_reads_units chunks _ [] (repeat x00 8) Hlen Hdec)
    as (vaxin & Hread); [cbn; lia | reflexivity |].
  exists (List.concat chunks), vaxin.
  split; [apply (Hwrite [])|].
  split; [rewrite (concat_units_length 8 chunks Hlen), Hn; reflexivity|].
  rewrite app_nil_r, Hn in Hread. exact Hread.
Qed.

Lemma stream_roundtrip_double_witness :
  exists b vaxin,
    write_each (WriteGFloat bytes_Buffer_Write) []
      [Float64frombits 0x400921FB54442D18; Float64frombits 0xBFF0000000000000]
    = Returns (b, None) /\
    List.length b = 16%nat /\
    read_times (VaxGFloatReader_Read bytes_Buffer_ReadFull) 3 (NewVaxGFloatReader b)
    = Returns (vaxin,
               [(Float64frombits 0x400921FB54442D18, None);
                (Float64frombits 0xBFF0000000000000, None);
                (Float64frombits 0, Some io_EOF)]).
Proof.
  apply (stream_roundtrip_double
           [Float64frombits 0x400921FB54442D18; Float64frombits 0xBFF0000000000000]).
  repeat constructor; cbn [Float64bits]; vm_compute; intuition discriminate.
Defined.

(** ** The byte layout of a legacy doubleword *)

(** X12: uint32FromVaxbits reads the 4 bytes as a big-endian word and swaps
    its halves, as uint32FromVax does; it maps the 4-byte buffers one-to-one
    onto the 32-bit values, its inverse being the big-endian bytes of the
    swapped word. *)
Theorem uint32FromVaxbits_layout :
  (forall b0 b1 b2 b3 : byte,
      uint32FromVaxbits [b0; b1; b2; b3]
      = Returns (uint32FromVax (byte_val b0 * 2 ^ 24 + byte_val b1 * 2 ^ 16
                                + byte_val b2 * 2 ^ 8 + byte_val b3))) /\
  (forall (b0 b1 b2 b3 : byte) (v : Z),
      uint32FromVaxbits [b0; b1; b2; b3] = Returns v ->
      is_uint32 v /\ BigEndian_PutUint32 (uint32FromVax v) = [b0; b1; b2; b3]) /\
  (forall r : Z,
      is_uint32 r ->
      uint32FromVaxbits (BigEndian_PutUint32 (uint32FromVax r)) = Returns r).
Proof.
  split; [|split].
  - intros b0 b1 b2 b3. rewrite uint32FromVaxbits_bytes.
    pose proof (byte_val_range b0). pose proof (byte_val_range b1).
    pose proof (byte_val_range b2). pose proof (byte_val_range b3).
    rewrite uint32FromVax_arith by (unfold is_uint32; arith).
    f_equal. arith.
  - intros b0 b1 b2 b3 v Hu. split.
    + apply (uint32FromVaxbits_range _ _ Hu).
    + apply BigEndian_PutUint32_unpacked. exact Hu.
  - exact uint32FromVaxbits_PutUint32.
Qed.

Lemma uint32FromVaxbits_layout_witness :
  (is_uint32 0x40800000 /\
   BigEndian_PutUint32 (uint32FromVax 0x40800000) = [x00; x00; x40; x80]) /\
  uint32FromVaxbits (BigEndian_PutUint32 (uint32FromVax 0x03081CEA))
  = Returns 0x03081CEA.
Proof.
  destruct uint32FromVaxbits_layout as (_ & Hinv & Hback).
  split.
  - apply (Hinv x00 x00 x40 x80 0x40800000). reflexivity.
  - apply (Hback 0x03081CEA). unfold is_uint32. lia.
Defined.

(** ** The decoders never underflow *)

Lemma Float32fromVaxFFloat_zero_iff (buf : list byte) (v : Z) :
  uint32FromVaxbits buf = Returns v ->
  exists f err,
    Float32fromVaxFFloat buf = Returns (f, err) /\
    (Float32bits f = 0 <-> exponent32 v = 0) /\
    Float32bits f <> 0x80000000.
Proof.
  intros Hu. pose proof (uint32FromVaxbits_range _ _ Hu) as Hv.
  destruct (Z.eq_dec (exponent32 v) 0) as [He | He].
  - destruct (sign32_bit v Hv) as [Hs | Hs];
      [rewrite (Float32fromVaxFFloat_zero buf v Hu Hv He Hs)
      |rewrite (Float32fromVaxFFloat_reserved buf v Hu Hv He Hs)];
      do 2 eexists; (split; [reflexivity|]); cbn [Float32bits];
      (split; [tauto | discriminate]).
  - destruct (Float32fromVaxFFloat_value buf v Hu He) as (f & Hf & _ & Hmag).
    exists f, None. split; [exact Hf|].
    pose proof (exponent32_range v) as HE. pose proof (mantissa32_range v) as HM.
    assert (Hbig : 2 ^ 23 <= VaxF_scaled_magnitude v).
    { unfold VaxF_scaled_magnitude.
      assert (0 < 2 ^ (exponent32 v - 1)) by (apply Z.pow_pos_nonneg; lia).
      pow2_numerals. nia. }
    assert (Hpos : 0 < ieee32_scaled_magnitude (Float32bits f)).
    { rewrite Hmag. arith. }
    split; [split; [|tauto]|]; intros H0; rewrite H0 in Hpos;
      vm_compute in Hpos; discriminate.
Qed.

Lemma Float64fromVaxGFloat_zero_iff (buf : list byte) (V : Z) :
  unpackG buf = Returns V ->
  exists f err,
    Float64fromVaxGFloat buf = Returns (f, err) /\
    (Float64bits f = 0 <-> exponent64 V = 0) /\
    Float64bits f <> 0x8000000000000000.
Proof.
  intros Hu.
  destruct (Z.eq_dec (exponent64 V) 0) as [He | He].
  - destruct (unpackG_inv _ _ Hu)
      as (lo & hi & v1 & v2 & Hlo & Hv2 & Hhi & Hv1 & Hr1 & Hr2 & ->).
    destruct (sign64_bit _ (unpacked64_range v1 v2 Hr1 Hr2)) as [Hs | Hs];
      [rewrite (Float64fromVaxGFloat_zero buf lo hi v1 v2 Hlo Hv2 Hhi Hv1 Hr1 Hr2 He Hs)
      |rewrite (Float64fromVaxGFloat_reserved buf lo hi v1 v2 Hlo Hv2 Hhi Hv1 Hr1 Hr2 He Hs)];
      do 2 eexists; (split; [reflexivity|]); cbn [Float64bits];
      (split; [tauto | discriminate]).
  - destruct (Float64fromVaxGFloat_value buf V Hu He) as (f & Hf & _ & Hmag).
    exists f, None. split; [exact Hf|].
    pose proof (exponent64_range V) as HE. pose proof (mantissa64_range V) as HM.
    assert (Hbig : 2 ^ 52 <= VaxG_scaled_magnitude V).
    { unfold VaxG_scaled_magnitude.
      assert (0 < 2 ^ (exponent64 V - 1)) by (apply Z.pow_pos_nonneg; lia).
      pow2_numerals. nia. }
    assert (Hpos : 0 < ieee64_scaled_magnitude (Float64bits f)).
    { rewrite Hmag. arith. }
    split; [split; [|tauto]|]; intros H0; rewrite H0 in Hpos;
      vm_compute in Hpos; discriminate.
Qed.

(** X13: the decoders return the zero pattern exactly for the inputs whose
    exponent field is zero; a legacy value with a non-zero exponent field is
    never flushed to zero, although its lowest bits may be dropped; and the
    decoders never return a negative zero. *)
Theorem decode_zero_iff_exponent_zero :
  (forall (buf : list byte) (v : Z),
      uint32FromVaxbits buf = Returns v ->
      exists f err,
        Float32fromVaxFFloat buf = Returns (f, err) /\
        (Float32bits f = 0 <-> exponent32 v = 0) /\
        Float32bits f <> 0x80000000) /\
  (forall (buf : list byte) (V : Z),
      unpackG buf = Returns V ->
      exists f err,
        Float64fromVaxGFloat buf = Returns (f, err) /\
        (Float64bits f = 0 <-> exponent64 V = 0) /\
        Float64bits f <> 0x8000000000000000).
Proof.
  split.
  - exact Float32fromVaxFFloat_zero_iff.
  - exact Float64fromVaxGFloat_zero_iff.
Qed.

Lemma decode_zero_iff_exponent_zero_witness :
  (exists f err,
      Float32fromVaxFFloat [x00; x00; x80; x80] = Returns (f, err) /\
      (Float32bits f = 0 <-> exponent32 0x80800000 = 0) /\
      Float32bits f <> 0x80000000) /\
  (exists f err,
      Float64fromVaxGFloat [x00; x00; x00; x00; x00; x00; x80; x10] = Returns (f, err) /\
      (Float64bits f = 0 <-> exponent64 0x8010000000000000 = 0) /\
      Float64bits f <> 0x8000000000000000).
Proof.
  split.
  - apply (proj1 decode_zero_iff_exponent_zero [x00; x00; x80; x80] 0x80800000).
    reflexivity.
  - apply (proj2 decode_zero_iff_exponent_zero
             [x00; x00; x00; x00; x00; x00; x80; x10] 0x8010000000000000).
    reflexivity.
Defined.
